(** * OpenForBC-Benchmark: the CLI benchmark runner

    A shallow embedding of [openforbc_benchmark/cli/benchmark.py]: the
    construction of a [CliBenchmarkRun] (log directory layout), the phase
    sequencer [start], the task wrapper [_run_task_or_err] and the process
    runner [_run_task], together with the pieces of the Python library they
    call ([os.path.join], [os.path.dirname], [shlex.join], [bytes.decode],
    [datetime.strftime]).

    Python [str] values are sequences of Unicode code points, [bytes] values
    are sequences of octets; both are kept apart here. *)

From Stdlib Require Import List ZArith NArith Bool Lia.
From Stdlib Require Import Strings.String Strings.Ascii Strings.Byte.
From Stdlib Require DecimalString.
Import ListNotations.

Set Implicit Arguments.

(** ** Text and bytes *)

Definition codepoint := N.
Definition text := list codepoint.
Definition bytes := list byte.

(** A Python string literal. *)
Definition T (s : string) : text :=
  map N_of_ascii (list_ascii_of_string s).

Definition text_eq_dec : forall a b : text, {a = b} + {a <> b} :=
  list_eq_dec N.eq_dec.

Definition text_eqb (a b : text) : bool :=
  if text_eq_dec a b then true else false.

Definition slash : codepoint := 47%N.
Definition squote : codepoint := 39%N.
Definition dquote : codepoint := 34%N.
Definition newline : codepoint := 10%N.
Definition carriage_return : codepoint := 13%N.

(** [s.startswith(c)] and [s.endswith(c)] for a one-character [c]. *)
Definition startswith (s : text) (c : codepoint) : bool :=
  match s with
  | [] => false
  | x :: _ => N.eqb x c
  end.

Fixpoint endswith (s : text) (c : codepoint) : bool :=
  match s with
  | [] => false
  | [x] => N.eqb x c
  | _ :: r => endswith r c
  end.

Fixpoint dropwhile {A} (p : A -> bool) (l : list A) : list A :=
  match l with
  | [] => []
  | x :: r => if p x then dropwhile p r else l
  end.

(** ** [os.path] on POSIX *)

Module PosixPath.

(** One round of the loop of [posixpath.join]: a component that starts
    with the separator replaces the path built so far. *)
Definition join2 (path b : text) : text :=
  if startswith b slash then b
  else match path with
       | [] => path ++ b
       | _ => if endswith path slash then path ++ b
              else path ++ slash :: b
       end.

Definition join (a : text) (p : list text) : text :=
  fold_left join2 p a.

Definition is_slash (c : codepoint) : bool := N.eqb c slash.

(** [s.rstrip('/')] *)
Definition rstrip_slash (s : text) : text :=
  rev (dropwhile is_slash (rev s)).

(** [p[:p.rfind('/') + 1]] *)
Definition head_upto_last_slash (p : text) : text :=
  rev (dropwhile (fun c => negb (is_slash c)) (rev p)).

Definition dirname (p : text) : text :=
  let head := head_upto_last_slash p in
  match head with
  | [] => head
  | _ => if forallb is_slash head then head else rstrip_slash head
  end.

End PosixPath.

(** ** [shlex.quote] and [shlex.join] *)

Module Shlex.

Definition between (lo hi c : N) : bool := N.leb lo c && N.leb c hi.

(** The complement of the class [[^\w@%+=:,./-]] under [re.ASCII]. *)
Definition is_safe (c : codepoint) : bool :=
  between 97 122 c || between 65 90 c || between 48 57 c
  || N.eqb c 95 || N.eqb c 64 || N.eqb c 37 || N.eqb c 43 || N.eqb c 61
  || N.eqb c 58 || N.eqb c 44 || N.eqb c 46 || N.eqb c 47 || N.eqb c 45.

(** [s.replace("'", "'\"'\"'")] *)
Definition escape_squotes (s : text) : text :=
  flat_map (fun c => if N.eqb c squote
                     then [squote; dquote; squote; dquote; squote]
                     else [c]) s.

Definition quote (s : text) : text :=
  match s with
  | [] => [squote; squote]
  | _ => if forallb is_safe s then s
         else squote :: escape_squotes s ++ [squote]
  end.

(** [' '.join(parts)] *)
Fixpoint join_spaces (parts : list text) : text :=
  match parts with
  | [] => []
  | [p] => p
  | p :: r => p ++ 32%N :: join_spaces r
  end.

Definition join (split_command : list text) : text :=
  join_spaces (map quote split_command).

End Shlex.

(** ** [bytes.decode()]: strict UTF-8 *)

Module Utf8.

Definition between (lo hi c : N) : bool := N.leb lo c && N.leb c hi.

Definition cont (n : N) : bool := between 128 191 n.

(** Admissible second byte after a three-byte lead: no overlong forms
    after [0xE0], no surrogates after [0xED]. *)
Definition second3 (n0 n1 : N) : bool :=
  if N.eqb n0 224 then between 160 191 n1
  else if N.eqb n0 237 then between 128 159 n1
  else cont n1.

(** Admissible second byte after a four-byte lead: no overlong forms
    after [0xF0], nothing above U+10FFFF after [0xF4]. *)
Definition second4 (n0 n1 : N) : bool :=
  if N.eqb n0 240 then between 144 191 n1
  else if N.eqb n0 244 then between 128 143 n1
  else cont n1.

Fixpoint decode (bs : bytes) : option text :=
  match bs with
  | [] => Some []
  | b0 :: r0 =>
    let n0 := Byte.to_N b0 in
    if N.ltb n0 128 then option_map (cons n0) (decode r0)
    else if between 194 223 n0 then
      match r0 with
      | b1 :: r1 =>
        let n1 := Byte.to_N b1 in
        if cont n1
        then option_map (cons ((n0 - 192) * 64 + (n1 - 128))%N) (decode r1)
        else None
      | _ => None
      end
    else if between 224 239 n0 then
      match r0 with
      | b1 :: b2 :: r2 =>
        let n1 := Byte.to_N b1 in
        let n2 := Byte.to_N b2 in
        if second3 n0 n1 && cont n2
        then option_map
               (cons ((n0 - 224) * 4096 + (n1 - 128) * 64 + (n2 - 128))%N)
               (decode r2)
        else None
      | _ => None
      end
    else if between 240 244 n0 then
      match r0 with
      | b1 :: b2 :: b3 :: r3 =>
        let n1 := Byte.to_N b1 in
        let n2 := Byte.to_N b2 in
        let n3 := Byte.to_N b3 in
        if second4 n0 n1 && cont n2 && cont n3
        then option_map
               (cons ((n0 - 240) * 262144 + (n1 - 128) * 4096
                      + (n2 - 128) * 64 + (n3 - 128))%N)
               (decode r3)
        else None
      | _ => None
      end
    else None
  end.

End Utf8.

(** ** Lines of a byte stream *)

Definition is_nl (b : byte) : bool := N.eqb (Byte.to_N b) 10.

(** [stream.readline()]: the bytes up to and including the first newline,
    or everything that is left; and the rest of the stream. *)
Fixpoint readline (stream : bytes) : bytes * bytes :=
  match stream with
  | [] => ([], [])
  | b :: r =>
    if is_nl b then ([b], r)
    else let (l, r') := readline r in (b :: l, r')
  end.

(** The iterator over [stream.readline] with the empty bytes object as its
    sentinel: call [readline] until it returns nothing.  Every call on a non-empty stream consumes a byte, so
    [S (length stream)] rounds reach the sentinel. *)
Fixpoint iter_readline (rounds : nat) (stream : bytes) : list bytes :=
  match rounds with
  | O => []
  | S k =>
    let (line, rest) := readline stream in
    match line with
    | [] => []
    | _ => line :: iter_readline k rest
    end
  end.

Definition readlines (stream : bytes) : list bytes :=
  iter_readline (S (List.length stream)) stream.

(** [line[:-1] if line.endswith(b"\n") else line] *)
Definition strip_newline (line : bytes) : bytes :=
  match rev line with
  | b :: r => if is_nl b then rev r else line
  | [] => line
  end.

(** ** [datetime.now().strftime("%Y%m%d_%H%M%S")] *)

Record datetime := {
  year : N; month : N; day : N;
  hour : N; minute : N; second : N
}.


Definition digit (n : N) : codepoint := (48 + n mod 10)%N.

Definition pad2 (n : N) : text := [digit (n / 10); digit n].

Definition pad4 (n : N) : text :=
  [digit (n / 1000); digit (n / 100); digit (n / 10); digit n].

Definition underscore : codepoint := 95%N.

Definition strftime (d : datetime) : text :=
  pad4 (year d) ++ pad2 (month d) ++ pad2 (day d) ++ underscore
    :: pad2 (hour d) ++ pad2 (minute d) ++ pad2 (second d).

(** ** The benchmark model, as far as the runner sees it *)

(** Modelled from the spec: [openforbc_benchmark.utils.Runnable] is not part
    of the sources at hand.  A task is an argument vector with an optional
    working directory and environment overrides; the runner reads [args]
    and hands the whole task to [Popen]. *)
Record Task := {
  args : list text;
  task_cwd : option text;
  task_env : list (text * text)
}.

(** Modelled from the spec: a preset is known to the runner by its name. *)
Record Preset := { name : text }.

(** Modelled from the spec: a benchmark is known by its identifier. *)
Record Benchmark := { get_id : text }.

(** ** Exceptions and outcomes *)

(** The exceptions the runner and the library calls it makes raise; all of
    them derive from [Exception].  The two exceptions of the runner keep
    the task and the cause or code their message is formatted from. *)
Inductive exn :=
| FileNotFoundError (path : text)
| FileExistsError (path : text)
| IsADirectoryError (path : text)
| NotADirectoryError (path : text)
| OSError (strerror : text)
| UnicodeDecodeError (object : bytes)
| Exit (code : Z)
| BenchmarkTaskError (task : Task) (cause : exn)
    (* f"Task {task} did not start because of {e}" *)
| BenchmarkTaskFailed (task : Task) (ret : Z).
    (* f"Task {task} failed with return code {ret}" *)

(** [BenchmarkTaskError] and [BenchmarkTaskFailed] derive from
    [BenchmarkRunException]. *)
Definition is_BenchmarkRunException (e : exn) : bool :=
  match e with
  | BenchmarkTaskError _ _ | BenchmarkTaskFailed _ _ => true
  | _ => false
  end.

Inductive result (A : Type) :=
| Return (a : A)
| Raise (e : exn).
Arguments Raise {A} e.

(** ** The world the runner acts on *)

(** Paths are compared as strings; a text file holds a [str], the
    encoding of the locale and the translation of newlines being left to
    the reader of the file. *)
Record FileSystem := {
  dirs : list text;
  files : list (text * text)
}.

Inductive payload :=
| PStr (s : text)
| PBytes (b : bytes).

(** What the live status sink receives: [spinner.write(x)] and
    [spinner.text = s]. *)
Inductive SpinnerEvent :=
| SpWrite (x : payload)
| SpText (s : text).

(** The runner's calls to its collaborators, in order: each completed call
    of the process runner with its outcome, and each stats extraction with
    the preset name and the log content handed over. *)
Inductive Event :=
| EvTask (task : Task) (outcome : result Z)
| EvStats (preset_name : text) (log : text).

Record World := {
  fs : FileSystem;
  getcwd : text;
  now : datetime;
  spinner : list SpinnerEvent;
  stdout : list text;
  stderr : list text;
  trace : list Event
}.

Definition set_fs (f : FileSystem) (w : World) : World :=
  {| fs := f; getcwd := getcwd w; now := now w; spinner := spinner w;
     stdout := stdout w; stderr := stderr w; trace := trace w |}.

Definition add_spinner (e : SpinnerEvent) (w : World) : World :=
  {| fs := fs w; getcwd := getcwd w; now := now w;
     spinner := spinner w ++ [e];
     stdout := stdout w; stderr := stderr w; trace := trace w |}.

Definition add_stdout (m : text) (w : World) : World :=
  {| fs := fs w; getcwd := getcwd w; now := now w; spinner := spinner w;
     stdout := stdout w ++ [m]; stderr := stderr w; trace := trace w |}.

Definition add_stderr (m : text) (w : World) : World :=
  {| fs := fs w; getcwd := getcwd w; now := now w; spinner := spinner w;
     stdout := stdout w; stderr := stderr w ++ [m]; trace := trace w |}.

Definition add_trace (e : Event) (w : World) : World :=
  {| fs := fs w; getcwd := getcwd w; now := now w; spinner := spinner w;
     stdout := stdout w; stderr := stderr w; trace := trace w ++ [e] |}.

(** *** Files and directories *)

Definition is_dir (f : FileSystem) (p : text) : bool :=
  existsb (text_eqb p) (dirs f).

Fixpoint lookup {V} (d : list (text * V)) (k : text) : option V :=
  match d with
  | [] => None
  | (k', v) :: r => if text_eqb k k' then Some v else lookup r k
  end.

Definition read_file (f : FileSystem) (p : text) : option text :=
  lookup (files f) p.

(** [os.path.exists] *)
Definition exists_ (f : FileSystem) (p : text) : bool :=
  is_dir f p ||
  match read_file f p with Some _ => true | None => false end.

Definition is_file (f : FileSystem) (p : text) : bool :=
  match read_file f p with Some _ => true | None => false end.

(** The directories above a path, nearest first: its [dirname], the
    [dirname] of that, and so on up to the root or to a bare name. *)
Fixpoint parents (fuel : nat) (p : text) : list text :=
  match fuel with
  | O => []
  | S n =>
    match PosixPath.dirname p with
    | [] => []
    | d => if text_eqb d p then [] else d :: parents n d
    end
  end.

(** A component of the path to [p] is a regular file: the system calls
    fail with [ENOTDIR], which Python raises as [NotADirectoryError]. *)
Definition not_a_directory (f : FileSystem) (p : text) : bool :=
  existsb (is_file f) (parents (List.length p) p).

(** The error for a path whose directory is not there: [ENOTDIR] when the
    way to it goes through a regular file, [ENOENT] otherwise. *)
Definition no_such_directory (f : FileSystem) (p : text) : exn :=
  if not_a_directory f p then NotADirectoryError p else FileNotFoundError p.

(** [os.mkdir]: the path must be new and the directory it is to be made in
    must exist (for a bare name that is the current directory). *)
Definition mkdir_fs (f : FileSystem) (p : text) : result FileSystem :=
  if exists_ f p then Raise (FileExistsError p)
  else if match PosixPath.dirname p with
          | [] => true
          | d => is_dir f d
          end
       then Return {| dirs := dirs f ++ [p]; files := files f |}
       else Raise (no_such_directory f p).

(** Why [open(p, "a")] fails, if it does: [p] is a directory, or the
    directory it names does not exist (a bare file name is looked up in
    the current directory). *)
Definition open_append_error (f : FileSystem) (p : text) : option exn :=
  if is_dir f p then Some (IsADirectoryError p)
  else match PosixPath.dirname p with
       | [] => None
       | d => if is_dir f d then None else Some (no_such_directory f p)
       end.

(** Python's [d[k] = v] on an insertion-ordered dict: an existing key keeps
    its place and gets the new value, a new key goes to the end. *)
Fixpoint dict_set {V} (d : list (text * V)) (k : text) (v : V)
  : list (text * V) :=
  match d with
  | [] => [(k, v)]
  | (k', v') :: r =>
    if text_eqb k k' then (k', v) :: r else (k', v') :: dict_set r k v
  end.

Definition keys {V} (d : list (text * V)) : list text := map fst d.

(** Appending [s] to file [p], which is created when absent. *)
Definition append_fs (f : FileSystem) (p s : text) : FileSystem :=
  {| dirs := dirs f;
     files := dict_set (files f) p
                (match read_file f p with Some c => c ++ s | None => s end) |}.

(** ** A state and exception monad *)

Definition M (A : Type) := World -> result A * World.

Definition ret {A} (a : A) : M A := fun w => (Return a, w).
Definition raise {A} (e : exn) : M A := fun w => (Raise e, w).

Definition bind {A B} (c : M A) (k : A -> M B) : M B :=
  fun w => match c w with
           | (Return a, w') => k a w'
           | (Raise e, w') => (Raise e, w')
           end.

Notation "x <- c ;; k" := (bind c (fun x => k))
  (at level 61, c at next level, right associativity).
Notation "c ;; k" := (bind c (fun _ => k))
  (at level 61, right associativity).

(** [try: c  except Exception as e: h e] *)
Definition try_except {A} (c : M A) (h : exn -> M A) : M A :=
  fun w => match c w with
           | (Return a, w') => (Return a, w')
           | (Raise e, w') => h e w'
           end.

Definition modify (f : World -> World) : M unit :=
  fun w => (Return tt, f w).

(** [for x in xs: body x] *)
Fixpoint for_each {X} (xs : list X) (body : X -> M unit) : M unit :=
  match xs with
  | [] => ret tt
  | x :: r => body x ;; for_each r body
  end.

(** A loop that rebinds one local variable. *)
Fixpoint for_fold {X S} (xs : list X) (s : S) (body : X -> S -> M S) : M S :=
  match xs with
  | [] => ret s
  | x :: r => s' <- body x s ;; for_fold r s' body
  end.

(** [spinner.write(x)] on a status sink that takes what it is given.  The
    sink of [yaspin] decodes a byte string as UTF-8 before it prints it, and
    raises [UnicodeDecodeError] itself for one that is not UTF-8. *)
Definition spinner_write (x : payload) : M unit := modify (add_spinner (SpWrite x)).
Definition spinner_set_text (s : text) : M unit := modify (add_spinner (SpText s)).

(** [typer.echo(message, err=err)] *)
Definition echo (message : text) (err : bool) : M unit :=
  modify (if err then add_stderr message else add_stdout message).

Definition mkdir (p : text) : M unit := fun w =>
  match mkdir_fs (fs w) p with
  | Return f => (Return tt, set_fs f w)
  | Raise e => (Raise e, w)
  end.

(** [open(p, "a")]: fails as [open_append_error] says, and otherwise leaves
    a (possibly empty) file behind. *)
Definition open_append (p : text) : M unit := fun w =>
  match open_append_error (fs w) p with
  | Some e => (Raise e, w)
  | None => (Return tt, set_fs (append_fs (fs w) p []) w)
  end.

Definition file_write (p s : text) : M unit :=
  modify (fun w => set_fs (append_fs (fs w) p s) w).

(** What a reader in text mode with universal newlines makes of the
    stored text: [\r\n] and a lone [\r] both come out as [\n]. *)
Fixpoint universal_newlines (s : text) : text :=
  match s with
  | [] => []
  | c :: r =>
    if N.eqb c carriage_return
    then newline
           :: match r with
              | d :: r' =>
                if N.eqb d newline then universal_newlines r'
                else universal_newlines r
              | [] => []
              end
    else c :: universal_newlines r
  end.

(** [open(p, "r")] and the content the reader gets: the file is opened in
    text mode, so what is read is the stored text with universal
    newlines. *)
Definition open_read (p : text) : M text := fun w =>
  if is_dir (fs w) p then (Raise (IsADirectoryError p), w)
  else match read_file (fs w) p with
       | Some c => (Return (universal_newlines c), w)
       | None => (Raise (no_such_directory (fs w) p), w)
       end.

(** [line.decode()] *)
Definition decode (line : bytes) : M text := fun w =>
  match Utf8.decode line with
  | Some s => (Return s, w)
  | None => (Raise (UnicodeDecodeError line), w)
  end.

(** ** The runner *)

(** What [Popen] on the task's arguments, with both output streams merged
    into one pipe, gives:
    an exception, or a child process, known to the runner by the bytes it
    writes to the merged pipe until it closes it and by its return code.
    What a child does to files by itself is not followed. *)
Inductive PopenResult :=
| Spawned (stdout_bytes : bytes) (returncode : Z)
| SpawnFailed (e : exn).

Definition quoted (s : text) : text := dquote :: s ++ [dquote].

Section Runner.

(** [dict[str, int | float]]: made and read by the benchmark model only. *)
Variable StatMapping : Type.

(** The operating system: what launching a task does, given the state of
    the file system at that moment.  Within one run no two launches see the
    same file system (every launch that lets the run go on has grown a log
    before the next one), so a function of the task and the file system can
    stand for any sequence of child processes. *)
Variable popen : Task -> FileSystem -> PopenResult.

(** Modelled from the spec: [openforbc_benchmark.benchmark.BenchmarkRun] is
    not part of the sources at hand.  It gives the benchmark, the setup
    tasks, the selected presets with their tasks in selection order, and
    the stats extractor, which the runner applies to the opened log and
    which is taken to return a mapping. *)
Record BenchmarkRun := {
  benchmark : Benchmark;
  setup : list Task;
  run : list (Preset * list Task);
  get_stats : text -> StatMapping
}.

Record CliBenchmarkRun := {
  benchmark_run : BenchmarkRun;
  log_dir : text
}.

Definition get_benchmark_log_dir (b : Benchmark) : M text := fun w =>
  let log_dir := PosixPath.join (getcwd w) [T "logs"] in
  if negb (exists_ (fs w) log_dir) then
    (echo (T "ERROR: Log directory " ++ quoted (T "logs")
             ++ T " not found in current directory") true ;;
     raise (Exit 1)) w
  else
    (Return (PosixPath.join (getcwd w) [T "logs"; get_id b]), w).

Definition __init__ (run : BenchmarkRun) : M CliBenchmarkRun :=
  base <- get_benchmark_log_dir (benchmark run) ;;
  stamp <- (fun w => (Return (strftime (now w)), w)) ;;
  let log_dir := PosixPath.join base [stamp] in
  let parent := PosixPath.dirname log_dir in
  parent_exists <- (fun w => (Return (exists_ (fs w) parent), w)) ;;
  (if negb parent_exists then mkdir parent else ret tt) ;;
  mkdir log_dir ;;
  ret {| benchmark_run := run; log_dir := log_dir |}.

Definition _get_log_path (self : CliBenchmarkRun) (identifier : text) : text :=
  PosixPath.join (log_dir self) [identifier ++ T ".log"].

(** [with self.spinner.hidden(): echo(message, err=err)] *)
Definition _print (message : text) (err : bool) : M unit :=
  echo message err.

Definition Popen (task : Task) : M (bytes * Z) := fun w =>
  match popen task (fs w) with
  | Spawned out rc => (Return (out, rc), w)
  | SpawnFailed e => (Raise e, w)
  end.

Definition _run_task (task : Task) (log_path : text) : M Z :=
  spinner_write (PStr (T "$ " ++ Shlex.join (args task))) ;;
  proc <- Popen task ;;
  open_append log_path ;;
  file_write log_path (T "$ " ++ Shlex.join (args task) ++ [newline]) ;;
  for_each (readlines (fst proc)) (fun line =>
    spinner_write (PBytes (strip_newline line)) ;;
    s <- decode line ;;
    file_write log_path s) ;;
  ret (snd proc).

(** Book-keeping, not in the source: note the outcome of a completed call
    of the process runner in [trace]. *)
Definition observed (task : Task) (c : M Z) : M Z := fun w =>
  match c w with
  | (r, w') => (r, add_trace (EvTask task r) w')
  end.

Definition _run_task_or_err (task : Task) (log_path err_message : text)
  : M unit :=
  ret_ <- try_except (observed task (_run_task task log_path))
            (fun e => _print err_message true ;;
                      raise (BenchmarkTaskError task e)) ;;
  if negb (Z.eqb ret_ 0) then
    _print err_message true ;;
    raise (BenchmarkTaskFailed task ret_)
  else ret tt.

Definition setup_err_message (benchmark_id : text) (task : Task) : text :=
  T "Benchmark " ++ quoted benchmark_id ++ T " setup command "
    ++ quoted (Shlex.join (args task)) ++ T " failed".

Definition preset_err_message (benchmark_id : text) (preset : Preset)
  (task : Task) : text :=
  T "Benchmark " ++ quoted benchmark_id ++ T " preset "
    ++ quoted (name preset) ++ T " command "
    ++ quoted (Shlex.join (args task)) ++ T " failed".

(** The body of [for task in self.benchmark_run.setup()]. *)
Definition setup_body (self : CliBenchmarkRun) (task : Task) : M unit :=
  let benchmark_id := get_id (benchmark (benchmark_run self)) in
  spinner_set_text (benchmark_id ++ T "(setup): " ++ Shlex.join (args task)) ;;
  _run_task_or_err task (_get_log_path self (T "setup"))
    (setup_err_message benchmark_id task).

(** The body of [for task in tasks]. *)
Definition preset_body (self : CliBenchmarkRun) (preset : Preset)
  (task : Task) : M unit :=
  let benchmark_id := get_id (benchmark (benchmark_run self)) in
  spinner_set_text
    (benchmark_id ++ T "(run:" ++ name preset ++ T "): "
       ++ Shlex.join (args task)) ;;
  _run_task_or_err task (_get_log_path self (T "run_" ++ name preset))
    (preset_err_message benchmark_id preset task).

(** The body of [for preset, tasks in self.benchmark_run.run()], with the
    local [stats] passed along; the extraction is noted in [trace]. *)
Definition run_body (self : CliBenchmarkRun) (entry : Preset * list Task)
  (stats : list (text * StatMapping)) : M (list (text * StatMapping)) :=
  let benchmark_id := get_id (benchmark (benchmark_run self)) in
  let preset := fst entry in
  let tasks := snd entry in
  spinner_write
    (PStr (T "Running " ++ quoted benchmark_id ++ T " preset "
             ++ quoted (name preset))) ;;
  for_each tasks (preset_body self preset) ;;
  output <- open_read (_get_log_path self (T "run_" ++ name preset)) ;;
  modify (add_trace (EvStats (name preset) output)) ;;
  ret (dict_set stats (name preset)
         (get_stats (benchmark_run self) output)).

Definition start (self : CliBenchmarkRun) : M (list (text * StatMapping)) :=
  let benchmark_id := get_id (benchmark (benchmark_run self)) in
  spinner_write
    (PStr (T "Running " ++ quoted benchmark_id ++ T " setup commands")) ;;
  for_each (setup (benchmark_run self)) (setup_body self) ;;
  for_fold (run (benchmark_run self)) [] (run_body self).

(** The first two statements under [with yaspin() as spinner] in
    [run_benchmark]: build the run, then start it. *)
Definition construct_and_start (run : BenchmarkRun)
  : M (list (text * StatMapping)) :=
  cli_run <- __init__ run ;;
  start cli_run.

End Runner.

(** ** Vocabulary for the statements *)

(** The separator [posixpath.join] puts after a path. *)
Definition sep_after (path : text) : text :=
  match path with
  | [] => []
  | _ => if endswith path slash then [] else [slash]
  end.

(** The identifiers [start] passes to [_get_log_path]. *)
Inductive phase_identifier : text -> Prop :=
| phase_setup : phase_identifier (T "setup")
| phase_run (preset_name : text) : phase_identifier (T "run_" ++ preset_name).

(** The exception [_run_task_or_err] raises for an outcome of the process
    runner, if any. *)
Definition failure_of (task : Task) (outcome : result Z) : option exn :=
  match outcome with
  | Return ret_ =>
    if negb (Z.eqb ret_ 0) then Some (BenchmarkTaskFailed task ret_) else None
  | Raise e => Some (BenchmarkTaskError task e)
  end.

(** The task an exception of the runner speaks about. *)
Definition exn_task (e : exn) : option Task :=
  match e with
  | BenchmarkTaskError task _ | BenchmarkTaskFailed task _ => Some task
  | _ => None
  end.

(** The line [_run_task] echoes: [f"$ {join(task.args)}"]. *)
Definition echoed (task : Task) : text := T "$ " ++ Shlex.join (args task).

(** What the status sink gets from one task that runs to its end. *)
Definition sink_lines (task : Task) (out : bytes) : list SpinnerEvent :=
  SpWrite (PStr (echoed task))
    :: map (fun line => SpWrite (PBytes (strip_newline line))) (readlines out).

(** The lines of a stream decoded one by one, as the loop of [_run_task]
    does, and put together. *)
Fixpoint decode_lines (lines : list bytes) : option text :=
  match lines with
  | [] => Some []
  | l :: r =>
    match Utf8.decode l with
    | Some s => option_map (app s) (decode_lines r)
    | None => None
    end
  end.

(** The first line of a stream that is not UTF-8, if any. *)
Fixpoint first_undecodable (lines : list bytes) : option bytes :=
  match lines with
  | [] => None
  | l :: r =>
    match Utf8.decode l with
    | Some _ => first_undecodable r
    | None => Some l
    end
  end.

(** The body of the loop of [_run_task] over the lines of the child's
    output. *)
Definition line_body (log_path : text) (line : bytes) : M unit :=
  spinner_write (PBytes (strip_newline line)) ;;
  s <- decode line ;;
  file_write log_path s.

(** What a step does to the file system when it only appends to the file
    [log_path]: directories and other files stay, the file grows. *)
Definition fs_frame (log_path : text) (f f' : FileSystem) : Prop :=
  dirs f' = dirs f
  /\ (forall p, p <> log_path -> read_file f' p = read_file f p)
  /\ (forall c, read_file f log_path = Some c ->
      exists extra, read_file f' log_path = Some (c ++ extra)).

(** What a step leaves alone when it only writes to the status sink and
    appends to the file [log_path]. *)
Definition frame (log_path : text) (w w' : World) : Prop :=
  trace w' = trace w /\ stderr w' = stderr w /\ stdout w' = stdout w
  /\ getcwd w' = getcwd w /\ now w' = now w
  /\ fs_frame log_path (fs w) (fs w').

Definition preserves {A} (P : World -> World -> Prop) (c : M A) : Prop :=
  forall w r w', c w = (r, w') -> P w w'.

Definition ok_event (task : Task) : Event := EvTask task (Return 0%Z).

Definition is_task_event (e : Event) : bool :=
  match e with EvTask _ _ => true | EvStats _ _ => false end.

(** *** How phases end *)

(** The two ways a loop over the tasks of a phase ends, with the events it
    adds to [trace] and the messages it adds to [stderr]: every task has
    been run with outcome 0; or the tasks before [task] have, and [task]
    has been run with an outcome that [_run_task_or_err] turns into the
    exception [x]. *)
Inductive phase_result (msg : Task -> text) (tasks : list Task)
  : result unit -> list Event -> list text -> Prop :=
| phase_completed :
    phase_result msg tasks (Return tt) (map ok_event tasks) []
| phase_aborted (done : list Task) (task : Task) (rest : list Task)
    (outcome : result Z) (x : exn) :
    tasks = done ++ task :: rest ->
    failure_of task outcome = Some x ->
    phase_result msg tasks (Raise x)
      (map ok_event done ++ [EvTask task outcome]) [msg task].

(** The events of a loop over presets that reaches its end, given the log
    handed to each extraction. *)
Fixpoint run_events (presets : list (Preset * list Task)) (logs : list text)
  : list Event :=
  match presets, logs with
  | (preset, tasks) :: ps, log :: ls =>
    map ok_event tasks ++ EvStats (name preset) log :: run_events ps ls
  | _, _ => []
  end.

(** The dictionary such a loop builds. *)
Fixpoint stats_after {V} (get : text -> V)
  (presets : list (Preset * list Task)) (logs : list text)
  (stats : list (text * V)) : list (text * V) :=
  match presets, logs with
  | (preset, _) :: ps, log :: ls =>
    stats_after get ps ls (dict_set stats (name preset) (get log))
  | _, _ => stats
  end.

(** The ways the loop over the presets ends: it reaches its end; a task of
    a preset fails; or the log of a preset without tasks cannot be read. *)
Inductive run_result {V} (get : text -> V) (msg : Preset -> Task -> text)
  : list (Preset * list Task) -> list (text * V) ->
    result (list (text * V)) -> list Event -> list text -> Prop :=
| run_completed (stats : list (text * V)) :
    run_result get msg [] stats (Return stats) [] []
| run_next (preset : Preset) (tasks : list Task)
    (rest : list (Preset * list Task)) (stats : list (text * V))
    (log : text) (r : result (list (text * V)))
    (evs : list Event) (errs : list text) :
    run_result get msg rest (dict_set stats (name preset) (get log))
      r evs errs ->
    run_result get msg ((preset, tasks) :: rest) stats r
      (map ok_event tasks ++ EvStats (name preset) log :: evs) errs
| run_aborted (preset : Preset) (tasks : list Task)
    (rest : list (Preset * list Task)) (stats : list (text * V))
    (x : exn) (evs : list Event) (errs : list text) :
    phase_result (msg preset) tasks (Raise x) evs errs ->
    run_result get msg ((preset, tasks) :: rest) stats (Raise x) evs errs
| run_unreadable (preset : Preset)
    (rest : list (Preset * list Task)) (stats : list (text * V)) (e : exn) :
    exn_task e = None ->
    run_result get msg ((preset, []) :: rest) stats (Raise e) [] [].

(** The ways [start] ends. *)
Inductive start_result {V} (get : text -> V)
  (setup_msg : Task -> text) (msg : Preset -> Task -> text)
  (setup_tasks : list Task) (presets : list (Preset * list Task))
  : result (list (text * V)) -> list Event -> list text -> Prop :=
| start_setup_aborted (x : exn) (evs : list Event) (errs : list text) :
    phase_result setup_msg setup_tasks (Raise x) evs errs ->
    start_result get setup_msg msg setup_tasks presets (Raise x) evs errs
| start_ran (r : result (list (text * V)))
    (evs : list Event) (errs : list text) :
    run_result get msg presets [] r evs errs ->
    start_result get setup_msg msg setup_tasks presets r
      (map ok_event setup_tasks ++ evs) errs.

(** The names of the selected presets, and all tasks of a run in the order
    [start] reaches them. *)
Definition preset_names (presets : list (Preset * list Task)) : list text :=
  map (fun entry => name (fst entry)) presets.

Definition all_tasks (setup_tasks : list Task)
  (presets : list (Preset * list Task)) : list Task :=
  setup_tasks ++ flat_map snd presets.

(** All files may have grown, none has shrunk or gone. *)
Definition fs_grows (f f' : FileSystem) : Prop :=
  dirs f' = dirs f
  /\ forall p c, read_file f p = Some c ->
      exists extra, read_file f' p = Some (c ++ extra).

(** The message [start] hands to [_run_task_or_err] for a task: the one of
    the setup phase, or the one of the preset the task belongs to. *)
Definition designated_message (benchmark_id : text)
  (setup_tasks : list Task) (presets : list (Preset * list Task))
  (task : Task) (m : text) : Prop :=
  (In task setup_tasks /\ m = setup_err_message benchmark_id task)
  \/ (exists preset tasks,
        In (preset, tasks) presets /\ In task tasks
        /\ m = preset_err_message benchmark_id preset task).

(** The exception for an outcome other than exit code 0. *)
Definition exception_for (task : Task) (outcome : result Z) : exn :=
  match outcome with
  | Raise e => BenchmarkTaskError task e
  | Return code => BenchmarkTaskFailed task code
  end.

(** The message of [get_benchmark_log_dir]. *)
Definition log_root_message : text :=
  T "ERROR: Log directory " ++ quoted (T "logs")
    ++ T " not found in current directory".

(** ** A concrete machine to run the model on *)

Module Scenario.

Definition clock1 : datetime :=
  {| year := 2024; month := 3; day := 9;
     hour := 7; minute := 5; second := 59 |}.


(** A working directory with a [logs] directory in it. *)
Definition world (d : datetime) : World :=
  {| fs := {| dirs := [T "/cwd"; T "/cwd/logs"]; files := [] |};
     getcwd := T "/cwd"; now := d;
     spinner := []; stdout := []; stderr := []; trace := [] |}.

(** The same without the [logs] directory. *)
Definition bare_world (d : datetime) : World :=
  {| fs := {| dirs := [T "/cwd"]; files := [] |};
     getcwd := T "/cwd"; now := d;
     spinner := []; stdout := []; stderr := []; trace := [] |}.

Definition task (words : list string) : Task :=
  {| args := map T words; task_cwd := None; task_env := [] |}.

Definition ascii_bytes (s : text) : bytes :=
  map (fun n => match Byte.of_N n with Some b => b | None => x00 end) s.

(** A small operating system: [echo] prints its arguments, [false] exits
    with 1, [latin1] prints the single byte [0xE9] and exits with 0, and
    nothing else can be found. *)
Definition sh (t : Task) (_ : FileSystem) : PopenResult :=
  match args t with
  | cmd :: rest =>
    if text_eqb cmd (T "echo")
    then Spawned (ascii_bytes (Shlex.join_spaces rest) ++ [x0a]) 0
    else if text_eqb cmd (T "false") then Spawned [] 1
    else if text_eqb cmd (T "latin1") then Spawned [xe9; x0a] 0
    else SpawnFailed (FileNotFoundError cmd)
  | [] => SpawnFailed (OSError (T "empty command"))
  end.

(** Stats as a list of named integers; the extractor counts the characters
    of the log. *)
Definition Stats : Type := list (text * Z).

Definition count_chars (log : text) : Stats :=
  [(T "chars", Z.of_nat (List.length log))].

Definition bench (setup_tasks : list Task)
  (presets : list (Preset * list Task)) : BenchmarkRun Stats :=
  {| benchmark := {| get_id := T "bench1" |};
     setup := setup_tasks; run := presets; get_stats := count_chars |}.

Definition A : Task := task ["echo"; "setup-ok"]%string.
Definition B : Task := task ["false"]%string.
Definition C : Task := task ["echo"; "run-ok"]%string.

Definition Latin1 : Task := task ["latin1"]%string.
Definition Missing : Task := task ["nosuch"]%string.
Definition p1 : Preset := {| name := T "p1" |}.
Definition p2 : Preset := {| name := T "p2" |}.

(** Another preset that calls itself [p1]. *)
Definition p1_again : Preset := {| name := T "p1" |}.

(** What the constructor makes of a run in [world clock1]. *)
Definition constructed (b : BenchmarkRun Stats) : CliBenchmarkRun Stats :=
  {| benchmark_run := b;
     log_dir := T "/cwd/logs/bench1/20240309_070559" |}.

(** [world clock1] just after the constructor. *)
Definition ready : World :=
  {| fs := {| dirs := [T "/cwd"; T "/cwd/logs"; T "/cwd/logs/bench1";
                       T "/cwd/logs/bench1/20240309_070559"];
              files := [] |};
     getcwd := T "/cwd"; now := clock1;
     spinner := []; stdout := []; stderr := []; trace := [] |}.

Definition setup_log : text :=
  T "/cwd/logs/bench1/20240309_070559/setup.log".

Definition run_A_C : BenchmarkRun Stats := bench [A] [(p1, [C])].
Definition run_AB_C : BenchmarkRun Stats := bench [A; B] [(p1, [C])].
Definition run_twice : BenchmarkRun Stats :=
  bench [A] [(p1, [C]); (p2, [C]); (p1_again, [A])].

End Scenario.

(** * More of the program *)

Unset Implicit Arguments.

(** A byte string without a newline byte. *)
Definition no_newline (bs : bytes) : bool :=
  forallb (fun b => negb (is_nl b)) bs.

(** The event of a call that failed, if there is one. *)
Definition failed_event (failed : option (Task * result Z)) : list Event :=
  match failed with
  | Some (task, outcome) => [EvTask task outcome]
  | None => []
  end.

Definition failed_task (failed : option (Task * result Z)) : list Task :=
  match failed with
  | Some (task, _) => [task]
  | None => []
  end.

(** What a run has gone through: the tasks [done] with outcome 0, then
    possibly one failed call, out of the tasks [todo] in their order. *)
Definition in_order (todo : list Task) (evs : list Event)
  (failed : option (Task * result Z)) (done rest : list Task) : Prop :=
  filter is_task_event evs = map ok_event done ++ failed_event failed
  /\ todo = done ++ failed_task failed ++ rest.

(** What a step leaves alone when it writes neither to [stdout] nor to the
    clock and the working directory. *)
Definition quiet (w w' : World) : Prop :=
  stdout w' = stdout w /\ getcwd w' = getcwd w /\ now w' = now w.

(** What one task that exits with 0 adds to its log: the echoed command,
    a newline, and its output as text. *)
Definition section_of (popen : Task -> FileSystem -> PopenResult)
  (task : Task) (s : text) : Prop :=
  exists f out txt,
    popen task f = Spawned out 0
    /\ Utf8.decode out = Some txt
    /\ s = echoed task ++ newline :: txt.

(** The content of a file, nothing for a file that is not there. *)
Definition content (f : FileSystem) (p : text) : text :=
  match read_file f p with
  | Some c => c
  | None => []
  end.


Section RunDirectory.

Variable StatMapping : Type.

(** The directory [__init__] is about to make. *)
Definition run_dir (run : BenchmarkRun StatMapping) (w : World) : text :=
  PosixPath.join
    (PosixPath.join (getcwd w) [T "logs"; get_id (benchmark run)])
    [strftime (now w)].

End RunDirectory.

(** ** The commands *)

Definition colon : codepoint := 58%N.

(** [s.split(c)] for a one-character separator [c]: never an empty list. *)
Fixpoint split_on (c : codepoint) (s : text) : list text :=
  match s with
  | [] => [[]]
  | x :: r =>
    if N.eqb x c then [] :: split_on c r
    else match split_on c r with
         | h :: t => (x :: h) :: t
         | [] => [[x]]
         end
  end.

(** [c.join(parts)] *)
Fixpoint join_with (c : codepoint) (parts : list text) : text :=
  match parts with
  | [] => []
  | [p] => p
  | p :: r => p ++ c :: join_with c r
  end.

(** [str(n)] for an [int]. *)
Definition str_int (z : Z) : text :=
  T (DecimalString.NilZero.string_of_int (Z.to_int z)).

(** [try: c  except cls as e: h e] for a class of exceptions [cls]. *)
Definition try_except_when {A} (cls : exn -> bool) (c : M A)
  (h : exn -> M A) : M A :=
  fun w => match c w with
           | (Return a, w') => (Return a, w')
           | (Raise e, w') => if cls e then h e w' else (Raise e, w')
           end.

Section Commands.

(** The values of the stats: [int | float]. *)
Variable V : Type.

Variable popen : Task -> FileSystem -> PopenResult.

(** [str(task)] and [str(e)] for an exception of the library, as the
    messages of the two exceptions of the runner are formatted from them. *)
Variable str_task : Task -> text.
Variable str_exn : exn -> text.

(** [json.dumps] and [tabulate.tabulate] on the values printed here. *)
Variable dumps : list (text * list (text * V)) -> text.
Variable tabulate : list (text * text * V) -> list text -> text.

(** [openforbc_benchmark.benchmark.Benchmark] is not part of the sources
    at hand: it is taken as the operations the commands call on it, which
    are its identifier, [get_presets], [get_preset], where [None] is the
    answer for an unknown name, and [run], which makes the run object for a
    list of presets. *)
Record BenchmarkModel := {
  model_benchmark : Benchmark;
  get_presets : list Preset;
  get_preset : text -> option Preset;
  make_run : list Preset -> BenchmarkRun (list (text * V))
}.

(** [os.listdir] on a path: the names in the directory, or nothing when
    the call raises [FileNotFoundError] or [NotADirectoryError], the two
    errors [search_benchmarks] catches. *)
Variable listdir : FileSystem -> text -> option (list text).

(** [Benchmark.from_definition_file], taken to return a benchmark for
    every definition file that exists. *)
Variable from_definition_file : text -> BenchmarkModel.

(** [state["search_path"]] *)
Variable search_path : text.

Definition definition_file (path dir : text) : text :=
  PosixPath.join path [dir; T "benchmark.json"].

(** What the inner loop of [search_benchmarks] yields for one directory of
    the search path. *)
Definition benchmarks_in (f : FileSystem) (path : text)
  (entries : list text) : list BenchmarkModel :=
  flat_map (fun dir =>
              if exists_ f (definition_file path dir)
              then [from_definition_file (definition_file path dir)]
              else []) entries.

Definition search_dirs : list text :=
  map (fun x => PosixPath.join x [T "benchmarks"])
      (split_on colon search_path).

Definition not_a_directory_message (path : text) : text :=
  T "ERROR: Path " ++ quoted path ++ T " in search path is not a directory".

(** One round of the outer loop of [search_benchmarks]. *)
Definition search_dir (path : text) : M (list BenchmarkModel) := fun w =>
  match listdir (fs w) path with
  | Some entries => (Return (benchmarks_in (fs w) path entries), w)
  | None => (echo (not_a_directory_message path) true ;; ret []) w
  end.

(** The generator [search_benchmarks], run to its end. *)
Definition search_benchmarks : M (list BenchmarkModel) :=
  for_fold search_dirs []
    (fun path found => more <- search_dir path ;; ret (found ++ more)).

Definition has_id (id : text) (x : BenchmarkModel) : bool :=
  text_eqb (get_id (model_benchmark x)) id.

(** [next((x for x in search_benchmarks() if x.get_id() == id), None)]: the
    generator is run up to the first benchmark with the identifier, and no
    further. *)
Fixpoint find_in (paths : list text) (id : text)
  : M (option BenchmarkModel) :=
  match paths with
  | [] => ret None
  | path :: rest =>
    found <- search_dir path ;;
    match find (has_id id) found with
    | Some x => ret (Some x)
    | None => find_in rest id
    end
  end.

Definition find_benchmark (id : text) : M (option BenchmarkModel) :=
  find_in search_dirs id.

(** The rows [print_stats] hands to [tabulate]. *)
Definition stats_table (stats : list (text * list (text * V)))
  : list (text * text * V) :=
  flat_map (fun entry =>
              map (fun item => (fst entry, fst item, snd item)) (snd entry))
           stats.

Definition print_stats (stats : list (text * list (text * V)))
  (json : bool) : M unit :=
  if json then echo (dumps stats) false
  else echo (tabulate (stats_table stats)
               [T "Preset"; T "Stat"; T "Value"]) false.

(** [str(e)] *)
Definition exn_str (e : exn) : text :=
  match e with
  | BenchmarkTaskError task cause =>
    T "Task " ++ str_task task ++ T " did not start because of "
      ++ str_exn cause
  | BenchmarkTaskFailed task ret_ =>
    T "Task " ++ str_task task ++ T " failed with return code "
      ++ str_int ret_
  | _ => str_exn e
  end.

Definition benchmark_not_found (benchmark_id : text) : text :=
  T "ERROR: Benchmark " ++ quoted benchmark_id
    ++ T " not found in search path".

Definition preset_not_found (name benchmark_id : text) : text :=
  T "ERROR: Preset " ++ quoted name ++ T " not found in benchmark "
    ++ quoted benchmark_id.

Definition benchmark_failed (benchmark_id : text) : text :=
  T "ERROR: Benchmark " ++ quoted benchmark_id ++ T " failed".

(** The loop of [run_benchmark] over the preset names. *)
Definition lookup_presets (benchmark : BenchmarkModel)
  (benchmark_id : text) (preset_names : list text) : M (list Preset) :=
  for_fold preset_names []
    (fun name presets =>
       match get_preset benchmark name with
       | None =>
         echo (preset_not_found name benchmark_id) false ;;
         raise (Exit 1)
       | Some preset => ret (presets ++ [preset])
       end).

Definition run_benchmark (benchmark_id : text) (preset_names : list text)
  (table : bool) : M unit :=
  benchmark <- find_benchmark benchmark_id ;;
  match benchmark with
  | None =>
    echo (benchmark_not_found benchmark_id) false ;;
    raise (Exit 1)
  | Some benchmark =>
    presets <- lookup_presets benchmark benchmark_id preset_names ;;
    let run := make_run benchmark presets in
    cli_run <- __init__ run ;;
    stats <- try_except_when is_BenchmarkRunException
               (start popen cli_run)
               (fun e =>
                  echo (exn_str e) false ;;
                  echo (benchmark_failed benchmark_id) false ;;
                  raise (Exit 1)) ;;
    print_stats stats (negb table)
  end.

Definition list_presets (benchmark_id : text) : M unit :=
  benchmark <- find_benchmark benchmark_id ;;
  match benchmark with
  | None =>
    echo (benchmark_not_found benchmark_id) false ;;
    raise (Exit 1)
  | Some benchmark =>
    echo (join_with newline (map name (get_presets benchmark))) false
  end.

End Commands.

(** [stderr] after several messages. *)
Definition add_stderrs (ms : list text) (w : World) : World :=
  {| fs := fs w; getcwd := getcwd w; now := now w; spinner := spinner w;
     stdout := stdout w; stderr := stderr w ++ ms; trace := trace w |}.

Section Discovered.

Variable V : Type.
Variable listdir : FileSystem -> text -> option (list text).
Variable from_definition_file : text -> BenchmarkModel V.

(** The benchmarks under some directories, in the order the generator
    yields them. *)
Definition found_in (f : FileSystem) (paths : list text)
  : list (BenchmarkModel V) :=
  flat_map (fun path =>
              match listdir f path with
              | Some entries =>
                benchmarks_in V from_definition_file f path entries
              | None => []
              end) paths.

(** The messages for the directories that cannot be listed. *)
Definition complaints (f : FileSystem) (paths : list text) : list text :=
  flat_map (fun path =>
              match listdir f path with
              | Some _ => []
              | None => [not_a_directory_message path]
              end) paths.

(** The directories the generator goes through until it has yielded a
    benchmark with the identifier. *)
Fixpoint visited (f : FileSystem) (paths : list text) (id : text)
  : list text :=
  match paths with
  | [] => []
  | path :: rest =>
    match find (has_id V id) (found_in f [path]) with
    | Some _ => [path]
    | None => path :: visited f rest id
    end
  end.

End Discovered.

(** The exceptions a computation can end with are all in [P]. *)
Definition raises_only {A} (P : exn -> Prop) (c : M A) : Prop :=
  forall w e w', c w = (Raise e, w') -> P e.

(** The errors of [os.mkdir] and [open]. *)
Definition is_file_error (e : exn) : bool :=
  match e with
  | FileNotFoundError _ | FileExistsError _ | IsADirectoryError _
  | NotADirectoryError _ => true
  | _ => false
  end.

(** The line [print_stats] prints. *)
Definition stats_line {V} (dumps : list (text * list (text * V)) -> text)
  (tabulate : list (text * text * V) -> list text -> text)
  (table : bool) (stats : list (text * list (text * V))) : text :=
  if table
  then tabulate (stats_table V stats) [T "Preset"; T "Stat"; T "Value"]
  else dumps stats.

(** ** A second scenario: a search path and two benchmarks *)

Module Shelf.

Import Scenario.

(** A search path of two entries.  [/none] has no [benchmarks] directory;
    [/opt/benchmarks] holds the benchmarks [bench1] and [bench2] and a
    directory [notes] without a definition file. *)
Definition search_path : text := T "/none:/opt".

Definition disk : FileSystem :=
  {| dirs := [T "/cwd"; T "/cwd/logs"; T "/opt"; T "/opt/benchmarks";
              T "/opt/benchmarks/notes"; T "/opt/benchmarks/bench1";
              T "/opt/benchmarks/bench2"];
     files := [(T "/opt/benchmarks/bench1/benchmark.json", T "{}");
               (T "/opt/benchmarks/bench2/benchmark.json", T "{}")] |}.

Definition listdir (f : FileSystem) (path : text) : option (list text) :=
  if text_eqb path (T "/opt/benchmarks") && is_dir f path
  then Some [T "notes"; T "bench1"; T "bench2"]
  else None.

Definition shell : World :=
  {| fs := disk; getcwd := T "/cwd"; now := clock1;
     spinner := []; stdout := []; stderr := []; trace := [] |}.

Definition preset_named (presets : list Preset) (n : text) : option Preset :=
  find (fun p => text_eqb (name p) n) presets.

(** [bench1] has the presets [p1] and [p2], each with the one task [C],
    and the setup task [A]. *)
Definition bench1 : BenchmarkModel Z :=
  {| model_benchmark := {| get_id := T "bench1" |};
     get_presets := [p1; p2];
     get_preset := preset_named [p1; p2];
     make_run := fun presets => bench [A] (map (fun p => (p, [C])) presets) |}.

(** [bench2] has the preset [p1] and a setup task that fails. *)
Definition bench2 : BenchmarkModel Z :=
  {| model_benchmark := {| get_id := T "bench2" |};
     get_presets := [p1];
     get_preset := preset_named [p1];
     make_run := fun presets =>
       {| benchmark := {| get_id := T "bench2" |};
          setup := [A; B];
          run := map (fun p => (p, [C])) presets;
          get_stats := count_chars |} |}.

Definition from_definition_file (path : text) : BenchmarkModel Z :=
  if text_eqb path (T "/opt/benchmarks/bench1/benchmark.json")
  then bench1 else bench2.

Definition str_task (t : Task) : text := Shlex.join (args t).

Definition str_exn (e : exn) : text :=
  match e with
  | FileNotFoundError p => T "No such file or directory: " ++ p
  | _ => T "error"
  end.

(** Stand-ins for [json.dumps] and [tabulate]: the keys, and the headers
    followed by the rows' first two columns. *)
Definition dumps (stats : list (text * list (text * Z))) : text :=
  join_with 44%N (map fst stats).

Definition tabulate (rows : list (text * text * Z)) (headers : list text)
  : text :=
  join_with newline
    (join_with 32%N headers
       :: map (fun row => fst (fst row) ++ 32%N :: snd (fst row)) rows).

Definition run_command (id : text) (names : list text) (table : bool)
  : M unit :=
  run_benchmark Z sh str_task str_exn dumps tabulate listdir
    from_definition_file search_path id names table.



(** A child that ends its first line with a carriage return and a newline:
    it prints [a\r\nb\n] and exits with 0. *)
Definition dos (_ : Task) (_ : FileSystem) : PopenResult :=
  Spawned [x61; x0d; x0a; x62; x0a] 0.

(** A run with nothing but a setup phase, and one with two presets. *)
Definition run_setup_only : BenchmarkRun Stats := bench [A] [].
Definition run_two : BenchmarkRun Stats := bench [A] [(p1, [C]); (p2, [A; C])].

(** [shell] with the directory of a run of [bench1] that began in the
    second the clock shows. *)
Definition shell_again : World :=
  {| fs := {| dirs := dirs disk ++ [T "/cwd/logs/bench1";
                                    T "/cwd/logs/bench1/20240309_070559"];
              files := files disk |};
     getcwd := T "/cwd"; now := clock1;
     spinner := []; stdout := []; stderr := []; trace := [] |}.


(** A working directory where [logs/bench1] is a regular file, and one
    where [logs] is. *)
Definition file_for_bench1 : World :=
  {| fs := {| dirs := [T "/cwd"; T "/cwd/logs"];
              files := [(T "/cwd/logs/bench1", [])] |};
     getcwd := T "/cwd"; now := clock1;
     spinner := []; stdout := []; stderr := []; trace := [] |}.

Definition file_for_logs : World :=
  {| fs := {| dirs := [T "/cwd"]; files := [(T "/cwd/logs", [])] |};
     getcwd := T "/cwd"; now := clock1;
     spinner := []; stdout := []; stderr := []; trace := [] |}.

End Shelf.

Set Implicit Arguments.

(** * Properties *)

Unset Implicit Arguments.

(** ** Paths *)

Lemma endswith_app (a b : text) (c : codepoint) :
  b <> [] -> endswith (a ++ b) c = endswith b c.
Proof.
  intros Hb. induction a as [|x a IH]; [reflexivity|].
  simpl. rewrite IH.
  destruct (a ++ b) eqn:E; [|reflexivity].
  apply app_eq_nil in E. destruct E. contradiction.
Qed.

Lemma join2_relative (path b : text) :
  startswith b slash = false ->
  PosixPath.join2 path b = path ++ sep_after path ++ b.
Proof.
  intros Hb. unfold PosixPath.join2, sep_after. rewrite Hb.
  destruct path as [|x p]; [reflexivity|].
  destruct (endswith (x :: p) slash); reflexivity.
Qed.

Lemma join2_plain (path b : text) :
  path <> [] -> endswith path slash = false -> startswith b slash = false ->
  PosixPath.join2 path b = path ++ slash :: b.
Proof.
  intros Hp He Hb. rewrite join2_relative by assumption.
  unfold sep_after. rewrite He. destruct path; [contradiction|reflexivity].
Qed.

Lemma digit_range (n : N) : (48 <= digit n <= 57)%N.
Proof.
  unfold digit. pose proof (N.mod_lt n 10 ltac:(lia)) as H.
  generalize dependent (n mod 10)%N. intros. lia.
Qed.




Lemma strftime_length (d : datetime) : List.length (strftime d) = 15%nat.
Proof. reflexivity. Qed.

Lemma strftime_relative (d : datetime) : startswith (strftime d) slash = false.
Proof.
  unfold strftime, pad4. cbn [app startswith].
  pose proof (digit_range (year d / 1000)) as R.
  apply N.eqb_neq. unfold slash, digit in *. lia.
Qed.

Lemma strftime_no_trailing_slash (d : datetime) :
  endswith (strftime d) slash = false.
Proof.
  unfold strftime, pad4, pad2. cbn [app endswith].
  pose proof (digit_range (second d)) as R.
  apply N.eqb_neq. unfold slash, digit in *. lia.
Qed.

Lemma stamped_dir_shape (base : text) (d : datetime) :
  PosixPath.join base [strftime d] = base ++ sep_after base ++ strftime d.
Proof.
  unfold PosixPath.join. simpl.
  apply join2_relative, strftime_relative.
Qed.

Lemma stamped_dir_plain (base : text) (d : datetime) :
  let dir := PosixPath.join base [strftime d] in
  dir <> [] /\ endswith dir slash = false.
Proof.
  cbv zeta. rewrite stamped_dir_shape. split.
  - intros E. apply (f_equal (@List.length _)) in E.
    rewrite !length_app, strftime_length in E. simpl in E. lia.
  - rewrite app_assoc, endswith_app.
    + apply strftime_no_trailing_slash.
    + intros E. apply (f_equal (@List.length _)) in E. discriminate E.
Qed.

Lemma phase_identifier_relative (identifier : text) :
  phase_identifier identifier ->
  startswith (identifier ++ T ".log") slash = false.
Proof. intros [|n]; reflexivity. Qed.





(** ** Construction of a run *)

Section Construction.

Variable StatMapping : Type.

Lemma init_missing_root (run : BenchmarkRun StatMapping) (w : World) :
  exists_ (fs w) (PosixPath.join (getcwd w) [T "logs"]) = false ->
  __init__ run w = (Raise (Exit 1), add_stderr log_root_message w).
Proof.
  intros H. unfold __init__, bind, get_benchmark_log_dir.
  rewrite H. reflexivity.
Qed.

Lemma init_returns (run : BenchmarkRun StatMapping) (w w' : World)
  (self : CliBenchmarkRun StatMapping) :
  __init__ run w = (Return self, w') ->
  exists_ (fs w) (PosixPath.join (getcwd w) [T "logs"]) = true
  /\ benchmark_run self = run
  /\ log_dir self =
       PosixPath.join
         (PosixPath.join (getcwd w) [T "logs"; get_id (benchmark run)])
         [strftime (now w)]
  /\ trace w' = trace w.
Proof.
  unfold __init__, bind, get_benchmark_log_dir.
  destruct (exists_ (fs w) (PosixPath.join (getcwd w) [T "logs"])) eqn:E;
    [|discriminate].
  cbn [negb].
  set (dir := PosixPath.join _ [strftime (now w)]).
  destruct (exists_ (fs w) (PosixPath.dirname dir)); cbn [negb].
  - unfold ret, mkdir.
    destruct (mkdir_fs (fs w) dir); [|discriminate].
    intros H. injection H as <- <-. repeat split; reflexivity.
  - unfold ret, mkdir.
    destruct (mkdir_fs (fs w) (PosixPath.dirname dir)); [|discriminate].
    cbn [fs set_fs].
    destruct (mkdir_fs _ dir); [|discriminate].
    intros H. injection H as <- <-. repeat split; reflexivity.
Qed.

Lemma log_path_shape
  (run : BenchmarkRun StatMapping) (w w' : World)
  (self : CliBenchmarkRun StatMapping) (identifier : text) :
  __init__ run w = (Return self, w') ->
  phase_identifier identifier ->
  _get_log_path self identifier
    = log_dir self ++ slash :: identifier ++ T ".log".
Proof.
  intros Hinit Hid.
  apply init_returns in Hinit. destruct Hinit as (_ & _ & Hdir & _).
  unfold _get_log_path, PosixPath.join at 1. cbn [fold_left].
  rewrite Hdir.
  destruct (stamped_dir_plain
              (PosixPath.join (getcwd w) [T "logs"; get_id (benchmark run)])
              (now w)) as [Hne Hend].
  apply join2_plain; try assumption.
  apply phase_identifier_relative, Hid.
Qed.

(** C7.  The log path of a phase is a function of the run's log directory
    and the phase identifier alone: for a run built by [__init__] and a phase
    identifier ([setup] or [run_<preset name>]) it is the log directory, a
    slash, the identifier and [.log]; any run object with the same log
    directory gives the same path for the same identifier. *)
Theorem get_log_path_is_dir_slash_id_log
  (run : BenchmarkRun StatMapping) (w w' : World)
  (self : CliBenchmarkRun StatMapping) (identifier : text) :
  __init__ run w = (Return self, w') ->
  phase_identifier identifier ->
  _get_log_path self identifier
    = log_dir self ++ slash :: identifier ++ T ".log"
  /\ forall other : CliBenchmarkRun StatMapping,
       log_dir other = log_dir self ->
       _get_log_path other identifier = _get_log_path self identifier.
Proof.
  intros Hinit Hid. split.
  - exact (log_path_shape _ _ _ _ _ Hinit Hid).
  - intros other E. unfold _get_log_path. rewrite E. reflexivity.
Qed.


End Construction.

(** ** Dictionaries and files *)

Lemma text_eqb_refl (a : text) : text_eqb a a = true.
Proof. unfold text_eqb. destruct (text_eq_dec a a); congruence. Qed.

Lemma text_eqb_eq (a b : text) : text_eqb a b = true <-> a = b.
Proof.
  unfold text_eqb. destruct (text_eq_dec a b); split; congruence.
Qed.

Lemma text_eqb_neq (a b : text) : a <> b -> text_eqb a b = false.
Proof. unfold text_eqb. destruct (text_eq_dec a b); congruence. Qed.

Lemma lookup_dict_set_same {V} (d : list (text * V)) (k : text) (v : V) :
  lookup (dict_set d k v) k = Some v.
Proof.
  induction d as [|[k' v'] d IH]; simpl.
  - rewrite text_eqb_refl. reflexivity.
  - destruct (text_eqb k k') eqn:E; simpl; rewrite E; [reflexivity|exact IH].
Qed.

Lemma lookup_dict_set_other {V} (d : list (text * V)) (k q : text) (v : V) :
  q <> k -> lookup (dict_set d k v) q = lookup d q.
Proof.
  intros N. induction d as [|[k' v'] d IH]; simpl.
  - rewrite (text_eqb_neq _ _ N). reflexivity.
  - destruct (text_eqb k k') eqn:E; simpl.
    + apply text_eqb_eq in E. subst k'.
      rewrite (text_eqb_neq _ _ N). reflexivity.
    + rewrite IH. reflexivity.
Qed.

Lemma dict_set_twice {V} (d : list (text * V)) (k : text) (v1 v2 : V) :
  dict_set (dict_set d k v1) k v2 = dict_set d k v2.
Proof.
  induction d as [|[k' v'] d IH]; simpl.
  - rewrite text_eqb_refl. reflexivity.
  - destruct (text_eqb k k') eqn:E; simpl; rewrite E; [reflexivity|].
    rewrite IH. reflexivity.
Qed.

Lemma keys_dict_set {V} (d : list (text * V)) (k x : text) (v : V) :
  In x (keys (dict_set d k v)) <-> x = k \/ In x (keys d).
Proof.
  unfold keys. induction d as [|[k' v'] d IH]; simpl.
  - intuition (auto; congruence).
  - destruct (text_eqb k k') eqn:E; simpl.
    + apply text_eqb_eq in E. subst k'. intuition (auto; congruence).
    + rewrite IH. intuition (auto; congruence).
Qed.

(** A dictionary filled by [dict_set] alone never holds a key twice. *)
Lemma keys_dict_set_NoDup {V} (d : list (text * V)) (k : text) (v : V) :
  NoDup (keys d) -> NoDup (keys (dict_set d k v)).
Proof.
  unfold keys. induction d as [|[k' v'] d IH]; simpl; intros H.
  - constructor; [intros []|constructor].
  - inversion H as [|? ? Hnot Hrest]; subst.
    destruct (text_eqb k k') eqn:E; simpl.
    + constructor; assumption.
    + constructor; [|apply IH; assumption].
      intros Hin. apply (keys_dict_set d k k' v) in Hin.
      destruct Hin as [->|Hin]; [|contradiction].
      rewrite text_eqb_refl in E. discriminate.
Qed.

Lemma read_append_same (f : FileSystem) (p s : text) :
  read_file (append_fs f p s) p
  = Some (match read_file f p with Some c => c ++ s | None => s end).
Proof. unfold read_file, append_fs. simpl. apply lookup_dict_set_same. Qed.

Lemma read_append_other (f : FileSystem) (p q s : text) :
  q <> p -> read_file (append_fs f p s) q = read_file f q.
Proof.
  intros N. unfold read_file, append_fs. simpl.
  apply lookup_dict_set_other, N.
Qed.

Lemma append_append (f : FileSystem) (p a b : text) :
  append_fs (append_fs f p a) p b = append_fs f p (a ++ b).
Proof.
  unfold append_fs at 1. rewrite read_append_same.
  unfold append_fs. simpl. rewrite dict_set_twice.
  destruct (read_file f p); [rewrite app_assoc|]; reflexivity.
Qed.

Lemma is_dir_append (f : FileSystem) (p q s : text) :
  is_dir (append_fs f p s) q = is_dir f q.
Proof. reflexivity. Qed.

(** ** What a step leaves alone *)

Lemma fs_frame_refl (lp : text) (f : FileSystem) : fs_frame lp f f.
Proof.
  unfold fs_frame. repeat split; auto.
  intros c H. exists []. rewrite app_nil_r. exact H.
Qed.

Lemma fs_frame_trans (lp : text) (f1 f2 f3 : FileSystem) :
  fs_frame lp f1 f2 -> fs_frame lp f2 f3 -> fs_frame lp f1 f3.
Proof.
  unfold fs_frame. intros (D1 & O1 & G1) (D2 & O2 & G2). repeat split.
  - congruence.
  - intros p N. rewrite O2, O1; auto.
  - intros c H. destruct (G1 c H) as (x & Hx).
    destruct (G2 _ Hx) as (y & Hy). exists (x ++ y).
    rewrite app_assoc. exact Hy.
Qed.

Lemma fs_frame_append (lp s : text) (f : FileSystem) :
  fs_frame lp f (append_fs f lp s).
Proof.
  unfold fs_frame. repeat split.
  - intros p N. apply read_append_other, N.
  - intros c H. exists s. rewrite read_append_same, H. reflexivity.
Qed.

Lemma fs_frame_is_dir (lp q : text) (f f' : FileSystem) :
  fs_frame lp f f' -> is_dir f' q = is_dir f q.
Proof. intros (D & _). unfold is_dir. rewrite D. reflexivity. Qed.

Lemma fs_frame_keeps (lp : text) (f f' : FileSystem) :
  fs_frame lp f f' -> read_file f lp <> None -> read_file f' lp <> None.
Proof.
  intros (_ & _ & G) H. destruct (read_file f lp) as [c|] eqn:E;
    [|contradiction].
  destruct (G c eq_refl) as (x & ->). discriminate.
Qed.

Ltac frame_fields :=
  unfold frame; repeat (split; [solve [auto | congruence]|]).

Lemma frame_refl (lp : text) (w : World) : frame lp w w.
Proof. frame_fields. apply fs_frame_refl. Qed.

Lemma frame_trans (lp : text) (w1 w2 w3 : World) :
  frame lp w1 w2 -> frame lp w2 w3 -> frame lp w1 w3.
Proof.
  unfold frame. intros (A1 & B1 & C1 & D1 & E1 & F1)
                       (A2 & B2 & C2 & D2 & E2 & F2).
  frame_fields. eapply fs_frame_trans; eassumption.
Qed.

Lemma preserves_ret {A} (P : World -> World -> Prop) (a : A) :
  (forall w, P w w) -> preserves P (ret a).
Proof. intros R w r w' H. injection H as _ <-. apply R. Qed.

Lemma preserves_raise {A} (P : World -> World -> Prop) (e : exn) :
  (forall w, P w w) -> preserves P (@raise A e).
Proof. intros R w r w' H. injection H as _ <-. apply R. Qed.

Lemma preserves_bind {A B} (P : World -> World -> Prop)
  (c : M A) (k : A -> M B) :
  (forall w1 w2 w3, P w1 w2 -> P w2 w3 -> P w1 w3) ->
  preserves P c -> (forall a, preserves P (k a)) -> preserves P (bind c k).
Proof.
  intros Tr Hc Hk w r w' H. unfold bind in H.
  destruct (c w) as [[a|e] w1] eqn:E.
  - eapply Tr; [eapply Hc, E|eapply Hk, H].
  - injection H as _ <-. eapply Hc, E.
Qed.

Lemma preserves_for_each {X} (P : World -> World -> Prop)
  (xs : list X) (body : X -> M unit) :
  (forall w, P w w) ->
  (forall w1 w2 w3, P w1 w2 -> P w2 w3 -> P w1 w3) ->
  (forall x, preserves P (body x)) -> preserves P (for_each xs body).
Proof.
  intros R Tr Hb. induction xs as [|x xs IH]; simpl.
  - apply preserves_ret, R.
  - apply preserves_bind; auto.
Qed.

Lemma frame_spinner (lp : text) (e : SpinnerEvent) (w : World) :
  frame lp w (add_spinner e w).
Proof. frame_fields. apply fs_frame_refl. Qed.

Lemma frame_append (lp s : text) (w : World) :
  frame lp w (set_fs (append_fs (fs w) lp s) w).
Proof. frame_fields. apply fs_frame_append. Qed.

Lemma preserves_spinner_write (lp : text) (x : payload) :
  preserves (frame lp) (spinner_write x).
Proof. intros w r w' H. injection H as _ <-. apply frame_spinner. Qed.

Lemma preserves_file_write (lp s : text) :
  preserves (frame lp) (file_write lp s).
Proof. intros w r w' H. injection H as _ <-. apply frame_append. Qed.

Lemma preserves_open_append (lp : text) :
  preserves (frame lp) (open_append lp).
Proof.
  intros w r w' H. unfold open_append in H.
  destruct (open_append_error (fs w) lp); injection H as _ <-.
  - apply frame_refl.
  - apply frame_append.
Qed.

Lemma preserves_decode (lp : text) (line : bytes) :
  preserves (frame lp) (decode line).
Proof.
  intros w r w' H. unfold decode in H.
  destruct (Utf8.decode line); injection H as _ <-; apply frame_refl.
Qed.

(** ** The process runner *)

Section ProcessRunner.

Variable popen : Task -> FileSystem -> PopenResult.

Lemma run_task_unfold (task : Task) (lp : text) :
  _run_task popen task lp
  = (spinner_write (PStr (echoed task)) ;;
     proc <- Popen popen task ;;
     open_append lp ;;
     file_write lp (echoed task ++ [newline]) ;;
     for_each (readlines (fst proc)) (line_body lp) ;;
     ret (snd proc)).
Proof. reflexivity. Qed.

Lemma preserves_Popen (lp : text) (task : Task) :
  preserves (frame lp) (Popen popen task).
Proof.
  intros w r w' H. unfold Popen in H.
  destruct (popen task (fs w)); injection H as _ <-; apply frame_refl.
Qed.

Lemma preserves_line_body (lp : text) (line : bytes) :
  preserves (frame lp) (line_body lp line).
Proof.
  unfold line_body.
  apply preserves_bind; [apply frame_trans|apply preserves_spinner_write|].
  intros _.
  apply preserves_bind; [apply frame_trans|apply preserves_decode|].
  intros s. apply preserves_file_write.
Qed.

Lemma preserves_write_lines (lp : text) (lines : list bytes) :
  preserves (frame lp) (for_each lines (line_body lp)).
Proof.
  apply preserves_for_each;
    [apply frame_refl|apply frame_trans|apply preserves_line_body].
Qed.

(** The runner touches the status sink and its log file, nothing else. *)
Lemma run_task_frame (task : Task) (lp : text) :
  preserves (frame lp) (_run_task popen task lp).
Proof.
  rewrite run_task_unfold.
  apply preserves_bind; [apply frame_trans|apply preserves_spinner_write|].
  intros _.
  apply preserves_bind; [apply frame_trans|apply preserves_Popen|].
  intros proc.
  apply preserves_bind; [apply frame_trans|apply preserves_open_append|].
  intros _.
  apply preserves_bind; [apply frame_trans|apply preserves_file_write|].
  intros _.
  apply preserves_bind; [apply frame_trans|apply preserves_write_lines|].
  intros _. apply preserves_ret, frame_refl.
Qed.

Lemma write_lines_ok (lp : text) (lines : list bytes) :
  forall (txt : text) (w : World) (f0 : FileSystem) (pre : text),
    decode_lines lines = Some txt ->
    fs w = append_fs f0 lp pre ->
    exists w',
      for_each lines (line_body lp) w = (Return tt, w')
      /\ fs w' = append_fs f0 lp (pre ++ txt)
      /\ spinner w'
         = spinner w
             ++ map (fun l => SpWrite (PBytes (strip_newline l))) lines.
Proof.
  induction lines as [|l lines IH]; intros txt w f0 pre Hd Hf.
  - injection Hd as <-. exists w. simpl. rewrite !app_nil_r. auto.
  - simpl in Hd. destruct (Utf8.decode l) as [s|] eqn:El; [|discriminate].
    destruct (decode_lines lines) as [rest|] eqn:Er; [|discriminate].
    injection Hd as <-.
    set (w1 := add_spinner (SpWrite (PBytes (strip_newline l))) w).
    set (w2 := set_fs (append_fs (fs w1) lp s) w1).
    destruct (IH rest w2 f0 (pre ++ s) eq_refl) as (w' & Hrun & Hfs & Hsp).
    { unfold w2, w1. simpl. rewrite Hf. apply append_append. }
    exists w'. split; [|split].
    + simpl. unfold bind at 1. unfold line_body, bind at 1.
      unfold spinner_write, modify. fold w1.
      unfold bind at 1. unfold decode. rewrite El.
      unfold file_write, modify. fold w2. exact Hrun.
    + rewrite Hfs, <- app_assoc. reflexivity.
    + rewrite Hsp. unfold w2, w1. simpl. rewrite <- app_assoc. reflexivity.
Qed.

Lemma write_lines_bad (lp : text) (lines : list bytes) :
  forall (l : bytes) (w : World),
    first_undecodable lines = Some l ->
    exists w',
      for_each lines (line_body lp) w = (Raise (UnicodeDecodeError l), w').
Proof.
  induction lines as [|x lines IH]; intros l w H; [discriminate|].
  simpl in H. simpl. unfold bind at 1. unfold line_body, bind at 1.
  unfold spinner_write, modify. unfold bind at 1. unfold decode.
  destruct (Utf8.decode x) as [s|].
  - unfold file_write, modify. apply IH, H.
  - injection H as <-. eexists. reflexivity.
Qed.

Lemma run_task_spawn_failure (task : Task) (lp : text) (w : World) (e : exn) :
  popen task (fs w) = SpawnFailed e ->
  _run_task popen task lp w
  = (Raise e, add_spinner (SpWrite (PStr (echoed task))) w).
Proof.
  intros H. rewrite run_task_unfold. unfold bind at 1.
  unfold spinner_write, modify. unfold bind at 1. unfold Popen.
  cbn [fs add_spinner]. rewrite H. reflexivity.
Qed.

Lemma run_task_open_failure (task : Task) (lp : text) (w : World)
  (out : bytes) (rc : Z) (e : exn) :
  popen task (fs w) = Spawned out rc ->
  open_append_error (fs w) lp = Some e ->
  _run_task popen task lp w
  = (Raise e, add_spinner (SpWrite (PStr (echoed task))) w).
Proof.
  intros H Ho. rewrite run_task_unfold. unfold bind at 1.
  unfold spinner_write, modify. unfold bind at 1. unfold Popen.
  cbn [fs add_spinner]. rewrite H.
  unfold bind at 1. unfold open_append. cbn [fs add_spinner].
  rewrite Ho. reflexivity.
Qed.

(** After a launch and a successful [open], the runner is left with the
    loop over the output lines. *)
Lemma run_task_launched (task : Task) (lp : text) (w : World)
  (out : bytes) (rc : Z) :
  popen task (fs w) = Spawned out rc ->
  open_append_error (fs w) lp = None ->
  exists w1,
    fs w1 = append_fs (fs w) lp (echoed task ++ [newline])
    /\ spinner w1 = spinner w ++ [SpWrite (PStr (echoed task))]
    /\ _run_task popen task lp w
       = (for_each (readlines out) (line_body lp) ;; ret rc) w1.
Proof.
  intros H Ho. rewrite run_task_unfold.
  eexists. split; [|split].
  3:{ unfold bind at 1. unfold spinner_write, modify.
      unfold bind at 1. unfold Popen. cbn [fs add_spinner]. rewrite H.
      unfold bind at 1. unfold open_append. cbn [fs add_spinner]. rewrite Ho.
      unfold bind at 1. unfold file_write, modify. cbn [fst snd].
      reflexivity. }
  - cbn [fs set_fs add_spinner]. rewrite append_append. reflexivity.
  - reflexivity.
Qed.

Lemma run_task_returns (task : Task) (lp : text) (w : World)
  (out : bytes) (rc : Z) (txt : text) :
  popen task (fs w) = Spawned out rc ->
  open_append_error (fs w) lp = None ->
  decode_lines (readlines out) = Some txt ->
  exists w',
    _run_task popen task lp w = (Return rc, w')
    /\ fs w' = append_fs (fs w) lp (echoed task ++ newline :: txt)
    /\ spinner w' = spinner w ++ sink_lines task out.
Proof.
  intros H Ho Hd.
  destruct (run_task_launched task lp w _ _ H Ho) as (w1 & Hfs & Hsp & ->).
  destruct (write_lines_ok lp _ _ w1 (fs w) _ Hd Hfs) as (w' & Hrun & F & S).
  exists w'. split; [|split].
  - unfold bind. rewrite Hrun. reflexivity.
  - rewrite F, <- app_assoc. reflexivity.
  - rewrite S, Hsp, <- app_assoc. reflexivity.
Qed.

Lemma run_task_decode_failure (task : Task) (lp : text) (w : World)
  (out : bytes) (rc : Z) (l : bytes) :
  popen task (fs w) = Spawned out rc ->
  open_append_error (fs w) lp = None ->
  first_undecodable (readlines out) = Some l ->
  exists w', _run_task popen task lp w = (Raise (UnicodeDecodeError l), w').
Proof.
  intros H Ho Hd.
  destruct (run_task_launched task lp w _ _ H Ho) as (w1 & _ & _ & ->).
  destruct (write_lines_bad lp _ _ w1 Hd) as (w' & Hrun).
  exists w'. unfold bind. rewrite Hrun. reflexivity.
Qed.

(** When the runner returns, its log file exists. *)
Lemma run_task_leaves_log (task : Task) (lp : text) (w w' : World) (rc : Z) :
  _run_task popen task lp w = (Return rc, w') ->
  is_dir (fs w') lp = false /\ read_file (fs w') lp <> None.
Proof.
  intros H. pose proof (run_task_frame task lp _ _ _ H) as F.
  destruct (popen task (fs w)) as [out rc'|e] eqn:Hp.
  2:{ rewrite (run_task_spawn_failure task lp w _ Hp) in H. discriminate. }
  destruct (open_append_error (fs w) lp) as [e|] eqn:Ho.
  { rewrite (run_task_open_failure task lp w _ _ _ Hp Ho) in H. discriminate. }
  split.
  - destruct F as (_ & _ & _ & _ & _ & Ff).
    rewrite (fs_frame_is_dir _ _ _ _ Ff). unfold open_append_error in Ho.
    destruct (is_dir (fs w) lp) eqn:D; [discriminate|reflexivity].
  - destruct (run_task_launched task lp w _ _ Hp Ho) as (w1 & Hfs & _ & E).
    rewrite E in H. unfold bind in H.
    destruct (for_each (readlines out) (line_body lp) w1) as [[[]|e] w2] eqn:L;
      [|discriminate].
    injection H as _ <-.
    destruct (preserves_write_lines lp _ _ _ _ L) as (_&_&_&_&_& K).
    apply (fs_frame_keeps _ _ _ K).
    rewrite Hfs, read_append_same. discriminate.
Qed.

End ProcessRunner.

(** ** Lines and UTF-8 *)

Lemma between_spec (lo hi n : N) :
  Utf8.between lo hi n = true <-> (lo <= n <= hi)%N.
Proof.
  unfold Utf8.between. rewrite andb_true_iff, !N.leb_le. reflexivity.
Qed.

Lemma cont_high (n : N) : Utf8.cont n = true -> (128 <= n)%N.
Proof. unfold Utf8.cont. rewrite between_spec. lia. Qed.

Lemma second3_high (n0 n1 : N) : Utf8.second3 n0 n1 = true -> (128 <= n1)%N.
Proof.
  unfold Utf8.second3, Utf8.cont.
  destruct (N.eqb n0 224); [|destruct (N.eqb n0 237)];
    rewrite between_spec; lia.
Qed.

Lemma second4_high (n0 n1 : N) : Utf8.second4 n0 n1 = true -> (128 <= n1)%N.
Proof.
  unfold Utf8.second4, Utf8.cont.
  destruct (N.eqb n0 240); [|destruct (N.eqb n0 244)];
    rewrite between_spec; lia.
Qed.

Lemma high_not_nl (b : byte) : (128 <= Byte.to_N b)%N -> is_nl b = false.
Proof. intros H. unfold is_nl. apply N.eqb_neq. lia. Qed.

Lemma readline_cons_other (b : byte) (r : bytes) :
  is_nl b = false ->
  readline (b :: r) = (b :: fst (readline r), snd (readline r)).
Proof.
  intros H. simpl. rewrite H. destruct (readline r). reflexivity.
Qed.

Lemma readline_cons_nl (b : byte) (r : bytes) :
  is_nl b = true -> readline (b :: r) = ([b], r).
Proof. intros H. simpl. rewrite H. reflexivity. Qed.

Lemma readline_app (s : bytes) : fst (readline s) ++ snd (readline s) = s.
Proof.
  induction s as [|b r IH]; [reflexivity|].
  destruct (is_nl b) eqn:E.
  - rewrite readline_cons_nl by assumption. reflexivity.
  - rewrite readline_cons_other by assumption. simpl. rewrite IH. reflexivity.
Qed.

Lemma readline_nonempty (b : byte) (r : bytes) :
  fst (readline (b :: r)) <> [].
Proof.
  destruct (is_nl b) eqn:E.
  - rewrite readline_cons_nl by assumption. discriminate.
  - rewrite readline_cons_other by assumption. discriminate.
Qed.

Lemma readline_rest_shorter (b : byte) (r : bytes) :
  (List.length (snd (readline (b :: r))) < List.length (b :: r))%nat.
Proof.
  pose proof (readline_app (b :: r)) as A.
  pose proof (readline_nonempty b r) as N.
  apply (f_equal (@List.length _)) in A. rewrite length_app in A.
  destruct (fst (readline (b :: r))); [contradiction|]. simpl in *. lia.
Qed.

Lemma decode_cons (b0 : byte) (r0 : bytes) :
  Utf8.decode (b0 :: r0) =
  let n0 := Byte.to_N b0 in
  if N.ltb n0 128 then option_map (cons n0) (Utf8.decode r0)
  else if Utf8.between 194 223 n0 then
    match r0 with
    | b1 :: r1 =>
      let n1 := Byte.to_N b1 in
      if Utf8.cont n1
      then option_map (cons ((n0 - 192) * 64 + (n1 - 128))%N) (Utf8.decode r1)
      else None
    | _ => None
    end
  else if Utf8.between 224 239 n0 then
    match r0 with
    | b1 :: b2 :: r2 =>
      let n1 := Byte.to_N b1 in
      let n2 := Byte.to_N b2 in
      if Utf8.second3 n0 n1 && Utf8.cont n2
      then option_map
             (cons ((n0 - 224) * 4096 + (n1 - 128) * 64 + (n2 - 128))%N)
             (Utf8.decode r2)
      else None
    | _ => None
    end
  else if Utf8.between 240 244 n0 then
    match r0 with
    | b1 :: b2 :: b3 :: r3 =>
      let n1 := Byte.to_N b1 in
      let n2 := Byte.to_N b2 in
      let n3 := Byte.to_N b3 in
      if Utf8.second4 n0 n1 && Utf8.cont n2 && Utf8.cont n3
      then option_map
             (cons ((n0 - 240) * 262144 + (n1 - 128) * 4096
                    + (n2 - 128) * 64 + (n3 - 128))%N)
             (Utf8.decode r3)
      else None
    | _ => None
    end
  else None.
Proof. reflexivity. Qed.

Lemma option_map_some {A B} (f : A -> B) (o : option A) (y : B) :
  option_map f o = Some y -> exists x, o = Some x /\ y = f x.
Proof. destruct o; simpl; intros H; [injection H as <-; eauto|discriminate]. Qed.

(** A newline never sits inside a multi-byte sequence, so a stream that
    decodes splits after its first line into two streams that decode. *)
Lemma decode_readline :
  forall (n : nat) (s : bytes) (txt : text),
    (List.length s <= n)%nat ->
    Utf8.decode s = Some txt ->
    exists a b,
      Utf8.decode (fst (readline s)) = Some a
      /\ Utf8.decode (snd (readline s)) = Some b
      /\ txt = a ++ b.
Proof.
  induction n as [|n IH]; intros s txt L H.
  - destruct s; [|simpl in L; lia]. injection H as <-.
    exists [], []. auto.
  - destruct s as [|b0 r0].
    { injection H as <-. exists [], []. auto. }
    destruct (is_nl b0) eqn:Enl.
    { rewrite readline_cons_nl by assumption. cbn [fst snd].
      unfold is_nl in Enl. apply N.eqb_eq in Enl.
      rewrite decode_cons in H. cbv zeta in H. rewrite Enl in H.
      cbn [N.ltb N.compare Pos.compare Pos.compare_cont] in H.
      apply option_map_some in H. destruct H as (t & Hr & ->).
      exists [10%N], t. rewrite decode_cons. cbv zeta. rewrite Enl.
      simpl. auto. }
    rewrite decode_cons in H. cbv zeta in H.
    destruct (N.ltb (Byte.to_N b0) 128) eqn:C1.
    { apply option_map_some in H. destruct H as (t & Hr & ->).
      destruct (IH r0 t) as (a & b & Ha & Hb & ->);
        [simpl in L; lia|assumption|].
      rewrite readline_cons_other by assumption. cbn [fst snd].
      exists (Byte.to_N b0 :: a), b. rewrite decode_cons. cbv zeta.
      rewrite C1, Ha. auto. }
    destruct (Utf8.between 194 223 (Byte.to_N b0)) eqn:C2.
    { destruct r0 as [|b1 r1]; [discriminate|].
      destruct (Utf8.cont (Byte.to_N b1)) eqn:K1; [|discriminate].
      apply option_map_some in H. destruct H as (t & Hr & ->).
      destruct (IH r1 t) as (a & b & Ha & Hb & ->);
        [simpl in L; lia|assumption|].
      rewrite readline_cons_other by assumption.
      rewrite readline_cons_other by (apply high_not_nl, cont_high, K1).
      cbn [fst snd].
      eexists (_ :: a), b. rewrite decode_cons. cbv zeta.
      rewrite C1, C2, K1, Ha. cbn [option_map]; split; [reflexivity|split; [exact Hb|reflexivity]]. }
    destruct (Utf8.between 224 239 (Byte.to_N b0)) eqn:C3.
    { destruct r0 as [|b1 [|b2 r2]]; try discriminate.
      destruct (Utf8.second3 (Byte.to_N b0) (Byte.to_N b1)) eqn:K1;
        [|discriminate].
      destruct (Utf8.cont (Byte.to_N b2)) eqn:K2; [|discriminate].
      cbn [andb] in H.
      apply option_map_some in H. destruct H as (t & Hr & ->).
      destruct (IH r2 t) as (a & b & Ha & Hb & ->);
        [simpl in L; lia|assumption|].
      rewrite readline_cons_other by assumption.
      rewrite readline_cons_other
        by (apply high_not_nl, (second3_high _ _ K1)).
      rewrite readline_cons_other by (apply high_not_nl, cont_high, K2).
      cbn [fst snd].
      eexists (_ :: a), b. rewrite decode_cons. cbv zeta.
      rewrite C1, C2, C3, K1, K2. cbn [andb]. rewrite Ha. cbn [option_map]; split; [reflexivity|split; [exact Hb|reflexivity]]. }
    destruct (Utf8.between 240 244 (Byte.to_N b0)) eqn:C4; [|discriminate].
    destruct r0 as [|b1 [|b2 [|b3 r3]]]; try discriminate.
    destruct (Utf8.second4 (Byte.to_N b0) (Byte.to_N b1)) eqn:K1;
      [|discriminate].
    destruct (Utf8.cont (Byte.to_N b2)) eqn:K2; [|discriminate].
    destruct (Utf8.cont (Byte.to_N b3)) eqn:K3; [|discriminate].
    cbn [andb] in H.
    apply option_map_some in H. destruct H as (t & Hr & ->).
    destruct (IH r3 t) as (a & b & Ha & Hb & ->);
      [simpl in L; lia|assumption|].
    rewrite readline_cons_other by assumption.
    rewrite readline_cons_other
      by (apply high_not_nl, (second4_high _ _ K1)).
    rewrite readline_cons_other by (apply high_not_nl, cont_high, K2).
    rewrite readline_cons_other by (apply high_not_nl, cont_high, K3).
    cbn [fst snd].
    eexists (_ :: a), b. rewrite decode_cons. cbv zeta.
    rewrite C1, C2, C3, C4, K1, K2, K3. cbn [andb]. rewrite Ha. cbn [option_map]; split; [reflexivity|split; [exact Hb|reflexivity]].
Qed.

Lemma iter_readline_decode :
  forall (rounds : nat) (s : bytes) (txt : text),
    (List.length s < rounds)%nat ->
    Utf8.decode s = Some txt ->
    decode_lines (iter_readline rounds s) = Some txt.
Proof.
  induction rounds as [|k IH]; intros s txt L H; [lia|].
  destruct s as [|b r].
  { injection H as <-. reflexivity. }
  destruct (decode_readline _ _ _ (le_n _) H) as (a & t & Ha & Ht & ->).
  pose proof (readline_nonempty b r) as Hne.
  pose proof (readline_rest_shorter b r) as Hlt.
  cbn [iter_readline].
  destruct (readline (b :: r)) as [line rest]. cbn [fst snd] in *.
  destruct line as [|x line]; [contradiction|].
  cbn [decode_lines]. rewrite Ha.
  rewrite (IH rest t); [reflexivity| |assumption].
  simpl in L, Hlt. lia.
Qed.

(** Decoding the stream line by line gives what decoding it whole gives. *)
Lemma decode_lines_readlines (out : bytes) (txt : text) :
  Utf8.decode out = Some txt -> decode_lines (readlines out) = Some txt.
Proof. intros H. apply iter_readline_decode; [unfold lt; reflexivity|exact H]. Qed.

Lemma iter_readline_concat :
  forall (rounds : nat) (s : bytes),
    (List.length s < rounds)%nat -> List.concat (iter_readline rounds s) = s.
Proof.
  induction rounds as [|k IH]; intros s L; [lia|].
  destruct s as [|b r]; [reflexivity|].
  pose proof (readline_nonempty b r) as Hne.
  pose proof (readline_rest_shorter b r) as Hlt.
  pose proof (readline_app (b :: r)) as Happ.
  cbn [iter_readline].
  destruct (readline (b :: r)) as [line rest]. cbn [fst snd] in *.
  destruct line as [|x line]; [contradiction|].
  cbn [List.concat]. rewrite IH; [exact Happ|]. simpl in L, Hlt. lia.
Qed.

(** The lines of a stream, put end to end, are the stream. *)
Lemma readlines_concat (out : bytes) : List.concat (readlines out) = out.
Proof. apply iter_readline_concat. unfold lt. reflexivity. Qed.

(** ** Claims on the process runner *)

Section ProcessRunnerClaims.

Variable popen : Task -> FileSystem -> PopenResult.


(** C6.  For every task whose process cannot be created, the process
    runner ends with the exception that [Popen] raised; the file system is
    left as it was, so the phase log has gained nothing, not even the
    echoed command line, which has reached the status sink only. *)
Theorem run_task_spawn_failure_writes_nothing
  (task : Task) (log_path : text) (w : World) (e : exn) :
  popen task (fs w) = SpawnFailed e ->
  exists w',
    _run_task popen task log_path w = (Raise e, w')
    /\ fs w' = fs w
    /\ read_file (fs w') log_path = read_file (fs w) log_path
    /\ spinner w' = spinner w ++ [SpWrite (PStr (echoed task))].
Proof.
  intros Hp. eexists. split.
  - apply run_task_spawn_failure, Hp.
  - repeat split.
Qed.

Lemma run_task_or_err_step (task : Task) (lp msg : text) (w : World) :
  _run_task_or_err popen task lp msg w
  = let (outcome, w1) := _run_task popen task lp w in
    let w2 := add_trace (EvTask task outcome) w1 in
    match failure_of task outcome with
    | Some x => (Raise x, add_stderr msg w2)
    | None => (Return tt, w2)
    end.
Proof.
  unfold _run_task_or_err, bind, try_except, observed.
  destruct (_run_task popen task lp w) as [[ret_|e] w1]; cbn [failure_of].
  - destruct (negb (Z.eqb ret_ 0)); reflexivity.
  - reflexivity.
Qed.

(** C9.  Whatever exception ends the process runner, be it raised by
    [Popen], by opening the log file after the child has been launched, or
    by decoding a line of its output, [_run_task_or_err] prints the error
    message and raises [BenchmarkTaskError] with the task and that
    exception as its cause. *)
Theorem run_task_or_err_wraps_any_exception
  (task : Task) (log_path err_message : text) (w w1 : World) (e : exn) :
  _run_task popen task log_path w = (Raise e, w1) ->
  _run_task_or_err popen task log_path err_message w
  = (Raise (BenchmarkTaskError task e),
     add_stderr err_message (add_trace (EvTask task (Raise e)) w1)).
Proof.
  intros H. rewrite run_task_or_err_step, H. reflexivity.
Qed.

End ProcessRunnerClaims.

(** ** The phase sequencer *)

Lemma failure_of_none (task : Task) (outcome : result Z) :
  failure_of task outcome = None <-> outcome = Return 0%Z.
Proof.
  destruct outcome as [ret_|e]; simpl.
  - destruct (Z.eqb ret_ 0) eqn:E; simpl.
    + apply Z.eqb_eq in E. subst. split; reflexivity.
    + apply Z.eqb_neq in E. split; [discriminate|].
      intros H. injection H as H. contradiction.
  - split; discriminate.
Qed.

Lemma failure_of_task (task : Task) (outcome : result Z) (x : exn) :
  failure_of task outcome = Some x -> exn_task x = Some task.
Proof.
  destruct outcome as [ret_|e]; simpl.
  - destruct (negb (Z.eqb ret_ 0)); [|discriminate].
    intros H. injection H as <-. reflexivity.
  - intros H. injection H as <-. reflexivity.
Qed.

Section Sequencer.

Variable StatMapping : Type.
Variable popen : Task -> FileSystem -> PopenResult.

(** One round of a loop over tasks: set the status text, run the task. *)
Lemma task_step (label : text) (lp msg : text) (task : Task)
  (w w' : World) (r : result unit) :
  (spinner_set_text label ;; _run_task_or_err popen task lp msg) w = (r, w') ->
  exists outcome,
    fs_frame lp (fs w) (fs w')
    /\ trace w' = trace w ++ [EvTask task outcome]
    /\ (r = Return tt ->
        is_dir (fs w') lp = false /\ read_file (fs w') lp <> None)
    /\ match failure_of task outcome with
       | Some x => r = Raise x /\ stderr w' = stderr w ++ [msg]
       | None => r = Return tt /\ stderr w' = stderr w
       end.
Proof.
  unfold bind at 1. unfold spinner_set_text, modify.
  rewrite run_task_or_err_step.
  set (w0 := add_spinner (SpText label) w).
  destruct (_run_task popen task lp w0) as [outcome w1] eqn:E.
  pose proof (run_task_frame popen task lp _ _ _ E)
    as (Ft & Fe & _ & _ & _ & Ff).
  intros H. exists outcome.
  assert (Ht : forall w2, trace w2 = trace w1 ++ [EvTask task outcome] ->
                          trace w2 = trace w ++ [EvTask task outcome]).
  { intros w2 ->. rewrite Ft. reflexivity. }
  destruct (failure_of task outcome) as [x|] eqn:Ef.
  - injection H as <- <-.
    split; [exact Ff|]. split; [apply Ht; reflexivity|].
    split; [intros K; discriminate K|].
    split; [reflexivity|]. cbn [stderr add_stderr add_trace].
    rewrite Fe. reflexivity.
  - injection H as <- <-.
    split; [exact Ff|]. split; [apply Ht; reflexivity|].
    apply failure_of_none in Ef. subst outcome.
    split.
    + intros _. apply (run_task_leaves_log popen task lp w0 w1 0 E).
    + split; [reflexivity|]. cbn [stderr add_trace]. exact Fe.
Qed.

(** A loop over the tasks of a phase, as both loops of [start] are. *)
Lemma phase_loop_spec (label msg : Task -> text) (lp : text)
  (tasks : list Task) :
  forall (w w' : World) (r : result unit),
    for_each tasks
      (fun task => spinner_set_text (label task) ;;
                   _run_task_or_err popen task lp (msg task)) w = (r, w') ->
    fs_frame lp (fs w) (fs w')
    /\ (r = Return tt -> tasks <> [] ->
        is_dir (fs w') lp = false /\ read_file (fs w') lp <> None)
    /\ exists evs errs,
        trace w' = trace w ++ evs
        /\ stderr w' = stderr w ++ errs
        /\ phase_result msg tasks r evs errs.
Proof.
  induction tasks as [|task tasks IH]; intros w w' r H.
  - injection H as <- <-. split; [apply fs_frame_refl|].
    split; [intros _ N; contradiction|].
    exists [], []. rewrite !app_nil_r. repeat split. constructor.
  - cbn [for_each] in H. unfold bind at 1 in H.
    destruct ((spinner_set_text (label task) ;;
               _run_task_or_err popen task lp (msg task)) w)
      as [r1 w1] eqn:E1.
    destruct (task_step _ _ _ _ _ _ _ E1) as (o & F1 & T1 & L1 & C1).
    destruct (failure_of task o) as [x|] eqn:Ef.
    + destruct C1 as [-> S1]. injection H as <- <-.
      split; [exact F1|]. split; [intros K; discriminate K|].
      exists [EvTask task o], [msg task]. repeat split; try assumption.
      apply (@phase_aborted msg (task :: tasks) [] task tasks o x eq_refl Ef).
    + destruct C1 as [-> S1].
      destruct (IH _ _ _ H) as (F2 & L2 & evs & errs & T2 & S2 & R2).
      split; [eapply fs_frame_trans; eassumption|].
      split.
      { intros -> _. destruct (L1 eq_refl) as [D K]. split.
        - rewrite (fs_frame_is_dir _ _ _ _ F2). exact D.
        - apply (fs_frame_keeps _ _ _ F2), K. }
      apply failure_of_none in Ef. subst o.
      exists (ok_event task :: evs), errs.
      split; [rewrite T2, T1, <- app_assoc; reflexivity|].
      split; [rewrite S2, S1; reflexivity|].
      inversion R2; subst.
      * apply (@phase_completed msg (task :: tasks)).
      * apply (@phase_aborted msg _ (task :: done) task0 rest outcome x
                 eq_refl); assumption.
Qed.

(** One round of the loop over the presets. *)
Lemma run_body_spec (self : CliBenchmarkRun StatMapping)
  (preset : Preset) (tasks : list Task)
  (stats : list (text * StatMapping)) (w w' : World)
  (r : result (list (text * StatMapping))) :
  run_body popen self (preset, tasks) stats w = (r, w') ->
  let lp := _get_log_path self (T "run_" ++ name preset) in
  let msg :=
    preset_err_message (get_id (benchmark (benchmark_run self))) preset in
  fs_frame lp (fs w) (fs w')
  /\ exists evs errs,
      trace w' = trace w ++ evs
      /\ stderr w' = stderr w ++ errs
      /\ ((exists log stored,
             r = Return (dict_set stats (name preset)
                           (get_stats (benchmark_run self) log))
             /\ evs = map ok_event tasks ++ [EvStats (name preset) log]
             /\ errs = []
             /\ read_file (fs w') lp = Some stored
             /\ log = universal_newlines stored)
          \/ (exists x,
                r = Raise x /\ phase_result msg tasks (Raise x) evs errs)
          \/ (exists e,
                r = Raise e /\ exn_task e = None /\ tasks = []
                /\ evs = [] /\ errs = [])).
Proof.
  intros H lp msg. unfold run_body in H. cbn [fst snd] in H.
  unfold bind at 1 in H. unfold spinner_write at 1, modify in H.
  set (w0 := add_spinner _ w) in H.
  unfold bind at 1 in H.
  destruct (for_each tasks (preset_body popen self preset) w0)
    as [r1 w1] eqn:E1.
  destruct (phase_loop_spec
              (fun task =>
                 get_id (benchmark (benchmark_run self)) ++ T "(run:"
                   ++ name preset ++ T "): " ++ Shlex.join (args task))
              msg lp tasks w0 w1 r1 E1)
    as (F1 & L1 & evs & errs & T1 & S1 & R1).
  change (fs w0) with (fs w) in F1.
  change (trace w0) with (trace w) in T1.
  change (stderr w0) with (stderr w) in S1.
  destruct r1 as [[]|x].
  2:{ injection H as <- <-. split; [exact F1|].
      exists evs, errs. split; [exact T1|]. split; [exact S1|].
      right. left. exists x. split; [reflexivity|exact R1]. }
  fold lp in H. unfold bind at 1 in H. unfold open_read in H.
  inversion R1; subst evs errs.
  destruct (is_dir (fs w1) lp) eqn:D.
  { injection H as <- <-. split; [exact F1|].
    destruct tasks as [|t ts].
    - exists [], []. split; [exact T1|]. split; [exact S1|].
      right. right. eexists. repeat split.
    - destruct (L1 eq_refl) as [D' _]; [discriminate|]. congruence. }
  destruct (read_file (fs w1) lp) as [stored|] eqn:Rd.
  - unfold bind at 1 in H. unfold modify, ret in H. injection H as <- <-.
    split; [exact F1|].
    exists (map ok_event tasks
              ++ [EvStats (name preset) (universal_newlines stored)]), [].
    cbn [trace stderr fs add_trace].
    split; [rewrite T1, <- app_assoc; reflexivity|].
    split; [exact S1|].
    left. exists (universal_newlines stored), stored.
    repeat split. exact Rd.
  - injection H as <- <-. split; [exact F1|].
    destruct tasks as [|t ts].
    + exists [], []. split; [exact T1|]. split; [exact S1|].
      right. right. eexists. repeat split.
      unfold no_such_directory.
      destruct (not_a_directory (fs w1) lp); reflexivity.
    + destruct (L1 eq_refl) as [_ K]; [discriminate|]. contradiction.
Qed.

Lemma run_loop_spec (self : CliBenchmarkRun StatMapping)
  (presets : list (Preset * list Task)) :
  forall (stats : list (text * StatMapping)) (w w' : World)
         (r : result (list (text * StatMapping))),
    for_fold presets stats (run_body popen self) w = (r, w') ->
    exists evs errs,
      trace w' = trace w ++ evs
      /\ stderr w' = stderr w ++ errs
      /\ run_result (get_stats (benchmark_run self))
           (preset_err_message (get_id (benchmark (benchmark_run self))))
           presets stats r evs errs.
Proof.
  induction presets as [|[preset tasks] rest IH]; intros stats w w' r H.
  - injection H as <- <-. exists [], []. rewrite !app_nil_r.
    repeat split. constructor.
  - cbn [for_fold] in H. unfold bind at 1 in H.
    destruct (run_body popen self (preset, tasks) stats w) as [r1 w1] eqn:E1.
    destruct (run_body_spec _ _ _ _ _ _ _ E1)
      as (_ & evs & errs & T1 & S1 &
          [(log & stored & -> & -> & -> & _)
          |[(x & -> & R1)|(e & -> & He & -> & -> & ->)]]).
    + destruct (IH _ _ _ _ H) as (evs2 & errs2 & T2 & S2 & R2).
      exists ((map ok_event tasks ++ [EvStats (name preset) log]) ++ evs2),
             errs2.
      split; [rewrite T2, T1, <- !app_assoc; reflexivity|].
      split; [rewrite S2, S1, app_nil_r; reflexivity|].
      rewrite <- app_assoc. cbn [app]. constructor. exact R2.
    + injection H as <- <-. exists evs, errs.
      split; [exact T1|]. split; [exact S1|].
      apply run_aborted. exact R1.
    + injection H as <- <-. exists [], [].
      split; [exact T1|]. split; [exact S1|].
      apply run_unreadable. exact He.
Qed.

Lemma start_spec (self : CliBenchmarkRun StatMapping) (w w' : World)
  (r : result (list (text * StatMapping))) :
  start popen self w = (r, w') ->
  exists evs errs,
    trace w' = trace w ++ evs
    /\ stderr w' = stderr w ++ errs
    /\ start_result (get_stats (benchmark_run self))
         (setup_err_message (get_id (benchmark (benchmark_run self))))
         (preset_err_message (get_id (benchmark (benchmark_run self))))
         (setup (benchmark_run self)) (run (benchmark_run self))
         r evs errs.
Proof.
  intros H. unfold start in H.
  unfold bind at 1 in H. unfold spinner_write at 1, modify in H.
  set (w0 := add_spinner _ w) in H.
  unfold bind at 1 in H.
  destruct (for_each (setup (benchmark_run self)) (setup_body popen self) w0)
    as [r1 w1] eqn:E1.
  destruct (phase_loop_spec
              (fun task =>
                 get_id (benchmark (benchmark_run self)) ++ T "(setup): "
                   ++ Shlex.join (args task))
              (setup_err_message (get_id (benchmark (benchmark_run self))))
              (_get_log_path self (T "setup"))
              (setup (benchmark_run self)) w0 w1 r1 E1)
    as (_ & _ & evs & errs & T1 & S1 & R1).
  change (trace w0) with (trace w) in T1.
  change (stderr w0) with (stderr w) in S1.
  destruct r1 as [[]|x].
  - destruct (run_loop_spec _ _ _ _ _ _ H) as (evs2 & errs2 & T2 & S2 & R2).
    inversion R1; subst evs errs.
    exists (map ok_event (setup (benchmark_run self)) ++ evs2), errs2.
    split; [rewrite T2, T1, <- app_assoc; reflexivity|].
    split; [rewrite S2, S1, app_nil_r; reflexivity|].
    apply start_ran. exact R2.
  - injection H as <- <-. exists evs, errs.
    split; [exact T1|]. split; [exact S1|].
    apply start_setup_aborted. exact R1.
Qed.

End Sequencer.

(** ** How runs end *)

Lemma failure_of_exception (task : Task) (outcome : result Z) :
  outcome <> Return 0%Z ->
  failure_of task outcome = Some (exception_for task outcome).
Proof.
  intros N. destruct outcome as [code|e]; simpl; [|reflexivity].
  destruct (Z.eqb code 0) eqn:E; [|reflexivity].
  apply Z.eqb_eq in E. subst. contradiction.
Qed.

Lemma ok_event_not_failure (tasks : list Task) (task : Task)
  (outcome : result Z) (x : exn) :
  In (EvTask task outcome) (map ok_event tasks) ->
  failure_of task outcome = Some x -> False.
Proof.
  intros Hin Hf. apply in_map_iff in Hin. destruct Hin as (t & E & _).
  unfold ok_event in E. injection E as -> <-. discriminate Hf.
Qed.

Lemma phase_failed_event (msg : Task -> text) (tasks : list Task)
  (r : result unit) (evs : list Event) (errs : list text)
  (task : Task) (outcome : result Z) (x : exn) :
  phase_result msg tasks r evs errs ->
  In (EvTask task outcome) evs ->
  failure_of task outcome = Some x ->
  r = Raise x
  /\ (exists earlier, evs = earlier ++ [EvTask task outcome])
  /\ errs = [msg task] /\ In task tasks.
Proof.
  intros R Hin Hf. inversion R; subst.
  - exfalso. eapply ok_event_not_failure; eassumption.
  - apply in_app_or in Hin. destruct Hin as [Hin|[E|[]]].
    + exfalso. eapply ok_event_not_failure; eassumption.
    + injection E as -> ->.
      assert (x0 = x) by congruence. subst x0.
      repeat split; eauto. apply in_or_app. right. left. reflexivity.
Qed.

Lemma run_failed_event {V} (get : text -> V) (msg : Preset -> Task -> text)
  (presets : list (Preset * list Task)) (stats : list (text * V))
  (r : result (list (text * V))) (evs : list Event) (errs : list text)
  (task : Task) (outcome : result Z) (x : exn) :
  run_result get msg presets stats r evs errs ->
  In (EvTask task outcome) evs ->
  failure_of task outcome = Some x ->
  r = Raise x
  /\ (exists earlier, evs = earlier ++ [EvTask task outcome])
  /\ exists preset tasks,
      In (preset, tasks) presets /\ In task tasks
      /\ errs = [msg preset task].
Proof.
  intros R. induction R as
      [stats|preset tasks rest stats log r evs errs R IH
      |preset tasks rest stats y evs errs P|preset rest stats e He];
    intros Hin Hf.
  - destruct Hin.
  - apply in_app_or in Hin. destruct Hin as [Hin|[E|Hin]].
    + exfalso. eapply ok_event_not_failure; eassumption.
    + discriminate E.
    + destruct (IH Hin Hf) as (-> & (earlier & ->) & p & ts & I1 & I2 & ->).
      split; [reflexivity|]. split.
      * exists (map ok_event tasks ++ EvStats (name preset) log :: earlier).
        rewrite <- app_assoc. reflexivity.
      * exists p, ts. repeat split; auto. right. exact I1.
  - destruct (phase_failed_event _ _ _ _ _ _ _ _ P Hin Hf)
      as (E & L & -> & I).
    injection E as ->.
    split; [reflexivity|]. split; [exact L|].
    exists preset, tasks. repeat split; auto. left. reflexivity.
  - destruct Hin.
Qed.

Lemma start_failed_event {V} (get : text -> V)
  (setup_msg : Task -> text) (msg : Preset -> Task -> text)
  (setup_tasks : list Task) (presets : list (Preset * list Task))
  (r : result (list (text * V))) (evs : list Event) (errs : list text)
  (task : Task) (outcome : result Z) (x : exn) :
  start_result get setup_msg msg setup_tasks presets r evs errs ->
  In (EvTask task outcome) evs ->
  failure_of task outcome = Some x ->
  r = Raise x
  /\ (exists earlier, evs = earlier ++ [EvTask task outcome])
  /\ exists m,
      errs = [m]
      /\ ((In task setup_tasks /\ m = setup_msg task)
          \/ exists preset tasks,
               In (preset, tasks) presets /\ In task tasks
               /\ m = msg preset task).
Proof.
  intros R Hin Hf. inversion R as [y evs' errs' P|r' evs' errs' Q]; subst.
  - destruct (phase_failed_event _ _ _ _ _ _ _ _ P Hin Hf)
      as (E & L & -> & I).
    injection E as ->.
    split; [reflexivity|]. split; [exact L|].
    eexists. split; [reflexivity|]. left. split; [exact I|reflexivity].
  - apply in_app_or in Hin. destruct Hin as [Hin|Hin].
    + exfalso. eapply ok_event_not_failure; eassumption.
    + destruct (run_failed_event _ _ _ _ _ _ _ _ _ _ Q Hin Hf)
        as (-> & (earlier & ->) & p & ts & I1 & I2 & ->).
      split; [reflexivity|]. split.
      * exists (map ok_event setup_tasks ++ earlier).
        rewrite <- app_assoc. reflexivity.
      * eexists. split; [reflexivity|]. right. exists p, ts. auto.
Qed.



(** A loop over presets that reaches its end has run every task with
    outcome 0 and every extraction in its place. *)
Lemma run_return_shape {V} (get : text -> V) (msg : Preset -> Task -> text)
  (presets : list (Preset * list Task)) (stats : list (text * V))
  (r : result (list (text * V))) (evs : list Event) (errs : list text) :
  run_result get msg presets stats r evs errs ->
  forall final, r = Return final ->
    exists logs,
      List.length logs = List.length presets
      /\ evs = run_events presets logs
      /\ final = stats_after get presets logs stats
      /\ errs = [].
Proof.
  intros R. induction R as
      [stats|preset tasks rest stats log r evs errs R IH
      |preset tasks rest stats y evs errs P|preset rest stats e He];
    intros final Hr.
  - injection Hr as <-. exists []. auto.
  - destruct (IH final Hr) as (logs & L & -> & -> & ->).
    exists (log :: logs). cbn [List.length run_events stats_after].
    rewrite L. auto.
  - discriminate Hr.
  - discriminate Hr.
Qed.



(** ** Logs and stats along the loop over the presets *)

Lemma fs_grows_refl (f : FileSystem) : fs_grows f f.
Proof.
  split; [reflexivity|]. intros p c H. exists []. rewrite app_nil_r. exact H.
Qed.

Lemma fs_grows_trans (f1 f2 f3 : FileSystem) :
  fs_grows f1 f2 -> fs_grows f2 f3 -> fs_grows f1 f3.
Proof.
  intros (D1 & G1) (D2 & G2). split; [congruence|].
  intros p c H. destruct (G1 p c H) as (x & Hx).
  destruct (G2 p _ Hx) as (y & Hy). exists (x ++ y).
  rewrite app_assoc. exact Hy.
Qed.

Lemma fs_frame_grows (lp : text) (f f' : FileSystem) :
  fs_frame lp f f' -> fs_grows f f'.
Proof.
  intros (D & O & G). split; [exact D|]. intros p c H.
  destruct (text_eq_dec p lp) as [->|N].
  - apply G, H.
  - exists []. rewrite app_nil_r, O; assumption.
Qed.


Lemma for_fold_cons {X S} (body : X -> S -> M S) (x : X) (l : list X)
  (s s' : S) (w w' : World) :
  for_fold (x :: l) s body w = (Return s', w') ->
  exists s1 w1,
    body x s w = (Return s1, w1)
    /\ for_fold l s1 body w1 = (Return s', w').
Proof.
  cbn [for_fold]. unfold bind at 1.
  destruct (body x s w) as [[s0|e] w0]; [|discriminate].
  intros H. exists s0, w0. split; [reflexivity|exact H].
Qed.

Section RunLoop.

Variable StatMapping : Type.
Variable popen : Task -> FileSystem -> PopenResult.
Variable self : CliBenchmarkRun StatMapping.

Lemma run_log_path_inj (n1 n2 : text) :
  _get_log_path self (T "run_" ++ n1) = _get_log_path self (T "run_" ++ n2) ->
  n1 = n2.
Proof.
  unfold _get_log_path, PosixPath.join. cbn [fold_left].
  rewrite !join2_relative by reflexivity.
  intros E. apply app_inv_head in E. apply app_inv_head in E.
  apply app_inv_tail in E. apply app_inv_head in E. exact E.
Qed.

(** One round that returns has read the log it leaves behind. *)
Lemma run_body_returns (preset : Preset) (tasks : list Task)
  (stats final : list (text * StatMapping)) (w w' : World) :
  run_body popen self (preset, tasks) stats w = (Return final, w') ->
  exists log,
    final = dict_set stats (name preset)
              (get_stats (benchmark_run self) (universal_newlines log))
    /\ read_file (fs w') (_get_log_path self (T "run_" ++ name preset))
       = Some log
    /\ trace w'
       = trace w ++ map ok_event tasks
           ++ [EvStats (name preset) (universal_newlines log)]
    /\ fs_frame (_get_log_path self (T "run_" ++ name preset)) (fs w) (fs w').
Proof.
  intros H. destruct (run_body_spec _ _ _ _ _ _ _ _ _ H)
    as (F & evs & errs & Tr & _ &
        [(log & stored & E & -> & _ & Rd & ->)|[(x & E & _)|(e & E & _)]]);
    try discriminate E.
  injection E as ->. exists stored. auto.
Qed.

Lemma run_loop_files (presets : list (Preset * list Task)) :
  forall (stats : list (text * StatMapping)) (w w' : World)
         (r : result (list (text * StatMapping))),
    for_fold presets stats (run_body popen self) w = (r, w') ->
    fs_grows (fs w) (fs w')
    /\ forall q,
        (forall n, In n (preset_names presets) ->
                   q <> _get_log_path self (T "run_" ++ n)) ->
        read_file (fs w') q = read_file (fs w) q.
Proof.
  induction presets as [|[preset tasks] rest IH]; intros stats w w' r H.
  - injection H as _ <-. split; [apply fs_grows_refl|reflexivity].
  - cbn [for_fold] in H. unfold bind at 1 in H.
    destruct (run_body popen self (preset, tasks) stats w) as [r1 w1] eqn:E1.
    destruct (run_body_spec _ _ _ _ _ _ _ _ _ E1) as (F & _).
    assert (O : forall q,
               (forall n, In n (preset_names ((preset, tasks) :: rest)) ->
                          q <> _get_log_path self (T "run_" ++ n)) ->
               read_file (fs w1) q = read_file (fs w) q).
    { intros q Hq. destruct F as (_ & O & _). apply O, Hq.
      left. reflexivity. }
    destruct r1 as [s1|e].
    + destruct (IH _ _ _ _ H) as (G2 & O2). split.
      * eapply fs_grows_trans; [eapply fs_frame_grows, F|exact G2].
      * intros q Hq. rewrite O2, O; auto.
        intros n Hn. apply Hq. right. exact Hn.
    + injection H as _ <-. split; [eapply fs_frame_grows, F|exact O].
Qed.

Lemma run_loop_values (presets : list (Preset * list Task)) :
  forall (stats final : list (text * StatMapping)) (w w' : World),
    for_fold presets stats (run_body popen self) w = (Return final, w') ->
    (forall n, In n (preset_names presets) ->
       exists log,
         read_file (fs w') (_get_log_path self (T "run_" ++ n)) = Some log
         /\ lookup final n
            = Some (get_stats (benchmark_run self) (universal_newlines log)))
    /\ (forall n, ~ In n (preset_names presets) ->
          lookup final n = lookup stats n)
    /\ (forall k, In k (keys final) <->
          In k (keys stats) \/ In k (preset_names presets))
    /\ (NoDup (keys stats) -> NoDup (keys final)).
Proof.
  induction presets as [|[preset tasks] rest IH]; intros stats final w w' H.
  - injection H as <- <-. repeat split; auto.
    + intros n [].
    + intros [K|[]]. exact K.
  - apply for_fold_cons in H. destruct H as (s1 & w1 & H1 & H2).
    destruct (run_body_returns _ _ _ _ _ _ H1) as (log & -> & Rd & _ & _).
    destruct (IH _ _ _ _ H2) as (V2 & U2 & K2 & N2).
    destruct (run_loop_files _ _ _ _ _ H2) as (_ & O2).
    split; [|split; [|split]].
    + intros n Hn.
      destruct (in_dec text_eq_dec n (preset_names rest)) as [I|I].
      * apply V2, I.
      * destruct Hn as [E|Hn]; [|contradiction]. cbn [fst] in E. subst n.
        exists log. split.
        -- rewrite O2; [exact Rd|].
           intros n Hn E. apply run_log_path_inj in E. subst n.
           contradiction.
        -- rewrite U2 by assumption. apply lookup_dict_set_same.
    + intros n Hn. rewrite U2.
      * apply lookup_dict_set_other. intros E. apply Hn. left.
        cbn [fst]. congruence.
      * intros I. apply Hn. right. exact I.
    + intros k. rewrite K2, keys_dict_set.
      unfold preset_names. cbn [map fst]. split.
      * intros [[->|Hk]|Hk];
          [right; left; reflexivity|left; exact Hk|right; right; exact Hk].
      * intros [Hk|[<-|Hk]];
          [left; right; exact Hk|left; left; reflexivity|right; exact Hk].
    + intros N. apply N2, keys_dict_set_NoDup, N.
Qed.


End RunLoop.

(** ** Claims on the phase sequencer *)

Section SequencerClaims.

Variable StatMapping : Type.
Variable popen : Task -> FileSystem -> PopenResult.

(** C4, as amended.  If the directory [logs] does not exist in the current
    working directory when a run is constructed, the construction prints
    an error message and raises [Exit(1)]; constructing and then starting
    the run ends the same way, with the file system as it was and not one
    task run.  (The directory of the benchmark under [logs] is another
    matter: the constructor makes it when it is missing.) *)
Theorem missing_logs_dir_aborts_construction
  (run : BenchmarkRun StatMapping) (w : World) :
  exists_ (fs w) (PosixPath.join (getcwd w) [T "logs"]) = false ->
  exists w',
    __init__ run w = (Raise (Exit 1), w')
    /\ construct_and_start popen run w = (Raise (Exit 1), w')
    /\ fs w' = fs w
    /\ trace w' = trace w
    /\ stderr w' = stderr w ++ [log_root_message].
Proof.
  intros H. exists (add_stderr log_root_message w).
  pose proof (init_missing_root StatMapping run w H) as E.
  split; [exact E|]. split.
  - unfold construct_and_start, bind. rewrite E. reflexivity.
  - repeat split.
Qed.

(** C1.  Whenever [start] has run a task and the process runner has ended
    otherwise than by returning 0, [start] raises: [BenchmarkTaskError]
    with the task and the cause when the runner raised, and
    [BenchmarkTaskFailed] with the task and the code when it returned a
    non-zero code.  In the world in which the exception is raised the
    message of the task's phase has been written to [stderr], and the
    failed call is the last event of the run: no task and no extraction
    follows it. *)
Theorem failing_task_aborts_run
  (self : CliBenchmarkRun StatMapping) (w w' : World)
  (r : result (list (text * StatMapping))) (evs : list Event)
  (task : Task) (outcome : result Z) :
  start popen self w = (r, w') ->
  trace w' = trace w ++ evs ->
  In (EvTask task outcome) evs ->
  outcome <> Return 0%Z ->
  r = Raise (exception_for task outcome)
  /\ (exists earlier, evs = earlier ++ [EvTask task outcome])
  /\ exists m,
      stderr w' = stderr w ++ [m]
      /\ designated_message (get_id (benchmark (benchmark_run self)))
           (setup (benchmark_run self)) (run (benchmark_run self)) task m.
Proof.
  intros H Tr Hin Hne.
  destruct (start_spec _ popen _ _ _ _ H) as (evs0 & errs & T0 & S0 & R0).
  rewrite T0 in Tr. apply app_inv_head in Tr. subst evs0.
  destruct (start_failed_event _ _ _ _ _ _ _ _ _ _ _ R0 Hin
              (failure_of_exception task outcome Hne))
    as (-> & L & m & -> & D).
  split; [reflexivity|]. split; [exact L|].
  exists m. split; [exact S0|exact D].
Qed.

(** C2.  In a run with setup tasks [A; B] and one preset with the single
    task [C]: if [B] has been run, as the second task, and the process
    runner has ended otherwise than by returning 0, then the run consists
    of the two calls for [A] and [B] and nothing else, so [C] is never run
    and no stats are extracted, and the exception raised is the one for
    [B]. *)
Theorem setup_failure_skips_presets
  (self : CliBenchmarkRun StatMapping) (w w' : World)
  (r : result (list (text * StatMapping))) (evs : list Event)
  (A B C : Task) (preset : Preset) (outcome : result Z) :
  setup (benchmark_run self) = [A; B] ->
  run (benchmark_run self) = [(preset, [C])] ->
  start popen self w = (r, w') ->
  trace w' = trace w ++ evs ->
  nth_error evs 1 = Some (EvTask B outcome) ->
  outcome <> Return 0%Z ->
  evs = [EvTask A (Return 0%Z); EvTask B outcome]
  /\ r = Raise (exception_for B outcome)
  /\ exn_task (exception_for B outcome) = Some B
  /\ (forall n log, ~ In (EvStats n log) evs).
Proof.
  intros Hs Hr H Tr Hnth Hne.
  destruct (start_spec _ popen _ _ _ _ H) as (evs0 & errs & T0 & S0 & R0).
  rewrite T0 in Tr. apply app_inv_head in Tr. subst evs0.
  rewrite Hs, Hr in R0.
  assert (E : evs = [EvTask A (Return 0%Z); EvTask B outcome]).
  { inversion R0 as [y evs' errs' P|r' evs' errs' Q]; subst.
    - inversion P as [|done task rest o x Ed Hf]; subst.
      destruct done as [|d1 [|d2 done]].
      + discriminate Hnth.
      + cbn [app] in Ed. injection Ed as <- <- <-.
        cbn [map app nth_error] in Hnth. injection Hnth as <-.
        reflexivity.
      + cbn [app] in Ed. injection Ed as _ _ Ed.
        destruct done; discriminate Ed.
    - cbn [map app nth_error] in Hnth. unfold ok_event in Hnth.
      injection Hnth as <-. contradiction. }
  split; [exact E|].
  assert (Hin : In (EvTask B outcome) evs)
    by (rewrite E; right; left; reflexivity).
  destruct (start_failed_event _ _ _ _ _ _ _ _ _ _ _ R0 Hin
              (failure_of_exception B outcome Hne)) as (-> & _).
  split; [reflexivity|]. split.
  - apply (failure_of_task B outcome), failure_of_exception, Hne.
  - intros n log I. rewrite E in I.
    destruct I as [I|[I|[]]]; discriminate I.
Qed.


End SequencerClaims.

(** * Worked runs

    The statements above, at the machine of [Scenario]. *)

Import Scenario.

(** The constructor at work: with [logs] in place it makes the directory
    of the benchmark and the directory of the run. *)
Lemma init_in_world_clock1 :
  __init__ run_A_C (world clock1) = (Return (constructed run_A_C), ready).
Proof. vm_compute. reflexivity. Qed.


Lemma get_log_path_is_dir_slash_id_log_witness :
  __init__ run_A_C (world clock1) = (Return (constructed run_A_C), ready)
  /\ phase_identifier (T "run_" ++ T "p1")
  /\ _get_log_path (constructed run_A_C) (T "run_" ++ T "p1")
     = log_dir (constructed run_A_C)
         ++ slash :: (T "run_" ++ T "p1") ++ T ".log"
  /\ forall other : CliBenchmarkRun Stats,
       log_dir other = log_dir (constructed run_A_C) ->
       _get_log_path other (T "run_" ++ T "p1")
       = _get_log_path (constructed run_A_C) (T "run_" ++ T "p1").
Proof.
  split; [exact init_in_world_clock1|].
  split; [exact (phase_run (T "p1"))|].
  exact (get_log_path_is_dir_slash_id_log Stats run_A_C (world clock1) ready
           (constructed run_A_C) (T "run_" ++ T "p1")
           init_in_world_clock1 (phase_run (T "p1"))).
Defined.


(** C4 as first stated fails: here the directory of the benchmark under
    [logs] does not exist, and the constructor succeeds and makes it. *)
Lemma benchmark_log_root_created_implicitly :
  PosixPath.join (getcwd (world clock1)) [T "logs"; T "bench1"]
  = T "/cwd/logs/bench1"
  /\ exists_ (fs (world clock1)) (T "/cwd/logs/bench1") = false
  /\ __init__ run_A_C (world clock1) = (Return (constructed run_A_C), ready)
  /\ is_dir (fs ready) (T "/cwd/logs/bench1") = true.
Proof. vm_compute. repeat split; reflexivity. Qed.

Lemma missing_logs_dir_aborts_construction_witness :
  exists_ (fs (bare_world clock1))
    (PosixPath.join (getcwd (bare_world clock1)) [T "logs"]) = false
  /\ exists w',
      __init__ run_A_C (bare_world clock1) = (Raise (Exit 1), w')
      /\ construct_and_start sh run_A_C (bare_world clock1)
         = (Raise (Exit 1), w')
      /\ fs w' = fs (bare_world clock1)
      /\ trace w' = trace (bare_world clock1)
      /\ stderr w' = stderr (bare_world clock1) ++ [log_root_message].
Proof.
  assert (H : exists_ (fs (bare_world clock1))
                (PosixPath.join (getcwd (bare_world clock1)) [T "logs"])
              = false) by (vm_compute; reflexivity).
  split; [exact H|].
  exact (missing_logs_dir_aborts_construction Stats sh run_A_C
           (bare_world clock1) H).
Defined.



Lemma run_task_spawn_failure_writes_nothing_witness :
  sh Missing (fs ready) = SpawnFailed (FileNotFoundError (T "nosuch"))
  /\ exists w',
      _run_task sh Missing setup_log ready
      = (Raise (FileNotFoundError (T "nosuch")), w')
      /\ fs w' = fs ready
      /\ read_file (fs w') setup_log = read_file (fs ready) setup_log
      /\ spinner w' = spinner ready ++ [SpWrite (PStr (echoed Missing))].
Proof.
  assert (H : sh Missing (fs ready)
              = SpawnFailed (FileNotFoundError (T "nosuch")))
    by (vm_compute; reflexivity).
  split; [exact H|].
  exact (run_task_spawn_failure_writes_nothing sh Missing setup_log ready _ H).
Defined.

(** The child has been launched and has exited with code 0; the exception
    comes from decoding its output, and is reported as a failure to
    start. *)
Lemma run_task_or_err_wraps_any_exception_witness :
  sh Latin1 (fs ready) = Spawned [xe9; x0a] 0
  /\ _run_task sh Latin1 setup_log ready
     = (Raise (UnicodeDecodeError [xe9; x0a]),
        snd (_run_task sh Latin1 setup_log ready))
  /\ _run_task_or_err sh Latin1 setup_log (T "failed") ready
     = (Raise (BenchmarkTaskError Latin1 (UnicodeDecodeError [xe9; x0a])),
        add_stderr (T "failed")
          (add_trace (EvTask Latin1 (Raise (UnicodeDecodeError [xe9; x0a])))
             (snd (_run_task sh Latin1 setup_log ready)))).
Proof.
  assert (H : _run_task sh Latin1 setup_log ready
              = (Raise (UnicodeDecodeError [xe9; x0a]),
                 snd (_run_task sh Latin1 setup_log ready)))
    by (vm_compute; reflexivity).
  split; [vm_compute; reflexivity|]. split; [exact H|].
  exact (run_task_or_err_wraps_any_exception sh Latin1 setup_log (T "failed")
           ready _ _ H).
Defined.

(** The same when the log file cannot be opened: the child has been
    launched, [open] fails because the directory is missing. *)
Lemma open_failure_reported_as_spawn_failure :
  sh A (fs (world clock1)) = Spawned (ascii_bytes (T "setup-ok") ++ [x0a]) 0
  /\ fst (_run_task_or_err sh A setup_log (T "failed") (world clock1))
     = Raise (BenchmarkTaskError A (FileNotFoundError setup_log)).
Proof. vm_compute. split; reflexivity. Qed.

(** A setup task that exits with 1: the run ends there. *)
Lemma failing_task_aborts_run_witness :
  let out := start sh (constructed run_AB_C) ready in
  start sh (constructed run_AB_C) ready = (fst out, snd out)
  /\ trace (snd out) = trace ready ++ trace (snd out)
  /\ In (EvTask B (Return 1%Z)) (trace (snd out))
  /\ fst out = Raise (BenchmarkTaskFailed B 1)
  /\ (exists earlier,
        trace (snd out) = earlier ++ [EvTask B (Return 1%Z)])
  /\ exists m,
      stderr (snd out) = stderr ready ++ [m]
      /\ designated_message (T "bench1") [A; B] [(p1, [C])] B m.
Proof.
  cbv zeta.
  assert (H1 : start sh (constructed run_AB_C) ready
               = (fst (start sh (constructed run_AB_C) ready),
                  snd (start sh (constructed run_AB_C) ready)))
    by (vm_compute; reflexivity).
  assert (H2 : trace (snd (start sh (constructed run_AB_C) ready))
               = trace ready
                   ++ trace (snd (start sh (constructed run_AB_C) ready)))
    by (vm_compute; reflexivity).
  assert (H3 : In (EvTask B (Return 1%Z))
                 (trace (snd (start sh (constructed run_AB_C) ready))))
    by (vm_compute; right; left; reflexivity).
  assert (H4 : Return 1%Z <> Return 0%Z) by discriminate.
  split; [exact H1|]. split; [exact H2|]. split; [exact H3|].
  exact (failing_task_aborts_run Stats sh (constructed run_AB_C) ready _ _ _
           B (Return 1%Z) H1 H2 H3 H4).
Defined.

Lemma setup_failure_skips_presets_witness :
  let out := start sh (constructed run_AB_C) ready in
  start sh (constructed run_AB_C) ready = (fst out, snd out)
  /\ nth_error (trace (snd out)) 1 = Some (EvTask B (Return 1%Z))
  /\ trace (snd out) = [EvTask A (Return 0%Z); EvTask B (Return 1%Z)]
  /\ fst out = Raise (exception_for B (Return 1%Z))
  /\ exn_task (exception_for B (Return 1%Z)) = Some B
  /\ (forall n log, ~ In (EvStats n log) (trace (snd out))).
Proof.
  cbv zeta.
  assert (H1 : start sh (constructed run_AB_C) ready
               = (fst (start sh (constructed run_AB_C) ready),
                  snd (start sh (constructed run_AB_C) ready)))
    by (vm_compute; reflexivity).
  assert (H2 : trace (snd (start sh (constructed run_AB_C) ready))
               = trace ready
                   ++ trace (snd (start sh (constructed run_AB_C) ready)))
    by (vm_compute; reflexivity).
  assert (H3 : nth_error (trace (snd (start sh (constructed run_AB_C) ready)))
                 1 = Some (EvTask B (Return 1%Z)))
    by (vm_compute; reflexivity).
  assert (H4 : Return 1%Z <> Return 0%Z) by discriminate.
  split; [exact H1|]. split; [exact H3|].
  exact (setup_failure_skips_presets Stats sh (constructed run_AB_C) ready
           _ _ _ A B C p1 (Return 1%Z) eq_refl eq_refl H1 H2 H3 H4).
Defined.




(** * More properties *)

(** ** More on lines and UTF-8 *)

Lemma decode_app (n : nat) :
  forall (a b : bytes) (ta : text),
    (List.length a <= n)%nat ->
    Utf8.decode a = Some ta ->
    Utf8.decode (a ++ b) = option_map (app ta) (Utf8.decode b).
Proof.
  induction n as [|n IH]; intros a b ta L H.
  - destruct a; [|simpl in L; lia]. injection H as <-. cbn [app].
    destruct (Utf8.decode b); reflexivity.
  - destruct a as [|b0 r0].
    { injection H as <-. cbn [app]. destruct (Utf8.decode b); reflexivity. }
    rewrite decode_cons in H. cbv zeta in H.
    cbn [app]. rewrite decode_cons. cbv zeta.
    assert (K : forall (r : bytes) (c : codepoint) (t : text),
               (List.length r <= n)%nat ->
               option_map (cons c) (Utf8.decode r) = Some t ->
               option_map (cons c) (Utf8.decode (r ++ b))
               = option_map (app t) (Utf8.decode b)).
    { intros r c t Lr Hr. apply option_map_some in Hr.
      destruct Hr as (t' & Hr & ->). rewrite (IH r b t' Lr Hr).
      destruct (Utf8.decode b); reflexivity. }
    destruct (N.ltb (Byte.to_N b0) 128).
    { apply K; [simpl in L; lia|exact H]. }
    destruct (Utf8.between 194 223 (Byte.to_N b0)).
    { destruct r0 as [|b1 r1]; [discriminate|]. cbn [app].
      destruct (Utf8.cont (Byte.to_N b1)); [|discriminate].
      apply K; [simpl in L; lia|exact H]. }
    destruct (Utf8.between 224 239 (Byte.to_N b0)).
    { destruct r0 as [|b1 [|b2 r2]]; try discriminate. cbn [app].
      destruct (Utf8.second3 (Byte.to_N b0) (Byte.to_N b1) &&
                Utf8.cont (Byte.to_N b2)); [|discriminate].
      apply K; [simpl in L; lia|exact H]. }
    destruct (Utf8.between 240 244 (Byte.to_N b0)); [|discriminate].
    destruct r0 as [|b1 [|b2 [|b3 r3]]]; try discriminate. cbn [app].
    destruct (Utf8.second4 (Byte.to_N b0) (Byte.to_N b1) &&
              Utf8.cont (Byte.to_N b2) && Utf8.cont (Byte.to_N b3));
      [|discriminate].
    apply K; [simpl in L; lia|exact H].
Qed.

Lemma decode_lines_concat (lines : list bytes) (txt : text) :
  decode_lines lines = Some txt ->
  Utf8.decode (List.concat lines) = Some txt.
Proof.
  revert txt. induction lines as [|l lines IH]; intros txt H.
  - injection H as <-. reflexivity.
  - cbn [decode_lines] in H.
    destruct (Utf8.decode l) as [s|] eqn:El; [|discriminate].
    apply option_map_some in H. destruct H as (rest & Hr & ->).
    cbn [List.concat].
    rewrite (decode_app _ l (List.concat lines) s (le_n _) El), (IH _ Hr).
    reflexivity.
Qed.

Lemma decode_lines_first_undecodable (lines : list bytes) :
  decode_lines lines = None <-> first_undecodable lines <> None.
Proof.
  induction lines as [|l lines IH]; cbn [decode_lines first_undecodable].
  - split; [discriminate|intros H; contradiction].
  - destruct (Utf8.decode l).
    + rewrite <- IH. destruct (decode_lines lines); simpl;
        split; intros K; try discriminate K; reflexivity.
    + split; [discriminate|reflexivity].
Qed.

(** Decoding line by line succeeds exactly when decoding the whole stream
    does, with the same text. *)
Lemma decode_lines_readlines_iff (out : bytes) (txt : text) :
  decode_lines (readlines out) = Some txt <-> Utf8.decode out = Some txt.
Proof.
  split.
  - intros H. apply decode_lines_concat in H.
    rewrite readlines_concat in H. exact H.
  - apply decode_lines_readlines.
Qed.


Lemma readline_line_shape (s : bytes) :
  no_newline (strip_newline (fst (readline s))) = true.
Proof.
  induction s as [|b r IH]; [reflexivity|].
  destruct (is_nl b) eqn:E.
  - rewrite (readline_cons_nl b r E). cbn [fst].
    unfold strip_newline. cbn [rev app]. rewrite E. reflexivity.
  - rewrite (readline_cons_other b r E). cbn [fst].
    unfold strip_newline in *. cbn [rev].
    destruct (rev (fst (readline r))) as [|x l] eqn:R.
    + cbn [app]. rewrite E. unfold no_newline. cbn [forallb].
      rewrite E.
      assert (fst (readline r) = []) as ->
          by (apply (f_equal (@rev _)) in R; rewrite rev_involutive in R;
              exact R).
      reflexivity.
    + cbn [app]. destruct (is_nl x) eqn:Ex.
      * rewrite rev_app_distr. cbn [rev app]. unfold no_newline in *.
        cbn [forallb]. rewrite E. exact IH.
      * unfold no_newline in *. cbn [forallb]. rewrite E. exact IH.
Qed.

Lemma iter_readline_lines (rounds : nat) :
  forall (s line : bytes),
    In line (iter_readline rounds s) ->
    line <> [] /\ no_newline (strip_newline line) = true.
Proof.
  induction rounds as [|k IH]; intros s line H; [destruct H|].
  cbn [iter_readline] in H.
  pose proof (readline_line_shape s) as Sh.
  destruct (readline s) as [l rest]. cbn [fst] in Sh.
  destruct l as [|x l]; [destruct H|].
  destruct H as [<-|H].
  - split; [discriminate|exact Sh].
  - apply (IH rest), H.
Qed.

Section MoreOnTheProcessRunner.

Variable popen : Task -> FileSystem -> PopenResult.

Lemma run_task_returns_when (task : Task) (log_path : text) (w : World)
  (rc : Z) :
  fst (_run_task popen task log_path w) = Return rc
  <-> exists out txt,
        popen task (fs w) = Spawned out rc
        /\ open_append_error (fs w) log_path = None
        /\ Utf8.decode out = Some txt.
Proof.
  split.
  - intros H.
    destruct (popen task (fs w)) as [out rc'|e] eqn:Hp.
    2:{ rewrite (run_task_spawn_failure popen task log_path w e Hp) in H.
        discriminate H. }
    destruct (open_append_error (fs w) log_path) as [e|] eqn:Ho.
    { rewrite (run_task_open_failure popen task log_path w _ _ _ Hp Ho) in H.
      discriminate H. }
    destruct (decode_lines (readlines out)) as [txt|] eqn:Hd.
    + destruct (run_task_returns popen task log_path w out rc' txt Hp Ho Hd)
        as (w' & E & _).
      rewrite E in H. injection H as <-.
      exists out, txt. repeat split. apply decode_lines_readlines_iff, Hd.
    + apply decode_lines_first_undecodable in Hd.
      destruct (first_undecodable (readlines out)) as [l|] eqn:Hu;
        [|contradiction].
      destruct (run_task_decode_failure popen task log_path w out rc' l
                  Hp Ho Hu) as (w' & E).
      rewrite E in H. discriminate H.
  - intros (out & txt & Hp & Ho & Hd).
    destruct (run_task_returns popen task log_path w out rc txt Hp Ho
                (decode_lines_readlines _ _ Hd)) as (w' & E & _).
    rewrite E. reflexivity.
Qed.




(** X4.  When the log file cannot be opened, the child has been launched
    all the same, and its output is lost: the file system is as it was,
    and the status sink has received the echoed command and no line. *)
Theorem unopened_log_loses_output (task : Task) (log_path : text)
  (w : World) (out : bytes) (rc : Z) (e : exn) :
  popen task (fs w) = Spawned out rc ->
  open_append_error (fs w) log_path = Some e ->
  exists w',
    _run_task popen task log_path w = (Raise e, w')
    /\ fs w' = fs w
    /\ spinner w' = spinner w ++ [SpWrite (PStr (echoed task))].
Proof.
  intros Hp Ho. eexists. split.
  - apply (run_task_open_failure popen task log_path w out rc e Hp Ho).
  - split; reflexivity.
Qed.

(** X5.  However it ends, the process runner leaves [stderr], [stdout] and
    the directories alone, keeps every file other than its log as it was,
    and only ever adds to the end of its log. *)
Theorem run_task_only_appends_to_its_log (task : Task) (log_path : text)
  (w : World) :
  frame log_path w (snd (_run_task popen task log_path w)).
Proof.
  destruct (_run_task popen task log_path w) as [r w'] eqn:E.
  apply (run_task_frame popen task log_path w r w' E).
Qed.

(** X6.  [_run_task_or_err] returns exactly when the process runner has
    returned 0, and then it has written nothing to [stderr]; any other
    return code, negative ones too, is a failure. *)
Theorem run_task_or_err_returns_iff (task : Task)
  (log_path err_message : text) (w : World) :
  (fst (_run_task_or_err popen task log_path err_message w) = Return tt
   <-> fst (_run_task popen task log_path w) = Return 0%Z)
  /\ (fst (_run_task_or_err popen task log_path err_message w) = Return tt ->
      stderr (snd (_run_task_or_err popen task log_path err_message w))
      = stderr w).
Proof.
  rewrite run_task_or_err_step.
  destruct (_run_task popen task log_path w) as [o w1] eqn:E.
  pose proof (run_task_frame popen task log_path _ _ _ E) as (_ & Fe & _).
  cbn [fst]. destruct (failure_of task o) as [x|] eqn:Hf.
  - cbn [fst]. split; [split|]; intros K; try discriminate K.
    subst o. discriminate Hf.
  - apply failure_of_none in Hf. subst o. cbn [fst snd].
    split; [split; reflexivity|]. intros _. exact Fe.
Qed.

End MoreOnTheProcessRunner.

(** X7.  The lines the loop of the process runner goes through are never
    empty, and what it hands to the status sink for a line never holds a
    newline byte. *)
Theorem sink_lines_hold_no_newline (out line : bytes) :
  In line (readlines out) ->
  line <> [] /\ no_newline (strip_newline line) = true.
Proof. apply iter_readline_lines. Qed.

(** ** The order of a run *)

Lemma filter_task_ok_events (tasks : list Task) :
  filter is_task_event (map ok_event tasks) = map ok_event tasks.
Proof.
  induction tasks as [|t ts IH]; [reflexivity|].
  cbn [map filter ok_event is_task_event]. rewrite IH. reflexivity.
Qed.


Lemma phase_in_order (msg : Task -> text) (tasks : list Task)
  (r : result unit) (evs : list Event) (errs : list text) :
  phase_result msg tasks r evs errs ->
  exists failed done rest,
    in_order tasks evs failed done rest
    /\ (forall t o, failed = Some (t, o) ->
          o <> Return 0%Z /\ r = Raise (exception_for t o))
    /\ (r = Return tt -> failed = None /\ rest = []).
Proof.
  intros R. inversion R as [|done task rest o x Ed Hf]; subst.
  - exists None, tasks, []. split; [split|split].
    + cbn [failed_event]. rewrite app_nil_r. apply filter_task_ok_events.
    + cbn [failed_task app]. rewrite app_nil_r. reflexivity.
    + intros t o K. discriminate K.
    + auto.
  - exists (Some (task, o)), done, rest. split; [split|split].
    + rewrite filter_app, filter_task_ok_events. reflexivity.
    + reflexivity.
    + intros t o' K. injection K as <- <-.
      assert (N : o <> Return 0%Z) by (intros ->; discriminate Hf).
      rewrite (failure_of_exception task o N) in Hf.
      injection Hf as <-. split; [exact N|reflexivity].
    + intros K. discriminate K.
Qed.

Lemma filter_task_stats_event (n log : text) (evs : list Event) :
  filter is_task_event (EvStats n log :: evs) = filter is_task_event evs.
Proof. reflexivity. Qed.

Lemma run_in_order {V} (get : text -> V) (msg : Preset -> Task -> text)
  (presets : list (Preset * list Task)) (stats : list (text * V))
  (r : result (list (text * V))) (evs : list Event) (errs : list text) :
  run_result get msg presets stats r evs errs ->
  exists failed done rest,
    in_order (flat_map snd presets) evs failed done rest
    /\ (forall t o, failed = Some (t, o) ->
          o <> Return 0%Z /\ r = Raise (exception_for t o))
    /\ (forall final, r = Return final -> failed = None /\ rest = []).
Proof.
  intros R. induction R as
      [stats|preset tasks rest stats log r evs errs R IH
      |preset tasks rest stats y evs errs P|preset rest stats e He].
  - exists None, [], []. split; [split; reflexivity|split].
    + intros t o K. discriminate K.
    + intros final K. split; reflexivity.
  - destruct IH as (failed & done & todo & (F & D) & Hf & Hr).
    exists failed, (tasks ++ done), todo. split; [split|split].
    + rewrite filter_app, filter_task_ok_events, filter_task_stats_event, F.
      rewrite map_app, <- app_assoc. reflexivity.
    + cbn [flat_map snd]. rewrite D, <- app_assoc. reflexivity.
    + exact Hf.
    + exact Hr.
  - destruct (phase_in_order _ _ _ _ _ P)
      as (failed & done & todo & (F & D) & Hf & _).
    exists failed, done, (todo ++ flat_map snd rest). split; [split|split].
    + exact F.
    + cbn [flat_map snd]. rewrite D, <- !app_assoc. reflexivity.
    + intros t o K. destruct (Hf t o K) as (N & E). split; [exact N|].
      injection E as ->. reflexivity.
    + intros final K. discriminate K.
  - exists None, [], (flat_map snd rest). split; [split; reflexivity|split].
    + intros t o K. discriminate K.
    + intros final K. discriminate K.
Qed.

Lemma start_in_order {V} (get : text -> V)
  (setup_msg : Task -> text) (msg : Preset -> Task -> text)
  (setup_tasks : list Task) (presets : list (Preset * list Task))
  (r : result (list (text * V))) (evs : list Event) (errs : list text) :
  start_result get setup_msg msg setup_tasks presets r evs errs ->
  exists failed done rest,
    in_order (all_tasks setup_tasks presets) evs failed done rest
    /\ (forall t o, failed = Some (t, o) ->
          o <> Return 0%Z /\ r = Raise (exception_for t o))
    /\ (forall final, r = Return final -> failed = None /\ rest = []).
Proof.
  intros R. inversion R as [y evs' errs' P|r' evs' errs' Q]; subst.
  - destruct (phase_in_order _ _ _ _ _ P)
      as (failed & done & todo & (F & D) & Hf & _).
    exists failed, done, (todo ++ flat_map snd presets).
    split; [split|split].
    + exact F.
    + unfold all_tasks. rewrite D, <- !app_assoc. reflexivity.
    + intros t o K. destruct (Hf t o K) as (N & E). split; [exact N|].
      injection E as ->. reflexivity.
    + intros final K. discriminate K.
  - destruct (run_in_order _ _ _ _ _ _ _ Q)
      as (failed & done & todo & (F & D) & Hf & Hr).
    exists failed, (setup_tasks ++ done), todo. split; [split|split].
    + rewrite filter_app, filter_task_ok_events, F, map_app, <- app_assoc.
      reflexivity.
    + unfold all_tasks. rewrite D, <- app_assoc. reflexivity.
    + exact Hf.
    + exact Hr.
Qed.

Lemma stats_event_not_ok (tasks : list Task) (n log : text) :
  ~ In (EvStats n log) (map ok_event tasks).
Proof.
  intros H. apply in_map_iff in H. destruct H as (t & E & _).
  discriminate E.
Qed.

Lemma run_extraction_after_phase {V} (get : text -> V)
  (msg : Preset -> Task -> text)
  (presets : list (Preset * list Task)) (stats : list (text * V))
  (r : result (list (text * V))) (evs : list Event) (errs : list text)
  (n log : text) :
  run_result get msg presets stats r evs errs ->
  In (EvStats n log) evs ->
  exists e1 e2 preset tasks,
    In (preset, tasks) presets /\ name preset = n
    /\ evs = e1 ++ map ok_event tasks ++ EvStats n log :: e2.
Proof.
  intros R. induction R as
      [stats|preset tasks rest stats log0 r evs errs R IH
      |preset tasks rest stats y evs errs P|preset rest stats e He];
    intros Hin.
  - destruct Hin.
  - apply in_app_or in Hin. destruct Hin as [Hin|[E|Hin]].
    + exfalso. eapply stats_event_not_ok, Hin.
    + injection E as <- <-.
      exists [], evs, preset, tasks. repeat split. left. reflexivity.
    + destruct (IH Hin) as (e1 & e2 & p & ts & I & En & ->).
      exists (map ok_event tasks ++ EvStats (name preset) log0 :: e1),
             e2, p, ts.
      split; [right; exact I|]. split; [exact En|].
      rewrite <- app_assoc. reflexivity.
  - exfalso. inversion P; subst.
    apply in_app_or in Hin. destruct Hin as [Hin|[E|[]]].
    + eapply stats_event_not_ok, Hin.
    + discriminate E.
  - destruct Hin.
Qed.

Lemma start_errs_at_most_one {V} (get : text -> V)
  (setup_msg : Task -> text) (msg : Preset -> Task -> text)
  (setup_tasks : list Task) (presets : list (Preset * list Task))
  (r : result (list (text * V))) (evs : list Event) (errs : list text) :
  start_result get setup_msg msg setup_tasks presets r evs errs ->
  (forall final, r = Return final -> errs = [])
  /\ (List.length errs <= 1)%nat.
Proof.
  assert (P1 : forall m tasks (r0 : result unit) evs0 errs0,
             phase_result m tasks r0 evs0 errs0 ->
             (List.length errs0 <= 1)%nat).
  { intros m tasks r0 evs0 errs0 P. inversion P; subst; simpl; lia. }
  assert (P2 : forall ps st r0 evs0 errs0,
             run_result get msg ps st r0 evs0 errs0 ->
             (forall final, r0 = Return final -> errs0 = [])
             /\ (List.length errs0 <= 1)%nat).
  { intros ps st r0 evs0 errs0 Q. induction Q.
    - split; [reflexivity|simpl; lia].
    - exact IHQ.
    - split; [intros final K; discriminate K|eapply P1; eassumption].
    - split; [reflexivity|simpl; lia]. }
  intros R. inversion R as [y evs' errs' P|r' evs' errs' Q]; subst.
  - split; [intros final K; discriminate K|eapply P1; eassumption].
  - eapply P2; eassumption.
Qed.

Lemma keys_dict_set_order {V} (d : list (text * V)) (k : text) (v : V) :
  keys (dict_set d k v)
  = if in_dec text_eq_dec k (keys d) then keys d else keys d ++ [k].
Proof.
  unfold keys. induction d as [|[k' v'] d IH]; cbn [dict_set map fst].
  - destruct (in_dec text_eq_dec k []) as [[]|_]. reflexivity.
  - destruct (text_eqb k k') eqn:E.
    + apply text_eqb_eq in E. subst k'. cbn [map fst].
      destruct (in_dec text_eq_dec k (k :: map fst d)) as [_|N];
        [reflexivity|].
      exfalso. apply N. left. reflexivity.
    + cbn [map fst]. rewrite IH.
      assert (Nk : k' <> k).
      { intros ->. rewrite text_eqb_refl in E. discriminate E. }
      destruct (in_dec text_eq_dec k (map fst d)) as [I|I];
        destruct (in_dec text_eq_dec k (k' :: map fst d)) as [J|J];
        try reflexivity.
      * exfalso. apply J. right. exact I.
      * exfalso. destruct J as [J|J]; [contradiction|contradiction].
Qed.

Lemma stats_after_keys {V} (get : text -> V)
  (presets : list (Preset * list Task)) :
  forall (logs : list text) (stats : list (text * V)),
    List.length logs = List.length presets ->
    NoDup (keys stats ++ preset_names presets) ->
    keys (stats_after get presets logs stats)
    = keys stats ++ preset_names presets.
Proof.
  induction presets as [|[p ts] rest IH]; intros logs stats L N.
  - destruct logs; [|discriminate L]. cbn. rewrite app_nil_r. reflexivity.
  - destruct logs as [|log logs]; [discriminate L|].
    cbn [stats_after]. cbn [preset_names map fst] in *.
    injection L as L.
    assert (Hk : keys (dict_set stats (name p) (get log))
                 = keys stats ++ [name p]).
    { rewrite keys_dict_set_order.
      destruct (in_dec text_eq_dec (name p) (keys stats)) as [I|_];
        [|reflexivity].
      exfalso. apply NoDup_remove_2 in N. apply N.
      apply in_or_app. left. exact I. }
    rewrite IH; [|exact L|].
    + rewrite Hk, <- app_assoc. reflexivity.
    + rewrite Hk, <- app_assoc. exact N.
Qed.

(** ** What [start] writes *)

Lemma quiet_refl (w : World) : quiet w w.
Proof. repeat split. Qed.

Lemma quiet_trans (w1 w2 w3 : World) :
  quiet w1 w2 -> quiet w2 w3 -> quiet w1 w3.
Proof.
  intros (A1 & B1 & C1) (A2 & B2 & C2). repeat split; congruence.
Qed.

Lemma preserves_for_fold {X S} (P : World -> World -> Prop)
  (xs : list X) (body : X -> S -> M S) :
  (forall w, P w w) ->
  (forall w1 w2 w3, P w1 w2 -> P w2 w3 -> P w1 w3) ->
  (forall x s, preserves P (body x s)) ->
  forall s, preserves P (for_fold xs s body).
Proof.
  intros R Tr Hb. induction xs as [|x xs IH]; intros s; cbn [for_fold].
  - apply preserves_ret, R.
  - apply preserves_bind; auto.
Qed.

Lemma preserves_modify_quiet (f : World -> World) :
  (forall w, quiet w (f w)) -> preserves quiet (modify f).
Proof. intros H w r w' E. injection E as _ <-. apply H. Qed.

Section WhatStartWrites.

Variable StatMapping : Type.
Variable popen : Task -> FileSystem -> PopenResult.

Lemma run_task_or_err_quiet (task : Task) (lp msg : text) :
  preserves quiet (_run_task_or_err popen task lp msg).
Proof.
  intros w r w' H. rewrite run_task_or_err_step in H.
  destruct (_run_task popen task lp w) as [o w1] eqn:E.
  pose proof (run_task_frame popen task lp _ _ _ E)
    as (_ & _ & A & B & C & _).
  destruct (failure_of task o); injection H as _ <-;
    repeat split; assumption.
Qed.

Lemma task_body_quiet (label lp msg : text) (task : Task) :
  preserves quiet
    (spinner_set_text label ;; _run_task_or_err popen task lp msg).
Proof.
  apply preserves_bind; [apply quiet_trans| |].
  - apply preserves_modify_quiet. intros w. repeat split.
  - intros _. apply run_task_or_err_quiet.
Qed.

Lemma run_body_quiet (self : CliBenchmarkRun StatMapping)
  (entry : Preset * list Task) (stats : list (text * StatMapping)) :
  preserves quiet (run_body popen self entry stats).
Proof.
  unfold run_body.
  apply preserves_bind; [apply quiet_trans| |].
  { apply preserves_modify_quiet. intros w. repeat split. }
  intros _. apply preserves_bind; [apply quiet_trans| |].
  { apply preserves_for_each; [apply quiet_refl|apply quiet_trans|].
    intros task. apply task_body_quiet. }
  intros _. apply preserves_bind; [apply quiet_trans| |].
  { intros w r w' H. unfold open_read in H.
    destruct (is_dir (fs w) _); [injection H as _ <-; apply quiet_refl|].
    destruct (read_file (fs w) _); injection H as _ <-; apply quiet_refl. }
  intros output. apply preserves_bind; [apply quiet_trans| |].
  { apply preserves_modify_quiet. intros w. repeat split. }
  intros _. apply preserves_ret, quiet_refl.
Qed.

Lemma start_quiet (self : CliBenchmarkRun StatMapping) :
  preserves quiet (start popen self).
Proof.
  unfold start.
  apply preserves_bind; [apply quiet_trans| |].
  { apply preserves_modify_quiet. intros w. repeat split. }
  intros _. apply preserves_bind; [apply quiet_trans| |].
  { apply preserves_for_each; [apply quiet_refl|apply quiet_trans|].
    intros task. apply task_body_quiet. }
  intros _. apply preserves_for_fold;
    [apply quiet_refl|apply quiet_trans|].
  intros entry stats. apply run_body_quiet.
Qed.

(** [start] as its two loops. *)
Lemma start_phases (self : CliBenchmarkRun StatMapping) (w w' : World)
  (r : result (list (text * StatMapping))) :
  start popen self w = (r, w') ->
  exists r1 w0 w1,
    fs w0 = fs w
    /\ for_each (setup (benchmark_run self)) (setup_body popen self) w0
       = (r1, w1)
    /\ match r1 with
       | Return _ =>
         for_fold (run (benchmark_run self)) [] (run_body popen self) w1
         = (r, w')
       | Raise x => r = Raise x /\ w' = w1
       end.
Proof.
  intros H. unfold start in H.
  unfold bind at 1 in H. unfold spinner_write at 1, modify in H.
  set (w0 := add_spinner _ w) in H.
  unfold bind at 1 in H.
  destruct (for_each (setup (benchmark_run self)) (setup_body popen self) w0)
    as [r1 w1] eqn:E1.
  exists r1, w0, w1. split; [reflexivity|]. split; [exact E1|].
  destruct r1 as [[]|x]; [exact H|].
  injection H as <- <-. split; reflexivity.
Qed.

Lemma setup_loop_frame (self : CliBenchmarkRun StatMapping) (w w' : World)
  (r : result unit) :
  for_each (setup (benchmark_run self)) (setup_body popen self) w = (r, w') ->
  fs_frame (_get_log_path self (T "setup")) (fs w) (fs w').
Proof.
  intros H.
  apply (phase_loop_spec popen
           (fun task =>
              get_id (benchmark (benchmark_run self)) ++ T "(setup): "
                ++ Shlex.join (args task))
           (setup_err_message (get_id (benchmark (benchmark_run self))))
           (_get_log_path self (T "setup"))
           (setup (benchmark_run self)) w w' r H).
Qed.

Lemma setup_log_is_no_run_log (self : CliBenchmarkRun StatMapping)
  (n : text) :
  _get_log_path self (T "setup") <> _get_log_path self (T "run_" ++ n).
Proof.
  unfold _get_log_path, PosixPath.join. cbn [fold_left].
  rewrite !join2_relative by reflexivity.
  intros E. apply app_inv_head in E. apply app_inv_head in E.
  discriminate E.
Qed.

Lemma start_files (self : CliBenchmarkRun StatMapping) (w w' : World)
  (r : result (list (text * StatMapping))) :
  start popen self w = (r, w') ->
  fs_grows (fs w) (fs w')
  /\ forall q,
      q <> _get_log_path self (T "setup") ->
      (forall n, In n (preset_names (run (benchmark_run self))) ->
                 q <> _get_log_path self (T "run_" ++ n)) ->
      read_file (fs w') q = read_file (fs w) q.
Proof.
  intros H.
  destruct (start_phases self w w' r H) as (r1 & w0 & w1 & E0 & H1 & H2).
  pose proof (setup_loop_frame self w0 w1 r1 H1) as F. rewrite E0 in F.
  destruct r1 as [[]|x].
  - destruct (run_loop_files StatMapping popen self _ _ _ _ _ H2)
      as (G & O).
    split.
    + eapply fs_grows_trans; [eapply fs_frame_grows, F|exact G].
    + intros q Hs Hr. rewrite (O q Hr). destruct F as (_ & Fo & _).
      apply Fo, Hs.
  - destruct H2 as (_ & ->). split.
    + eapply fs_frame_grows, F.
    + intros q Hs _. destruct F as (_ & Fo & _). apply Fo, Hs.
Qed.

(** X8.  However it ends, [start] makes and removes no directory, writes
    nothing to [stdout], keeps every file other than the log of the setup
    phase and the logs of the selected presets as it was, and only ever
    adds to the end of a file. *)
Theorem start_only_appends_to_its_logs
  (self : CliBenchmarkRun StatMapping) (w : World) :
  let w' := snd (start popen self w) in
  dirs (fs w') = dirs (fs w)
  /\ stdout w' = stdout w
  /\ (forall p c, read_file (fs w) p = Some c ->
        exists extra, read_file (fs w') p = Some (c ++ extra))
  /\ (forall q,
        q <> _get_log_path self (T "setup") ->
        (forall n, In n (preset_names (run (benchmark_run self))) ->
                   q <> _get_log_path self (T "run_" ++ n)) ->
        read_file (fs w') q = read_file (fs w) q).
Proof.
  cbv zeta. destruct (start popen self w) as [r w'] eqn:E. cbn [snd].
  destruct (start_files self w w' r E) as ((D & G) & O).
  destruct (start_quiet self w r w' E) as (Q & _).
  repeat split; assumption.
Qed.

(** X9.  [start] writes at most one message to [stderr], and none when it
    returns. *)
Theorem start_writes_at_most_one_error
  (self : CliBenchmarkRun StatMapping) (w : World) :
  let out := start popen self w in
  exists errs,
    stderr (snd out) = stderr w ++ errs
    /\ (List.length errs <= 1)%nat
    /\ (forall stats, fst out = Return stats -> errs = []).
Proof.
  cbv zeta. destruct (start popen self w) as [r w'] eqn:E. cbn [fst snd].
  destruct (start_spec StatMapping popen self w w' r E)
    as (evs & errs & _ & S & R).
  destruct (start_errs_at_most_one _ _ _ _ _ _ _ _ R) as (A & B).
  exists errs. repeat split; assumption.
Qed.

(** X10.  In every run, ended well or not, the calls of the process runner
    follow the order of the tasks: first those of the setup phase, then
    those of the presets as selected.  The calls made are a beginning of
    that list, all with outcome 0 but possibly the last; a call with
    another outcome is the last one and gives the exception of the run;
    and a run that returns has gone through the whole list. *)
Theorem tasks_run_in_declared_order
  (self : CliBenchmarkRun StatMapping) (w w' : World)
  (r : result (list (text * StatMapping))) (evs : list Event) :
  start popen self w = (r, w') ->
  trace w' = trace w ++ evs ->
  exists failed done rest,
    filter is_task_event evs = map ok_event done ++ failed_event failed
    /\ all_tasks (setup (benchmark_run self)) (run (benchmark_run self))
       = done ++ failed_task failed ++ rest
    /\ (forall t o, failed = Some (t, o) ->
          o <> Return 0%Z /\ r = Raise (exception_for t o))
    /\ (forall stats, r = Return stats -> failed = None /\ rest = []).
Proof.
  intros H Tr.
  destruct (start_spec StatMapping popen self w w' r H)
    as (evs0 & errs & T0 & _ & R).
  rewrite T0 in Tr. apply app_inv_head in Tr. subst evs0.
  destruct (start_in_order _ _ _ _ _ _ _ _ R)
    as (failed & done & rest & (F & D) & Hf & Hr).
  exists failed, done, rest. auto.
Qed.

(** X11.  In every run, ended well or not, an extraction for a preset
    name comes right after the calls, all with outcome 0, for all the tasks
    of a selected preset of that name. *)
Theorem extraction_follows_its_phase
  (self : CliBenchmarkRun StatMapping) (w w' : World)
  (r : result (list (text * StatMapping))) (evs : list Event)
  (n log : text) :
  start popen self w = (r, w') ->
  trace w' = trace w ++ evs ->
  In (EvStats n log) evs ->
  exists e1 e2 preset tasks,
    In (preset, tasks) (run (benchmark_run self))
    /\ name preset = n
    /\ evs = e1 ++ map ok_event tasks ++ EvStats n log :: e2.
Proof.
  intros H Tr Hin.
  destruct (start_spec StatMapping popen self w w' r H)
    as (evs0 & errs & T0 & _ & R).
  rewrite T0 in Tr. apply app_inv_head in Tr. subst evs0.
  inversion R as [y evs' errs' P|r' evs' errs' Q]; subst.
  - exfalso. inversion P; subst.
    apply in_app_or in Hin. destruct Hin as [Hin|[E|[]]].
    + eapply stats_event_not_ok, Hin.
    + discriminate E.
  - apply in_app_or in Hin. destruct Hin as [Hin|Hin].
    + exfalso. eapply stats_event_not_ok, Hin.
    + destruct (run_extraction_after_phase _ _ _ _ _ _ _ _ _ Q Hin)
        as (e1 & e2 & p & ts & I & En & ->).
      exists (map ok_event (setup (benchmark_run self)) ++ e1), e2, p, ts.
      split; [exact I|]. split; [exact En|].
      rewrite <- app_assoc. reflexivity.
Qed.

(** X12.  When no two selected presets have the same name, the keys of the
    dictionary [start] returns are the names of the selected presets in
    the order of selection. *)
Theorem stats_keys_in_selection_order
  (self : CliBenchmarkRun StatMapping) (w w' : World)
  (stats : list (text * StatMapping)) :
  start popen self w = (Return stats, w') ->
  NoDup (preset_names (run (benchmark_run self))) ->
  keys stats = preset_names (run (benchmark_run self)).
Proof.
  intros H N.
  destruct (start_spec StatMapping popen self w w' _ H)
    as (evs & errs & _ & _ & R).
  inversion R as [|r' evs' errs' Q]; subst.
  destruct (run_return_shape _ _ _ _ _ _ _ Q stats eq_refl)
    as (logs & L & _ & -> & _).
  apply (stats_after_keys _ _ logs [] L). exact N.
Qed.

(** X13.  With no preset selected, [start] runs the setup tasks and
    returns the empty dictionary, unless a setup task fails. *)
Theorem start_without_presets
  (self : CliBenchmarkRun StatMapping) (w w' : World)
  (r : result (list (text * StatMapping))) :
  run (benchmark_run self) = [] ->
  start popen self w = (r, w') ->
  (r = Return []
   /\ trace w' = trace w ++ map ok_event (setup (benchmark_run self)))
  \/ (exists task outcome,
        In task (setup (benchmark_run self))
        /\ outcome <> Return 0%Z
        /\ r = Raise (exception_for task outcome)).
Proof.
  intros Hr H.
  destruct (start_spec StatMapping popen self w w' r H)
    as (evs & errs & T0 & _ & R).
  rewrite Hr in R.
  inversion R as [y evs' errs' P|r' evs' errs' Q]; subst.
  - right. inversion P as [|done task rest o x Ed Hf]; subst.
    assert (N : o <> Return 0%Z) by (intros ->; discriminate Hf).
    rewrite (failure_of_exception task o N) in Hf. injection Hf as <-.
    exists task, o. split; [|split; [exact N|reflexivity]].
    rewrite Ed. apply in_or_app. right. left. reflexivity.
  - left. inversion Q; subst. split; [reflexivity|].
    rewrite T0, app_nil_r. reflexivity.
Qed.

End WhatStartWrites.

(** ** What the logs hold after a run *)

Lemma content_append (f : FileSystem) (p s : text) :
  read_file (append_fs f p s) p = Some (content f p ++ s).
Proof.
  rewrite read_append_same. unfold content.
  destruct (read_file f p); reflexivity.
Qed.

Section LogsAfterARun.

Variable StatMapping : Type.
Variable popen : Task -> FileSystem -> PopenResult.

Lemma task_step_log (label lp msg : text) (task : Task) (w w' : World) :
  (spinner_set_text label ;; _run_task_or_err popen task lp msg) w
  = (Return tt, w') ->
  exists s, section_of popen task s /\ fs w' = append_fs (fs w) lp s.
Proof.
  unfold bind at 1. unfold spinner_set_text, modify.
  rewrite run_task_or_err_step.
  set (w0 := add_spinner (SpText label) w).
  destruct (_run_task popen task lp w0) as [o w1] eqn:E.
  destruct (failure_of task o) as [x|] eqn:Hf; [discriminate|].
  apply failure_of_none in Hf. subst o. intros H. injection H as <-.
  assert (E' : fst (_run_task popen task lp w0) = Return 0%Z)
    by (rewrite E; reflexivity).
  apply run_task_returns_when in E'.
  destruct E' as (out & txt & Hp & Ho & Hd).
  destruct (run_task_returns popen task lp w0 out 0 txt Hp Ho
              (decode_lines_readlines _ _ Hd)) as (w2 & E2 & Hfs & _).
  rewrite E in E2. injection E2 as <-.
  exists (echoed task ++ newline :: txt). split.
  - exists (fs w0), out, txt. auto.
  - exact Hfs.
Qed.

Lemma phase_loop_log (label msg : Task -> text) (lp : text)
  (tasks : list Task) :
  forall (w w' : World),
    for_each tasks
      (fun task => spinner_set_text (label task) ;;
                   _run_task_or_err popen task lp (msg task)) w
    = (Return tt, w') ->
    exists sections,
      Forall2 (section_of popen) tasks sections
      /\ fs w' = match tasks with
                 | [] => fs w
                 | _ => append_fs (fs w) lp (List.concat sections)
                 end.
Proof.
  induction tasks as [|task tasks IH]; intros w w' H.
  - injection H as <-. exists []. split; [constructor|reflexivity].
  - cbn [for_each] in H. unfold bind at 1 in H.
    destruct ((spinner_set_text (label task) ;;
               _run_task_or_err popen task lp (msg task)) w)
      as [[[]|x] w1] eqn:E1; [|discriminate].
    destruct (task_step_log _ _ _ _ _ _ E1) as (s & Hs & F1).
    destruct (IH _ _ H) as (sections & Hss & F2).
    exists (s :: sections). split; [constructor; assumption|].
    cbn [List.concat]. rewrite F2. destruct tasks.
    + inversion Hss; subst. cbn [List.concat]. rewrite app_nil_r. exact F1.
    + rewrite F1. apply append_append.
Qed.

(** A phase that completes leaves in its log what was there and then the
    sections of its tasks, in order. *)
Lemma phase_loop_content (label msg : Task -> text) (lp : text)
  (tasks : list Task) (w w' : World) :
  for_each tasks
    (fun task => spinner_set_text (label task) ;;
                 _run_task_or_err popen task lp (msg task)) w
  = (Return tt, w') ->
  exists sections,
    Forall2 (section_of popen) tasks sections
    /\ content (fs w') lp = content (fs w) lp ++ List.concat sections
    /\ (tasks <> [] -> read_file (fs w') lp
                       = Some (content (fs w) lp ++ List.concat sections)).
Proof.
  intros H. destruct (phase_loop_log label msg lp tasks w w' H)
    as (sections & Hss & F).
  exists sections. split; [exact Hss|]. destruct tasks.
  - inversion Hss; subst. rewrite F. cbn [List.concat].
    rewrite app_nil_r. split; [reflexivity|intros N; contradiction].
  - rewrite F. unfold content at 1. rewrite content_append.
    split; [reflexivity|intros _; reflexivity].
Qed.

Variable self : CliBenchmarkRun StatMapping.

Lemma run_body_content (preset : Preset) (tasks : list Task)
  (stats final : list (text * StatMapping)) (w w' : World) :
  run_body popen self (preset, tasks) stats w = (Return final, w') ->
  let lp := _get_log_path self (T "run_" ++ name preset) in
  exists sections,
    Forall2 (section_of popen) tasks sections
    /\ read_file (fs w') lp = Some (content (fs w) lp ++ List.concat sections)
    /\ final = dict_set stats (name preset)
                 (get_stats (benchmark_run self)
                    (universal_newlines
                       (content (fs w) lp ++ List.concat sections)))
    /\ fs_frame lp (fs w) (fs w')
    /\ trace w'
       = trace w ++ map ok_event tasks
           ++ [EvStats (name preset)
                 (universal_newlines
                    (content (fs w) lp ++ List.concat sections))].
Proof.
  intros H lp.
  destruct (run_body_returns StatMapping popen self _ _ _ _ _ _ H)
    as (log & _ & Rd & Tr & F).
  fold lp in F, Rd.
  unfold run_body in H. cbn [fst snd] in H.
  unfold bind at 1 in H. unfold spinner_write at 1, modify in H.
  set (w0 := add_spinner _ w) in H.
  unfold bind at 1 in H.
  destruct (for_each tasks (preset_body popen self preset) w0)
    as [[[]|x] w1] eqn:E1; [|discriminate].
  destruct (phase_loop_content
              (fun task =>
                 get_id (benchmark (benchmark_run self)) ++ T "(run:"
                   ++ name preset ++ T "): " ++ Shlex.join (args task))
              (preset_err_message (get_id (benchmark (benchmark_run self)))
                 preset)
              lp tasks w0 w1 E1) as (sections & Hss & C & _).
  change (fs w0) with (fs w) in C.
  fold lp in H. unfold bind at 1 in H. unfold open_read in H.
  destruct (is_dir (fs w1) lp); [discriminate|].
  destruct (read_file (fs w1) lp) as [c|] eqn:R1; [|discriminate].
  unfold bind at 1 in H. unfold modify, ret in H.
  unfold content at 1 in C. rewrite R1 in C. subst c.
  injection H as <- <-. cbn [fs add_trace] in Rd.
  rewrite R1 in Rd. injection Rd as <-.
  exists sections. split; [exact Hss|]. split; [exact R1|].
  split; [reflexivity|]. split; [exact F|exact Tr].
Qed.

Lemma run_loop_content (presets : list (Preset * list Task)) :
  forall (stats final : list (text * StatMapping)) (w w' : World),
    for_fold presets stats (run_body popen self) w = (Return final, w') ->
    NoDup (preset_names presets) ->
    forall preset tasks,
      In (preset, tasks) presets ->
      let lp := _get_log_path self (T "run_" ++ name preset) in
      exists sections,
        Forall2 (section_of popen) tasks sections
        /\ read_file (fs w') lp
           = Some (content (fs w) lp ++ List.concat sections)
        /\ lookup final (name preset)
           = Some (get_stats (benchmark_run self)
                     (universal_newlines
                        (content (fs w) lp ++ List.concat sections))).
Proof.
  induction presets as [|[p0 ts0] rest IH];
    intros stats final w w' H N preset tasks Hin lp.
  - destruct Hin.
  - apply for_fold_cons in H. destruct H as (s1 & w1 & H1 & H2).
    destruct (run_body_content _ _ _ _ _ _ H1)
      as (sections & Hss & Rd & -> & F & _).
    cbn [preset_names map fst] in N. inversion N as [|? ? Nin N']; subst.
    destruct (run_loop_values StatMapping popen self _ _ _ _ _ H2)
      as (_ & U2 & _).
    destruct (run_loop_files StatMapping popen self _ _ _ _ _ H2)
      as (_ & O2).
    destruct Hin as [E|Hin].
    + injection E as <- <-. exists sections. split; [exact Hss|]. split.
      * unfold lp. rewrite O2; [exact Rd|].
        intros n Hn En. apply run_log_path_inj in En. subst n.
        contradiction.
      * rewrite (U2 _ Nin). apply lookup_dict_set_same.
    + destruct (IH _ _ _ _ H2 N' preset tasks Hin)
        as (ss & Hs & Rd' & Lk).
      assert (Ne : name preset <> name p0).
      { intros En. apply Nin. rewrite <- En.
        apply in_map_iff. exists (preset, tasks). auto. }
      assert (C : content (fs w1) lp = content (fs w) lp).
      { unfold content. destruct F as (_ & Fo & _). rewrite Fo;
          [reflexivity|].
        intros En. apply run_log_path_inj in En. contradiction. }
      fold lp in Rd', Lk. rewrite C in Rd', Lk.
      exists ss. auto.
Qed.



(** X14.  When [start] returns, the log of the setup phase holds what it
    held before and then, task by task in their order, the echoed command
    and the output of each setup task. *)
Theorem setup_log_after_run (w w' : World)
  (stats : list (text * StatMapping)) :
  start popen self w = (Return stats, w') ->
  exists sections,
    Forall2 (section_of popen) (setup (benchmark_run self)) sections
    /\ content (fs w') (_get_log_path self (T "setup"))
       = content (fs w) (_get_log_path self (T "setup"))
           ++ List.concat sections.
Proof.
  intros H.
  destruct (start_phases StatMapping popen self w w' _ H)
    as (r1 & w0 & w1 & E0 & H1 & H2).
  destruct r1 as [[]|x]; [|destruct H2 as (K & _); discriminate K].
  destruct (phase_loop_content
              (fun task =>
                 get_id (benchmark (benchmark_run self)) ++ T "(setup): "
                   ++ Shlex.join (args task))
              (setup_err_message (get_id (benchmark (benchmark_run self))))
              (_get_log_path self (T "setup"))
              (setup (benchmark_run self)) w0 w1 H1)
    as (sections & Hss & C & _).
  rewrite E0 in C.
  destruct (run_loop_files StatMapping popen self _ _ _ _ _ H2) as (_ & O).
  exists sections. split; [exact Hss|].
  rewrite <- C. unfold content. rewrite O; [reflexivity|].
  intros n _. apply setup_log_is_no_run_log.
Qed.

(** X15.  When [start] returns and no two selected presets have the same
    name, the log of each preset holds what it held before the run and
    then, task by task in their order, the echoed command and the output
    of each task of the preset; the value under the name of the preset is
    the result of [get_stats] on that text as a reader in text mode gives
    it, that is, with universal newlines. *)
Theorem preset_log_and_stats_after_run (w w' : World)
  (stats : list (text * StatMapping))
  (preset : Preset) (tasks : list Task) :
  start popen self w = (Return stats, w') ->
  NoDup (preset_names (run (benchmark_run self))) ->
  In (preset, tasks) (run (benchmark_run self)) ->
  let lp := _get_log_path self (T "run_" ++ name preset) in
  exists sections,
    Forall2 (section_of popen) tasks sections
    /\ read_file (fs w') lp
       = Some (content (fs w) lp ++ List.concat sections)
    /\ lookup stats (name preset)
       = Some (get_stats (benchmark_run self)
                 (universal_newlines
                    (content (fs w) lp ++ List.concat sections))).
Proof.
  intros H N Hin lp.
  destruct (start_phases StatMapping popen self w w' _ H)
    as (r1 & w0 & w1 & E0 & H1 & H2).
  destruct r1 as [[]|x]; [|destruct H2 as (K & _); discriminate K].
  pose proof (setup_loop_frame StatMapping popen self w0 w1 _ H1) as F.
  rewrite E0 in F.
  destruct (run_loop_content _ _ _ _ _ H2 N preset tasks Hin)
    as (sections & Hss & Rd & Lk).
  assert (C : content (fs w1) lp = content (fs w) lp).
  { unfold content. destruct F as (_ & Fo & _). rewrite Fo; [reflexivity|].
    intros E. symmetry in E. revert E. apply setup_log_is_no_run_log. }
  fold lp in Rd, Lk. rewrite C in Rd, Lk.
  exists sections. auto.
Qed.

End LogsAfterARun.

(** ** More on the construction of a run *)

Lemma is_dir_app (f : FileSystem) (extra : list text) (q : text)
  (f' : FileSystem) :
  dirs f' = dirs f ++ extra ->
  is_dir f' q = is_dir f q || existsb (text_eqb q) extra.
Proof. intros D. unfold is_dir. rewrite D. apply existsb_app. Qed.

Lemma mkdir_fs_returns (f f' : FileSystem) (p : text) :
  mkdir_fs f p = Return f' ->
  exists_ f p = false /\ dirs f' = dirs f ++ [p] /\ files f' = files f.
Proof.
  unfold mkdir_fs. destruct (exists_ f p); [discriminate|].
  destruct (match PosixPath.dirname p with [] => true | _ => _ end);
    [|discriminate].
  intros H. injection H as <-. auto.
Qed.

Lemma exists_grows (f f' : FileSystem) (extra : list text) (q : text) :
  dirs f' = dirs f ++ extra -> files f' = files f ->
  exists_ f' q = exists_ f q || existsb (text_eqb q) extra.
Proof.
  intros D F. unfold exists_, read_file. rewrite F, (is_dir_app f extra q f' D).
  destruct (is_dir f q), (existsb (text_eqb q) extra),
    (lookup (files f) q); reflexivity.
Qed.

Section MoreOnConstruction.

Variable StatMapping : Type.


Lemma init_unfold (run : BenchmarkRun StatMapping) (w : World) :
  exists_ (fs w) (PosixPath.join (getcwd w) [T "logs"]) = true ->
  __init__ run w
  = ((if negb (exists_ (fs w) (PosixPath.dirname (run_dir StatMapping run w)))
      then mkdir (PosixPath.dirname (run_dir StatMapping run w)) else ret tt) ;;
     mkdir (run_dir StatMapping run w) ;;
     ret {| benchmark_run := run; log_dir := run_dir StatMapping run w |}) w.
Proof.
  intros H. unfold __init__, get_benchmark_log_dir.
  unfold bind at 1. rewrite H. cbn [negb].
  unfold bind at 1. unfold bind at 1. reflexivity.
Qed.

Lemma init_cases (run : BenchmarkRun StatMapping) (w w' : World)
  (self : CliBenchmarkRun StatMapping) :
  __init__ run w = (Return self, w') ->
  let dir := run_dir StatMapping run w in
  let parent := PosixPath.dirname dir in
  exists_ (fs w) (PosixPath.join (getcwd w) [T "logs"]) = true
  /\ self = {| benchmark_run := run; log_dir := dir |}
  /\ exists_ (fs w) dir = false
  /\ files (fs w') = files (fs w)
  /\ ((exists_ (fs w) parent = true /\ dirs (fs w') = dirs (fs w) ++ [dir])
      \/ (exists_ (fs w) parent = false
          /\ dirs (fs w') = dirs (fs w) ++ [parent; dir]))
  /\ spinner w' = spinner w /\ stdout w' = stdout w
  /\ stderr w' = stderr w /\ trace w' = trace w
  /\ getcwd w' = getcwd w /\ now w' = now w.
Proof.
  intros H dir parent.
  destruct (init_returns StatMapping run w w' self H) as (Hl & _).
  rewrite (init_unfold run w Hl) in H. fold dir in H. fold parent in H.
  split; [exact Hl|].
  unfold bind at 1 in H.
  destruct (exists_ (fs w) parent) eqn:Ep; cbn [negb] in H.
  - unfold ret at 1 in H. unfold bind at 1 in H. unfold mkdir in H.
    destruct (mkdir_fs (fs w) dir) as [f1|e] eqn:M; [|discriminate].
    unfold ret in H. injection H as <- <-.
    destruct (mkdir_fs_returns _ _ _ M) as (X & D & F).
    cbn [fs set_fs spinner stdout stderr trace getcwd now].
    repeat split; auto.
  - unfold mkdir at 1 in H.
    destruct (mkdir_fs (fs w) parent) as [f1|e] eqn:M1; [|discriminate].
    unfold bind at 1 in H. unfold mkdir in H. cbn [fs set_fs] in H.
    destruct (mkdir_fs f1 dir) as [f2|e] eqn:M2; [|discriminate].
    unfold ret in H. injection H as <- <-.
    destruct (mkdir_fs_returns _ _ _ M1) as (X1 & D1 & F1).
    destruct (mkdir_fs_returns _ _ _ M2) as (X2 & D2 & F2).
    cbn [fs set_fs spinner stdout stderr trace getcwd now].
    split; [reflexivity|]. split.
    { rewrite (exists_grows (fs w) f1 [parent] dir D1 F1) in X2.
      apply orb_false_iff in X2. apply X2. }
    split; [congruence|]. split.
    { right. split; [reflexivity|]. rewrite D2, D1, <- app_assoc.
      reflexivity. }
    repeat split.
Qed.

(** X16.  A construction that succeeds has made the directory of the run,
    which was not there before, and at most the directory above it; it has
    touched no file, removed no directory and printed nothing. *)
Theorem construction_makes_a_new_directory
  (run : BenchmarkRun StatMapping) (w w' : World)
  (self : CliBenchmarkRun StatMapping) :
  __init__ run w = (Return self, w') ->
  exists_ (fs w) (log_dir self) = false
  /\ is_dir (fs w') (log_dir self) = true
  /\ files (fs w') = files (fs w)
  /\ (dirs (fs w') = dirs (fs w) ++ [log_dir self]
      \/ dirs (fs w')
         = dirs (fs w) ++ [PosixPath.dirname (log_dir self); log_dir self])
  /\ stdout w' = stdout w /\ stderr w' = stderr w /\ trace w' = trace w.
Proof.
  intros H. destruct (init_cases run w w' self H)
    as (_ & -> & X & F & D & _ & So & Se & Tr & _).
  cbn [log_dir]. split; [exact X|]. split.
  - destruct D as [(_ & D)|(_ & D)];
      rewrite (is_dir_app (fs w) _ (run_dir StatMapping run w) (fs w') D);
      cbn [existsb]; rewrite text_eqb_refl;
      rewrite ?orb_true_r; reflexivity.
  - split; [exact F|]. split; [|auto].
    destruct D as [(_ & D)|(_ & D)]; [left|right]; exact D.
Qed.

(** X17.  A second construction for the same benchmark, from the same
    working directory and with the clock still showing the same second,
    finds the directory of the first and raises [FileExistsError]; it
    changes nothing. *)
Theorem construction_twice_in_a_second_fails
  (run run2 : BenchmarkRun StatMapping) (w w' w2 : World)
  (self : CliBenchmarkRun StatMapping) :
  __init__ run w = (Return self, w') ->
  get_id (benchmark run2) = get_id (benchmark run) ->
  getcwd w2 = getcwd w -> now w2 = now w -> fs w2 = fs w' ->
  __init__ run2 w2 = (Raise (FileExistsError (log_dir self)), w2).
Proof.
  intros H Hid Hc Hn Hf.
  destruct (init_cases run w w' self H)
    as (Hl & -> & X & F & D & _).
  cbn [log_dir].
  assert (Ed : run_dir StatMapping run2 w2 = run_dir StatMapping run w)
    by (unfold run_dir; rewrite Hid, Hc, Hn; reflexivity).
  assert (G : forall q extra, dirs (fs w') = dirs (fs w) ++ extra ->
                exists_ (fs w2) q
                = exists_ (fs w) q || existsb (text_eqb q) extra).
  { intros q extra De. rewrite Hf. apply exists_grows; assumption. }
  rewrite init_unfold.
  2:{ rewrite Hc. destruct D as [(_ & D)|(_ & D)];
        rewrite (G _ _ D), Hl; reflexivity. }
  rewrite Ed.
  assert (Ep : exists_ (fs w2) (PosixPath.dirname (run_dir StatMapping run w)) = true).
  { destruct D as [(P & D)|(_ & D)]; rewrite (G _ _ D).
    - rewrite P. reflexivity.
    - cbn [existsb]. rewrite text_eqb_refl, orb_true_r. reflexivity. }
  assert (Ex : exists_ (fs w2) (run_dir StatMapping run w) = true).
  { destruct D as [(_ & D)|(_ & D)]; rewrite (G _ _ D); cbn [existsb];
      rewrite text_eqb_refl, ?orb_true_r; reflexivity. }
  unfold bind at 1. rewrite Ep. cbn [negb]. unfold ret at 1.
  unfold bind at 1. unfold mkdir, mkdir_fs. rewrite Ex. reflexivity.
Qed.

End MoreOnConstruction.









Section ConstructionSucceeds.

Variable StatMapping : Type.



End ConstructionSucceeds.

(** ** Splitting the search path *)

Lemma split_on_cons (c : codepoint) (s : text) :
  exists h t, split_on c s = h :: t.
Proof.
  induction s as [|x r IH]; cbn [split_on]; [eauto|].
  destruct (N.eqb x c); [eauto|].
  destruct IH as (h & t & ->). eauto.
Qed.

(** X19.  Splitting a text at a separator character gives at least one
    part and parts without the separator, and joining the parts with the
    separator gives the text back: the directories searched are those of
    the search path, entry by entry. *)
Theorem split_on_join (c : codepoint) (s : text) :
  join_with c (split_on c s) = s
  /\ split_on c s <> []
  /\ Forall (fun part => forallb (fun x => negb (N.eqb x c)) part = true)
       (split_on c s).
Proof.
  induction s as [|x r (IHj & IHn & IHf)]; cbn [split_on].
  - repeat split; [discriminate|repeat constructor].
  - destruct (N.eqb x c) eqn:E.
    + apply N.eqb_eq in E. subst x. split; [|split].
      * destruct (split_on_cons c r) as (h & t & Hs). rewrite Hs in *.
        rewrite <- IHj. reflexivity.
      * discriminate.
      * constructor; [reflexivity|exact IHf].
    + destruct (split_on_cons c r) as (h & t & Hs). rewrite Hs in *.
      split; [|split].
      * rewrite <- IHj. destruct t; reflexivity.
      * discriminate.
      * inversion IHf as [|? ? Hh Ht]; subst. constructor; [|exact Ht].
        cbn [forallb]. rewrite E, Hh. reflexivity.
Qed.

(** ** Finding a benchmark *)

Lemma find_app_first {A} (p : A -> bool) (a b : list A) :
  find p (a ++ b)
  = match find p a with Some x => Some x | None => find p b end.
Proof.
  induction a as [|x a IH]; [reflexivity|].
  cbn [app find]. destruct (p x); [reflexivity|exact IH].
Qed.

Section Discovery.

Variable V : Type.
Variable listdir : FileSystem -> text -> option (list text).
Variable from_definition_file : text -> BenchmarkModel V.



Lemma add_stderrs_nil (w : World) : add_stderrs [] w = w.
Proof. destruct w. unfold add_stderrs. cbn. rewrite app_nil_r. reflexivity. Qed.

Lemma add_stderrs_app (a b : list text) (w : World) :
  add_stderrs b (add_stderrs a w) = add_stderrs (a ++ b) w.
Proof. unfold add_stderrs. cbn. rewrite app_assoc. reflexivity. Qed.

Lemma search_dir_spec (path : text) (w : World) :
  search_dir V listdir from_definition_file path w
  = (Return (found_in V listdir from_definition_file (fs w) [path]),
     add_stderrs (complaints listdir (fs w) [path]) w).
Proof.
  unfold search_dir, found_in, complaints. cbn [flat_map].
  destruct (listdir (fs w) path).
  - rewrite !app_nil_r, add_stderrs_nil. reflexivity.
  - destruct w. reflexivity.
Qed.

Lemma found_in_cons (f : FileSystem) (path : text) (rest : list text) :
  found_in V listdir from_definition_file f (path :: rest) = found_in V listdir from_definition_file f [path] ++ found_in V listdir from_definition_file f rest.
Proof. unfold found_in. cbn [flat_map]. rewrite app_nil_r. reflexivity. Qed.

Lemma complaints_cons (f : FileSystem) (path : text) (rest : list text) :
  complaints listdir f (path :: rest) = complaints listdir f [path] ++ complaints listdir f rest.
Proof. unfold complaints. cbn [flat_map]. rewrite app_nil_r. reflexivity. Qed.

Lemma search_loop_spec (paths : list text) :
  forall (found : list (BenchmarkModel V)) (w : World),
    for_fold paths found
      (fun path found =>
         more <- search_dir V listdir from_definition_file path ;;
         ret (found ++ more)) w
    = (Return (found ++ found_in V listdir from_definition_file (fs w) paths),
       add_stderrs (complaints listdir (fs w) paths) w).
Proof.
  induction paths as [|path rest IH]; intros found w.
  - cbn. rewrite app_nil_r, add_stderrs_nil. reflexivity.
  - cbn [for_fold]. unfold bind at 1. unfold bind at 1.
    rewrite search_dir_spec. unfold ret at 1.
    rewrite IH. cbn [fs add_stderrs]. rewrite add_stderrs_app.
    rewrite (found_in_cons (fs w) path rest).
    rewrite (complaints_cons (fs w) path rest).
    rewrite <- app_assoc. reflexivity.
Qed.

Lemma find_in_spec (id : text) (paths : list text) :
  forall (w : World),
    find_in V listdir from_definition_file paths id w
    = (Return (find (has_id V id) (found_in V listdir from_definition_file (fs w) paths)),
       add_stderrs (complaints listdir (fs w) (visited V listdir from_definition_file (fs w) paths id)) w).
Proof.
  induction paths as [|path rest IH]; intros w.
  - cbn. rewrite add_stderrs_nil. reflexivity.
  - cbn [find_in]. unfold bind at 1. rewrite search_dir_spec.
    rewrite (found_in_cons (fs w) path rest).
    rewrite find_app_first. cbn [visited].
    destruct (find (has_id V id) (found_in V listdir from_definition_file (fs w) [path])) as [x|].
    + reflexivity.
    + rewrite IH. cbn [fs add_stderrs]. rewrite add_stderrs_app.
      rewrite (complaints_cons (fs w) path (visited V listdir from_definition_file (fs w) rest id)).
      reflexivity.
Qed.

Lemma complaints_visited (f : FileSystem) (id : text) (paths : list text) :
  exists later,
    complaints listdir f paths = complaints listdir f (visited V listdir from_definition_file f paths id) ++ later.
Proof.
  induction paths as [|path rest (later & IH)].
  - exists []. reflexivity.
  - cbn [visited]. rewrite (complaints_cons f path rest).
    destruct (find (has_id V id) (found_in V listdir from_definition_file f [path])).
    + exists (complaints listdir f rest). reflexivity.
    + exists later.
      rewrite (complaints_cons f path (visited V listdir from_definition_file f rest id)).
      rewrite IH, app_assoc. reflexivity.
Qed.

Variable search_path : text.

(** X20.  When a full search of the search path returns, [find_benchmark]
    returns the first benchmark with the identifier among those the search
    yields, or nothing when there is none.  It leaves the file system and
    [stdout] alone, and writes to [stderr] no more than the full search
    does: the directories after the one of the benchmark found are not
    looked at. *)
Theorem find_benchmark_is_first_of_search (id : text) (w w1 : World)
  (found : list (BenchmarkModel V)) :
  search_benchmarks V listdir from_definition_file search_path w
  = (Return found, w1) ->
  exists w0 later,
    find_benchmark V listdir from_definition_file search_path id w
    = (Return (find (has_id V id) found), w0)
    /\ fs w0 = fs w /\ stdout w0 = stdout w
    /\ stderr w1 = stderr w0 ++ later.
Proof.
  unfold search_benchmarks, find_benchmark.
  rewrite search_loop_spec, find_in_spec. cbn [app].
  intros H. injection H as <- <-.
  destruct (complaints_visited (fs w) id (search_dirs search_path))
    as (later & E).
  eexists. exists later. split; [reflexivity|].
  split; [reflexivity|]. split; [reflexivity|].
  cbn [stderr add_stderrs]. rewrite E, app_assoc. reflexivity.
Qed.

(** X21.  A benchmark that [find_benchmark] returns has the identifier
    asked for and has been read from a file [benchmark.json] that exists
    in a directory listed under [<entry>/benchmarks] for an entry of the
    search path. *)
Theorem find_benchmark_found (id : text) (w w' : World)
  (b : BenchmarkModel V) :
  find_benchmark V listdir from_definition_file search_path id w
  = (Return (Some b), w') ->
  get_id (model_benchmark V b) = id
  /\ exists entry entries dir,
      In entry (split_on colon search_path)
      /\ listdir (fs w) (PosixPath.join entry [T "benchmarks"])
         = Some entries
      /\ In dir entries
      /\ exists_ (fs w)
           (definition_file (PosixPath.join entry [T "benchmarks"]) dir)
         = true
      /\ b = from_definition_file
               (definition_file (PosixPath.join entry [T "benchmarks"]) dir).
Proof.
  unfold find_benchmark. rewrite find_in_spec. intros H.
  injection H as H _. apply find_some in H. destruct H as (Hin & Hid).
  split; [apply text_eqb_eq, Hid|].
  unfold found_in in Hin. apply in_flat_map in Hin.
  destruct Hin as (path & Hp & Hb).
  unfold search_dirs in Hp. apply in_map_iff in Hp.
  destruct Hp as (entry & <- & He).
  destruct (listdir (fs w) (PosixPath.join entry [T "benchmarks"]))
    as [entries|] eqn:L; [|destruct Hb].
  unfold benchmarks_in in Hb. apply in_flat_map in Hb.
  destruct Hb as (dir & Hd & Hb).
  destruct (exists_ (fs w)
              (definition_file (PosixPath.join entry [T "benchmarks"]) dir))
    eqn:X; [|destruct Hb].
  destruct Hb as [<-|[]].
  exists entry, entries, dir. auto.
Qed.

End Discovery.

(** ** The exceptions of a run *)

Lemma raises_only_ret {A} (P : exn -> Prop) (a : A) : raises_only P (ret a).
Proof. intros w e w' H. discriminate H. Qed.

Lemma raises_only_modify (P : exn -> Prop) (f : World -> World) :
  raises_only P (modify f).
Proof. intros w e w' H. discriminate H. Qed.

Lemma raises_only_bind {A B} (P : exn -> Prop) (c : M A) (k : A -> M B) :
  raises_only P c -> (forall a, raises_only P (k a)) ->
  raises_only P (bind c k).
Proof.
  intros Hc Hk w e w' H. unfold bind in H.
  destruct (c w) as [[a|x] w1] eqn:E.
  - eapply Hk, H.
  - injection H as <- _. eapply Hc, E.
Qed.

Lemma raises_only_for_each {X} (P : exn -> Prop) (xs : list X)
  (body : X -> M unit) :
  (forall x, raises_only P (body x)) -> raises_only P (for_each xs body).
Proof.
  intros Hb. induction xs as [|x xs IH]; cbn [for_each].
  - apply raises_only_ret.
  - apply raises_only_bind; auto.
Qed.

Lemma raises_only_for_fold {X S} (P : exn -> Prop) (xs : list X)
  (body : X -> S -> M S) :
  (forall x s, raises_only P (body x s)) ->
  forall s, raises_only P (for_fold xs s body).
Proof.
  intros Hb. induction xs as [|x xs IH]; intros s; cbn [for_fold].
  - apply raises_only_ret.
  - apply raises_only_bind; auto.
Qed.

Lemma raises_only_weaken {A} (P Q : exn -> Prop) (c : M A) :
  (forall e, P e -> Q e) -> raises_only P c -> raises_only Q c.
Proof. intros I H w e w' E. eapply I, H, E. Qed.

Section ExceptionsOfARun.

Variable StatMapping : Type.
Variable popen : Task -> FileSystem -> PopenResult.

Lemma run_task_or_err_raises (task : Task) (lp msg : text) :
  raises_only (fun e => is_BenchmarkRunException e = true)
    (_run_task_or_err popen task lp msg).
Proof.
  intros w e w' H. rewrite run_task_or_err_step in H.
  destruct (_run_task popen task lp w) as [outcome w1].
  cbv zeta in H. destruct outcome as [ret_|x]; cbn [failure_of] in H.
  - destruct (negb (Z.eqb ret_ 0)); [|discriminate H].
    injection H as <- _. reflexivity.
  - injection H as <- _. reflexivity.
Qed.

Lemma open_read_raises (p : text) :
  raises_only (fun e => is_file_error e = true) (open_read p).
Proof.
  intros w e w' H. unfold open_read in H.
  destruct (is_dir (fs w) p).
  - injection H as <- _. reflexivity.
  - destruct (read_file (fs w) p); [discriminate H|].
    injection H as <- _. unfold no_such_directory.
    destruct (not_a_directory (fs w) p); reflexivity.
Qed.

Lemma start_raises (self : CliBenchmarkRun StatMapping) :
  raises_only
    (fun e => is_BenchmarkRunException e = true \/ is_file_error e = true)
    (start popen self).
Proof.
  unfold start.
  apply raises_only_bind; [apply raises_only_modify|]. intros _.
  apply raises_only_bind.
  { apply raises_only_for_each. intros task. unfold setup_body.
    apply raises_only_bind; [apply raises_only_modify|]. intros _.
    eapply raises_only_weaken; [|apply run_task_or_err_raises].
    intros e He. left. exact He. }
  intros _. apply raises_only_for_fold. intros entry stats.
  unfold run_body.
  apply raises_only_bind; [apply raises_only_modify|]. intros _.
  apply raises_only_bind.
  { apply raises_only_for_each. intros task. unfold preset_body.
    apply raises_only_bind; [apply raises_only_modify|]. intros _.
    eapply raises_only_weaken; [|apply run_task_or_err_raises].
    intros e He. left. exact He. }
  intros _. apply raises_only_bind.
  { eapply raises_only_weaken; [|apply open_read_raises].
    intros e He. right. exact He. }
  intros output. apply raises_only_bind; [apply raises_only_modify|].
  intros _. apply raises_only_ret.
Qed.

Lemma mkdir_raises (p : text) :
  raises_only (fun e => is_file_error e = true) (mkdir p).
Proof.
  intros w e w' H. unfold mkdir in H.
  destruct (mkdir_fs (fs w) p) as [f|x] eqn:E; [discriminate H|].
  injection H as <- _. unfold mkdir_fs in E.
  destruct (exists_ (fs w) p); [injection E as <-; reflexivity|].
  destruct (match PosixPath.dirname p with [] => true | _ => _ end);
    [discriminate E|].
  injection E as <-. unfold no_such_directory.
  destruct (not_a_directory (fs w) p); reflexivity.
Qed.

Lemma init_raises (run : BenchmarkRun StatMapping) :
  raises_only (fun e => e = Exit 1 \/ is_file_error e = true)
    (__init__ run).
Proof.
  unfold __init__. apply raises_only_bind.
  { intros w e w' H. unfold get_benchmark_log_dir in H.
    destruct (negb (exists_ (fs w) (PosixPath.join (getcwd w) [T "logs"])));
      [|discriminate H].
    left. injection H as <- _. reflexivity. }
  intros base. apply raises_only_bind.
  { intros w e w' H. discriminate H. }
  intros stamp. cbv zeta. apply raises_only_bind.
  { intros w e w' H. discriminate H. }
  intros parent_exists. apply raises_only_bind.
  { destruct (negb parent_exists); [|apply raises_only_ret].
    eapply raises_only_weaken; [|apply mkdir_raises]. auto. }
  intros _. apply raises_only_bind; [|intros _; apply raises_only_ret].
  eapply raises_only_weaken; [|apply mkdir_raises]. auto.
Qed.

End ExceptionsOfARun.

(** ** The commands *)

Section TheRunCommand.

Variable V : Type.
Variable popen : Task -> FileSystem -> PopenResult.
Variable str_task : Task -> text.
Variable str_exn : exn -> text.
Variable dumps : list (text * list (text * V)) -> text.
Variable tabulate : list (text * text * V) -> list text -> text.
Variable listdir : FileSystem -> text -> option (list text).
Variable from_definition_file : text -> BenchmarkModel V.
Variable search_path : text.

Lemma lookup_loop_known (benchmark : BenchmarkModel V) (id : text)
  (names : list text) (presets : list Preset) :
  Forall2 (fun n p => get_preset V benchmark n = Some p) names presets ->
  forall (acc : list Preset) (w : World),
    for_fold names acc
      (fun n ps =>
         match get_preset V benchmark n with
         | None => echo (preset_not_found n id) false ;; raise (Exit 1)
         | Some preset => ret (ps ++ [preset])
         end) w
    = (Return (acc ++ presets), w).
Proof.
  induction 1 as [|n p names presets Hn _ IH]; intros acc w.
  - cbn. rewrite app_nil_r. reflexivity.
  - cbn [for_fold]. unfold bind at 1. rewrite Hn. unfold ret at 1.
    rewrite IH, <- app_assoc. reflexivity.
Qed.

Lemma lookup_presets_known (benchmark : BenchmarkModel V) (id : text)
  (names : list text) (presets : list Preset) (w : World) :
  Forall2 (fun n p => get_preset V benchmark n = Some p) names presets ->
  lookup_presets V benchmark id names w = (Return presets, w).
Proof. intros H. apply (lookup_loop_known benchmark id names presets H []). Qed.

Lemma lookup_presets_unknown (benchmark : BenchmarkModel V) (id : text)
  (known : list text) (presets : list Preset) (bad : text)
  (rest : list text) (w : World) :
  Forall2 (fun n p => get_preset V benchmark n = Some p) known presets ->
  get_preset V benchmark bad = None ->
  lookup_presets V benchmark id (known ++ bad :: rest) w
  = (Raise (Exit 1), add_stdout (preset_not_found bad id) w).
Proof.
  intros Hk Hb. unfold lookup_presets. generalize (@nil Preset) at 1.
  induction Hk as [|n p known presets Hn _ IH]; intros acc.
  - cbn [app for_fold]. unfold bind at 1. rewrite Hb. reflexivity.
  - cbn [app for_fold]. unfold bind at 1. rewrite Hn. unfold ret at 1.
    apply IH.
Qed.

Lemma lookup_presets_raises (benchmark : BenchmarkModel V) (id : text)
  (names : list text) :
  raises_only (fun e => e = Exit 1) (lookup_presets V benchmark id names).
Proof.
  unfold lookup_presets. apply raises_only_for_fold. intros n ps.
  destruct (get_preset V benchmark n); [apply raises_only_ret|].
  intros w e w' H. injection H as <- _. reflexivity.
Qed.

Lemma find_benchmark_returns (id : text) (w : World) :
  exists found w0,
    find_benchmark V listdir from_definition_file search_path id w
    = (Return found, w0)
    /\ fs w0 = fs w /\ stdout w0 = stdout w.
Proof.
  unfold find_benchmark. rewrite (find_in_spec V listdir from_definition_file). eauto.
Qed.

(** X22.  When a preset name is not one of the benchmark, [run_benchmark]
    ends with [Exit(1)] after one line on [stdout] that names the first
    such name.  No run is constructed: the file system is as before the
    command. *)
Theorem run_benchmark_unknown_preset (id : text)
  (known : list text) (presets : list Preset) (bad : text)
  (rest : list text) (table : bool) (benchmark : BenchmarkModel V)
  (w w0 : World) :
  find_benchmark V listdir from_definition_file search_path id w
  = (Return (Some benchmark), w0) ->
  Forall2 (fun n p => get_preset V benchmark n = Some p) known presets ->
  get_preset V benchmark bad = None ->
  run_benchmark V popen str_task str_exn dumps tabulate listdir
    from_definition_file search_path id (known ++ bad :: rest) table w
  = (Raise (Exit 1), add_stdout (preset_not_found bad id) w0)
  /\ fs w0 = fs w.
Proof.
  intros Hf Hk Hb. split.
  - unfold run_benchmark. unfold bind at 1. rewrite Hf.
    unfold bind at 1.
    rewrite (lookup_presets_unknown benchmark id known presets bad rest w0
               Hk Hb).
    reflexivity.
  - destruct (find_benchmark_returns id w) as (found & w1 & E & F & _).
    rewrite Hf in E. injection E as _ <-. exact F.
Qed.

(** X23.  Once the benchmark and its presets are found and the run is
    constructed, the outcome of [run_benchmark] is that of [start]: the
    statistics go to [stdout] in one line when it returns; a
    [BenchmarkRunException] becomes [Exit(1)] after its text and the line
    that the benchmark failed; any other exception leaves the command as
    it is, with nothing printed. *)
Theorem run_benchmark_after_construction (id : text)
  (names : list text) (presets : list Preset) (table : bool)
  (benchmark : BenchmarkModel V) (cli_run : CliBenchmarkRun (list (text * V)))
  (r : result (list (text * list (text * V)))) (w w0 w1 w2 : World) :
  find_benchmark V listdir from_definition_file search_path id w
  = (Return (Some benchmark), w0) ->
  Forall2 (fun n p => get_preset V benchmark n = Some p) names presets ->
  __init__ (make_run V benchmark presets) w0 = (Return cli_run, w1) ->
  start popen cli_run w1 = (r, w2) ->
  run_benchmark V popen str_task str_exn dumps tabulate listdir
    from_definition_file search_path id names table w
  = match r with
    | Return stats =>
      (Return tt, add_stdout (stats_line dumps tabulate table stats) w2)
    | Raise e =>
      if is_BenchmarkRunException e
      then (Raise (Exit 1),
            add_stdout (benchmark_failed id)
              (add_stdout (exn_str str_task str_exn e) w2))
      else (Raise e, w2)
    end.
Proof.
  intros Hf Hk Hi Hs. unfold run_benchmark. unfold bind at 1. rewrite Hf.
  unfold bind at 1.
  rewrite (lookup_presets_known benchmark id names presets w0 Hk).
  cbv zeta. unfold bind at 1. rewrite Hi.
  unfold bind at 1. unfold try_except_when. rewrite Hs.
  destruct r as [stats|e].
  - unfold print_stats, stats_line. destruct table; reflexivity.
  - destruct (is_BenchmarkRunException e); reflexivity.
Qed.

Lemma file_error_is_no_run_exception (e : exn) :
  is_file_error e = true ->
  is_BenchmarkRunException e = false
  /\ forall code, e = Exit code -> code = 1%Z.
Proof.
  destruct e; intros H; try discriminate H;
    (split; [reflexivity|intros code E; discriminate E]).
Qed.

(** X24.  [run_benchmark] never ends with a [BenchmarkRunException], and
    when it ends with [Exit] the code is 1: every exception of the runner
    that [start] raises is caught and turned into [Exit(1)]. *)
Theorem run_benchmark_raises (id : text) (names : list text)
  (table : bool) (w w' : World) (e : exn) :
  run_benchmark V popen str_task str_exn dumps tabulate listdir
    from_definition_file search_path id names table w
  = (Raise e, w') ->
  is_BenchmarkRunException e = false
  /\ forall code, e = Exit code -> code = 1%Z.
Proof.
  revert w e w'.
  change (raises_only
            (fun e => is_BenchmarkRunException e = false
                      /\ forall code, e = Exit code -> code = 1%Z)
            (run_benchmark V popen str_task str_exn dumps tabulate listdir
               from_definition_file search_path id names table)).
  assert (X : is_BenchmarkRunException (Exit 1) = false
              /\ forall code, Exit 1 = Exit code -> code = 1%Z).
  { split; [reflexivity|]. intros code E. injection E as <-. reflexivity. }
  unfold run_benchmark. apply raises_only_bind.
  { intros w e w' H.
    destruct (find_benchmark_returns id w) as (found & w0 & E & _).
    rewrite E in H. discriminate H. }
  intros [benchmark|].
  2:{ intros w e w' H. injection H as <- _. exact X. }
  apply raises_only_bind.
  { eapply raises_only_weaken; [|apply lookup_presets_raises].
    intros e ->. exact X. }
  intros presets. cbv zeta. apply raises_only_bind.
  { eapply raises_only_weaken; [|apply init_raises].
    intros e [->|K]; [exact X|apply file_error_is_no_run_exception, K]. }
  intros cli_run. apply raises_only_bind.
  { intros w e w' H. unfold try_except_when in H.
    destruct (start popen cli_run w) as [[stats|x] w1] eqn:E;
      [discriminate H|].
    destruct (is_BenchmarkRunException x) eqn:B.
    - injection H as <- _. exact X.
    - injection H as <- _.
      destruct (start_raises _ popen cli_run w x w1 E) as [K|K];
        [congruence|apply file_error_is_no_run_exception, K]. }
  intros stats. unfold print_stats.
  destruct (negb table); apply raises_only_modify.
Qed.

Lemma visited_all (f : FileSystem) (id : text) (paths : list text) :
  find (has_id V id) (found_in V listdir from_definition_file f paths) = None ->
  visited V listdir from_definition_file f paths id = paths.
Proof.
  induction paths as [|path rest IH]; [reflexivity|].
  rewrite (found_in_cons V listdir from_definition_file f path rest).
  rewrite find_app_first. cbn [visited].
  destruct (find (has_id V id)
              (found_in V listdir from_definition_file f [path]));
    [discriminate|].
  intros H. rewrite (IH H). reflexivity.
Qed.

(** X25.  When none of the benchmarks in the search path has the
    identifier, [run_benchmark] and [list_presets] both end with [Exit(1)]
    after the line on [stdout] that the benchmark is not found; by then
    every directory of the search path has been gone through, as in a full
    search. *)
Theorem unknown_benchmark_exits (id : text) (w : World)
  (found : list (BenchmarkModel V)) :
  fst (search_benchmarks V listdir from_definition_file search_path w)
  = Return found ->
  find (has_id V id) found = None ->
  let w0 :=
    snd (search_benchmarks V listdir from_definition_file search_path w) in
  list_presets V listdir from_definition_file search_path id w
  = (Raise (Exit 1), add_stdout (benchmark_not_found id) w0)
  /\ forall names table,
      run_benchmark V popen str_task str_exn dumps tabulate listdir
        from_definition_file search_path id names table w
      = (Raise (Exit 1), add_stdout (benchmark_not_found id) w0).
Proof.
  unfold search_benchmarks.
  rewrite (search_loop_spec V listdir from_definition_file).
  cbn [fst snd app]. intros E N. injection E as <-. cbv zeta.
  assert (F : find_benchmark V listdir from_definition_file search_path id w
              = (Return None,
                 add_stderrs
                   (complaints listdir (fs w) (search_dirs search_path)) w)).
  { unfold find_benchmark.
    rewrite (find_in_spec V listdir from_definition_file), N.
    rewrite (visited_all (fs w) id _ N). reflexivity. }
  split.
  - unfold list_presets. unfold bind at 1. rewrite F. reflexivity.
  - intros names table. unfold run_benchmark. unfold bind at 1. rewrite F.
    reflexivity.
Qed.

End TheRunCommand.

(** X26.  The table [print_stats] hands to [tabulate] has one row for
    each statistic of each preset and no other row: a preset without
    statistics has no row.  The rows of a preset come in the order of its
    statistics. *)
Theorem stats_table_rows (V : Type) (stats : list (text * list (text * V))) :
  (forall preset stat value,
      In (preset, stat, value) (stats_table V stats)
      <-> exists mapping,
          In (preset, mapping) stats /\ In (stat, value) mapping)
  /\ List.length (stats_table V stats)
     = list_sum (map (fun entry => List.length (snd entry)) stats).
Proof.
  split.
  - intros preset stat value. unfold stats_table. rewrite in_flat_map.
    split.
    + intros ([p m] & Hin & Hrow). cbn [fst snd] in Hrow.
      apply in_map_iff in Hrow. destruct Hrow as ([s v] & E & Hsv).
      cbn [fst snd] in E. injection E as <- <- <-. exists m. auto.
    + intros (m & Hin & Hsv). exists (preset, m). split; [exact Hin|].
      cbn [fst snd]. apply in_map_iff. exists (stat, value). auto.
  - induction stats as [|[p m] stats IH]; [reflexivity|].
    unfold stats_table in *. cbn [flat_map map list_sum fst snd].
    rewrite length_app, length_map, IH. reflexivity.
Qed.

(** * More worked runs *)

(** ** The process runner *)



Lemma unopened_log_loses_output_witness :
  exists w',
    _run_task sh A (T "/nowhere/setup.log") ready
    = (Raise (FileNotFoundError (T "/nowhere/setup.log")), w')
    /\ fs w' = fs ready
    /\ spinner w' = spinner ready ++ [SpWrite (PStr (echoed A))].
Proof.
  assert (H1 : sh A (fs ready)
               = Spawned (ascii_bytes (T "setup-ok") ++ [x0a]) 0)
    by (vm_compute; reflexivity).
  assert (H2 : open_append_error (fs ready) (T "/nowhere/setup.log")
               = Some (FileNotFoundError (T "/nowhere/setup.log")))
    by (vm_compute; reflexivity).
  exact (unopened_log_loses_output sh A (T "/nowhere/setup.log") ready
           _ _ _ H1 H2).
Defined.

Lemma sink_lines_hold_no_newline_witness :
  [x6f; x6b; x0a] <> []
  /\ no_newline (strip_newline [x6f; x6b; x0a]) = true.
Proof.
  assert (H : In [x6f; x6b; x0a] (readlines [x6f; x6b; x0a; xe9]))
    by (vm_compute; left; reflexivity).
  exact (sink_lines_hold_no_newline [x6f; x6b; x0a; xe9] [x6f; x6b; x0a] H).
Defined.

(** ** The sequencer *)

Lemma tasks_run_in_declared_order_witness :
  let out := start sh (constructed run_AB_C) ready in
  exists failed done rest,
    filter is_task_event (trace (snd out))
    = map ok_event done ++ failed_event failed
    /\ all_tasks [A; B] [(p1, [C])] = done ++ failed_task failed ++ rest
    /\ (forall t o, failed = Some (t, o) ->
          o <> Return 0%Z /\ fst out = Raise (exception_for t o))
    /\ (forall stats, fst out = Return stats -> failed = None /\ rest = []).
Proof.
  cbv zeta.
  assert (H1 : start sh (constructed run_AB_C) ready
               = (fst (start sh (constructed run_AB_C) ready),
                  snd (start sh (constructed run_AB_C) ready)))
    by (vm_compute; reflexivity).
  assert (H2 : trace (snd (start sh (constructed run_AB_C) ready))
               = trace ready
                   ++ trace (snd (start sh (constructed run_AB_C) ready)))
    by (vm_compute; reflexivity).
  exact (tasks_run_in_declared_order Stats sh (constructed run_AB_C) ready
           _ _ _ H1 H2).
Defined.

Lemma extraction_follows_its_phase_witness :
  let out := start sh (constructed Shelf.run_two) ready in
  exists e1 e2 preset tasks,
    In (preset, tasks) [(p1, [C]); (p2, [A; C])]
    /\ name preset = T "p2"
    /\ trace (snd out)
       = e1 ++ map ok_event tasks
            ++ EvStats (T "p2")
                 (echoed A ++ newline :: T "setup-ok" ++ [newline]
                    ++ echoed C ++ newline :: T "run-ok" ++ [newline])
            :: e2.
Proof.
  cbv zeta.
  assert (H1 : start sh (constructed Shelf.run_two) ready
               = (fst (start sh (constructed Shelf.run_two) ready),
                  snd (start sh (constructed Shelf.run_two) ready)))
    by (vm_compute; reflexivity).
  assert (H2 : trace (snd (start sh (constructed Shelf.run_two) ready))
               = trace ready
                   ++ trace (snd (start sh (constructed Shelf.run_two)
                                    ready)))
    by (vm_compute; reflexivity).
  assert (H3 : In (EvStats (T "p2")
                     (echoed A ++ newline :: T "setup-ok" ++ [newline]
                        ++ echoed C ++ newline :: T "run-ok" ++ [newline]))
                  (trace (snd (start sh (constructed Shelf.run_two) ready))))
    by (vm_compute; do 5 right; left; reflexivity).
  exact (extraction_follows_its_phase Stats sh (constructed Shelf.run_two)
           ready _ _ _ _ _ H1 H2 H3).
Defined.

Lemma stats_keys_in_selection_order_witness :
  keys [(T "p1", [(T "chars", 21%Z)]); (T "p2", [(T "chars", 46%Z)])]
  = preset_names [(p1, [C]); (p2, [A; C])].
Proof.
  assert (H1 : start sh (constructed Shelf.run_two) ready
               = (Return [(T "p1", [(T "chars", 21%Z)]);
                          (T "p2", [(T "chars", 46%Z)])],
                  snd (start sh (constructed Shelf.run_two) ready)))
    by (vm_compute; reflexivity).
  assert (H2 : NoDup (preset_names
                        (run (benchmark_run (constructed Shelf.run_two))))).
  { vm_compute. constructor; [intros [E|[]]; discriminate E|].
    constructor; [intros []|constructor]. }
  exact (stats_keys_in_selection_order Stats sh (constructed Shelf.run_two)
           ready _ _ H1 H2).
Defined.

Lemma start_without_presets_witness :
  let out := start sh (constructed Shelf.run_setup_only) ready in
  (fst out = Return [] /\ trace (snd out) = trace ready ++ map ok_event [A])
  \/ (exists task outcome,
        In task [A]
        /\ outcome <> Return 0%Z
        /\ fst out = Raise (exception_for task outcome)).
Proof.
  cbv zeta.
  assert (H1 : start sh (constructed Shelf.run_setup_only) ready
               = (fst (start sh (constructed Shelf.run_setup_only) ready),
                  snd (start sh (constructed Shelf.run_setup_only) ready)))
    by (vm_compute; reflexivity).
  exact (start_without_presets Stats sh (constructed Shelf.run_setup_only)
           ready _ _ eq_refl H1).
Defined.

(** ** The logs *)

Lemma setup_log_after_run_witness :
  let out := start sh (constructed Shelf.run_two) ready in
  exists sections,
    Forall2 (section_of sh) [A] sections
    /\ content (fs (snd out)) setup_log
       = content (fs ready) setup_log ++ List.concat sections.
Proof.
  cbv zeta.
  assert (H1 : start sh (constructed Shelf.run_two) ready
               = (Return [(T "p1", [(T "chars", 21%Z)]);
                          (T "p2", [(T "chars", 46%Z)])],
                  snd (start sh (constructed Shelf.run_two) ready)))
    by (vm_compute; reflexivity).
  exact (setup_log_after_run Stats sh (constructed Shelf.run_two) ready
           _ _ H1).
Defined.

(** A child that prints [a\r\nb\n]: the log keeps the carriage return, the
    reader that [get_stats] is given does not show it. *)
Lemma preset_log_and_stats_after_run_witness :
  let out := start Shelf.dos (constructed run_A_C) ready in
  let lp := _get_log_path (constructed run_A_C) (T "run_" ++ name p1) in
  exists sections,
    Forall2 (section_of Shelf.dos) [C] sections
    /\ read_file (fs (snd out)) lp
       = Some (content (fs ready) lp ++ List.concat sections)
    /\ lookup [(T "p1", [(T "chars", 18%Z)])] (name p1)
       = Some (count_chars
                 (universal_newlines
                    (content (fs ready) lp ++ List.concat sections))).
Proof.
  cbv zeta.
  assert (H1 : start Shelf.dos (constructed run_A_C) ready
               = (Return [(T "p1", [(T "chars", 18%Z)])],
                  snd (start Shelf.dos (constructed run_A_C) ready)))
    by (vm_compute; reflexivity).
  assert (H2 : NoDup (preset_names
                        (run (benchmark_run (constructed run_A_C))))).
  { vm_compute. constructor; [intros []|constructor]. }
  assert (H3 : In (p1, [C]) (run (benchmark_run (constructed run_A_C))))
    by (left; reflexivity).
  exact (preset_log_and_stats_after_run Stats Shelf.dos
           (constructed run_A_C) ready _ _ p1 [C] H1 H2 H3).
Defined.

(** What that run leaves in the log, and what it reports. *)
Lemma carriage_return_is_kept_in_the_log_and_not_counted :
  let out := start Shelf.dos (constructed run_A_C) ready in
  read_file (fs (snd out))
    (_get_log_path (constructed run_A_C) (T "run_p1"))
  = Some (T "$ echo run-ok" ++ [newline; 97; carriage_return; newline;
                                98; newline])%N
  /\ fst out = Return [(T "p1", [(T "chars", 18%Z)])]
  /\ count_chars (T "$ echo run-ok"
                    ++ [newline; 97; carriage_return; newline; 98; newline])%N
     = [(T "chars", 19%Z)].
Proof. vm_compute. repeat split; reflexivity. Qed.


(** And what that run returns and leaves in the log of [p1]: the sections
    of both phases. *)
Lemma run_twice_returns_one_entry_per_name :
  fst (start sh (constructed run_twice) ready)
  = Return [(T "p1", [(T "chars", 46%Z)]); (T "p2", [(T "chars", 21%Z)])]
  /\ read_file (fs (snd (start sh (constructed run_twice) ready)))
       (_get_log_path (constructed run_twice) (T "run_p1"))
     = Some (echoed C ++ newline :: T "run-ok" ++ [newline]
               ++ echoed A ++ newline :: T "setup-ok" ++ [newline]).
Proof. vm_compute. split; reflexivity. Qed.

(** ** Construction *)

(** A regular file in the way: [os.mkdir] fails with [NotADirectoryError],
    for the directory of the run when [logs/bench1] is a file, and for
    [logs/bench1] when [logs] is one. *)
Lemma construction_under_a_regular_file :
  __init__ run_A_C Shelf.file_for_bench1
  = (Raise (NotADirectoryError (T "/cwd/logs/bench1/20240309_070559")),
     Shelf.file_for_bench1)
  /\ __init__ run_A_C Shelf.file_for_logs
     = (Raise (NotADirectoryError (T "/cwd/logs/bench1")),
        Shelf.file_for_logs)
  /\ open_append_error (fs Shelf.file_for_bench1)
       (T "/cwd/logs/bench1/setup.log")
     = Some (NotADirectoryError (T "/cwd/logs/bench1/setup.log"))
  /\ open_append_error (fs Shelf.file_for_bench1)
       (T "/cwd/nowhere/setup.log")
     = Some (FileNotFoundError (T "/cwd/nowhere/setup.log")).
Proof. vm_compute. repeat split; reflexivity. Qed.

Lemma construction_makes_a_new_directory_witness :
  exists_ (fs (world clock1)) (log_dir (constructed run_A_C)) = false
  /\ is_dir (fs ready) (log_dir (constructed run_A_C)) = true
  /\ files (fs ready) = files (fs (world clock1))
  /\ (dirs (fs ready)
      = dirs (fs (world clock1)) ++ [log_dir (constructed run_A_C)]
      \/ dirs (fs ready)
         = dirs (fs (world clock1))
             ++ [PosixPath.dirname (log_dir (constructed run_A_C));
                 log_dir (constructed run_A_C)])
  /\ stdout ready = stdout (world clock1)
  /\ stderr ready = stderr (world clock1)
  /\ trace ready = trace (world clock1).
Proof.
  assert (H : __init__ run_A_C (world clock1)
              = (Return (constructed run_A_C), ready))
    by (vm_compute; reflexivity).
  exact (construction_makes_a_new_directory Stats run_A_C (world clock1)
           ready (constructed run_A_C) H).
Defined.

Lemma construction_twice_in_a_second_fails_witness :
  __init__ run_AB_C ready
  = (Raise (FileExistsError (log_dir (constructed run_A_C))), ready).
Proof.
  assert (H : __init__ run_A_C (world clock1)
              = (Return (constructed run_A_C), ready))
    by (vm_compute; reflexivity).
  exact (construction_twice_in_a_second_fails Stats run_A_C run_AB_C
           (world clock1) ready ready (constructed run_A_C) H
           eq_refl eq_refl eq_refl eq_refl).
Defined.


(** ** The commands *)

Lemma find_benchmark_is_first_of_search_witness :
  exists w0 later,
    find_benchmark Z Shelf.listdir Shelf.from_definition_file
      Shelf.search_path (T "bench2") Shelf.shell
    = (Return (find (has_id Z (T "bench2")) [Shelf.bench1; Shelf.bench2]),
       w0)
    /\ fs w0 = fs Shelf.shell /\ stdout w0 = stdout Shelf.shell
    /\ stderr (add_stderr (not_a_directory_message (T "/none/benchmarks"))
                 Shelf.shell)
       = stderr w0 ++ later.
Proof.
  assert (H : search_benchmarks Z Shelf.listdir Shelf.from_definition_file
                Shelf.search_path Shelf.shell
              = (Return [Shelf.bench1; Shelf.bench2],
                 add_stderr (not_a_directory_message (T "/none/benchmarks"))
                   Shelf.shell))
    by (vm_compute; reflexivity).
  exact (find_benchmark_is_first_of_search Z Shelf.listdir
           Shelf.from_definition_file Shelf.search_path (T "bench2")
           Shelf.shell
           (add_stderr (not_a_directory_message (T "/none/benchmarks"))
              Shelf.shell)
           [Shelf.bench1; Shelf.bench2] H).
Defined.

Lemma find_benchmark_found_witness :
  get_id (model_benchmark Z Shelf.bench2) = T "bench2"
  /\ exists entry entries dir,
      In entry (split_on colon Shelf.search_path)
      /\ Shelf.listdir (fs Shelf.shell)
           (PosixPath.join entry [T "benchmarks"]) = Some entries
      /\ In dir entries
      /\ exists_ (fs Shelf.shell)
           (definition_file (PosixPath.join entry [T "benchmarks"]) dir)
         = true
      /\ Shelf.bench2
         = Shelf.from_definition_file
             (definition_file (PosixPath.join entry [T "benchmarks"]) dir).
Proof.
  assert (H : find_benchmark Z Shelf.listdir Shelf.from_definition_file
                Shelf.search_path (T "bench2") Shelf.shell
              = (Return (Some Shelf.bench2),
                 add_stderr (not_a_directory_message (T "/none/benchmarks"))
                   Shelf.shell))
    by (vm_compute; reflexivity).
  exact (find_benchmark_found Z Shelf.listdir Shelf.from_definition_file
           Shelf.search_path (T "bench2") Shelf.shell _ Shelf.bench2 H).
Defined.

Lemma run_benchmark_unknown_preset_witness :
  let w0 :=
    add_stderr (not_a_directory_message (T "/none/benchmarks")) Shelf.shell in
  Shelf.run_command (T "bench1") ([T "p1"] ++ T "p9" :: [T "p2"]) true
    Shelf.shell
  = (Raise (Exit 1), add_stdout (preset_not_found (T "p9") (T "bench1")) w0)
  /\ fs w0 = fs Shelf.shell.
Proof.
  cbv zeta.
  assert (H1 : find_benchmark Z Shelf.listdir Shelf.from_definition_file
                 Shelf.search_path (T "bench1") Shelf.shell
               = (Return (Some Shelf.bench1),
                  add_stderr (not_a_directory_message (T "/none/benchmarks"))
                    Shelf.shell))
    by (vm_compute; reflexivity).
  assert (H2 : Forall2
                 (fun n p => get_preset Z Shelf.bench1 n = Some p)
                 [T "p1"] [p1])
    by (constructor; [vm_compute; reflexivity|constructor]).
  assert (H3 : get_preset Z Shelf.bench1 (T "p9") = None)
    by (vm_compute; reflexivity).
  exact (run_benchmark_unknown_preset Z sh Shelf.str_task Shelf.str_exn
           Shelf.dumps Shelf.tabulate Shelf.listdir
           Shelf.from_definition_file Shelf.search_path (T "bench1")
           [T "p1"] [p1] (T "p9") [T "p2"] true Shelf.bench1 Shelf.shell _
           H1 H2 H3).
Defined.

Lemma run_benchmark_after_construction_witness :
  let w0 :=
    add_stderr (not_a_directory_message (T "/none/benchmarks")) Shelf.shell in
  let cli_run :=
    {| benchmark_run := make_run Z Shelf.bench2 [p1];
       log_dir := T "/cwd/logs/bench2/20240309_070559" |} in
  let w1 := snd (__init__ (make_run Z Shelf.bench2 [p1]) w0) in
  let out := start sh cli_run w1 in
  Shelf.run_command (T "bench2") [T "p1"] false Shelf.shell
  = match fst out with
    | Return stats =>
      (Return tt,
       add_stdout (stats_line Shelf.dumps Shelf.tabulate false stats)
         (snd out))
    | Raise e =>
      if is_BenchmarkRunException e
      then (Raise (Exit 1),
            add_stdout (benchmark_failed (T "bench2"))
              (add_stdout (exn_str Shelf.str_task Shelf.str_exn e)
                 (snd out)))
      else (Raise e, snd out)
    end.
Proof.
  cbv zeta.
  assert (H1 : find_benchmark Z Shelf.listdir Shelf.from_definition_file
                 Shelf.search_path (T "bench2") Shelf.shell
               = (Return (Some Shelf.bench2),
                  add_stderr (not_a_directory_message (T "/none/benchmarks"))
                    Shelf.shell))
    by (vm_compute; reflexivity).
  assert (H2 : Forall2
                 (fun n p => get_preset Z Shelf.bench2 n = Some p)
                 [T "p1"] [p1])
    by (constructor; [vm_compute; reflexivity|constructor]).
  assert (H3 : __init__ (make_run Z Shelf.bench2 [p1])
                 (add_stderr (not_a_directory_message (T "/none/benchmarks"))
                    Shelf.shell)
               = (Return {| benchmark_run := make_run Z Shelf.bench2 [p1];
                            log_dir := T "/cwd/logs/bench2/20240309_070559" |},
                  snd (__init__ (make_run Z Shelf.bench2 [p1])
                         (add_stderr
                            (not_a_directory_message (T "/none/benchmarks"))
                            Shelf.shell))))
    by (vm_compute; reflexivity).
  exact (run_benchmark_after_construction Z sh Shelf.str_task Shelf.str_exn
           Shelf.dumps Shelf.tabulate Shelf.listdir
           Shelf.from_definition_file Shelf.search_path (T "bench2")
           [T "p1"] [p1] false Shelf.bench2 _ _ Shelf.shell _ _ _
           H1 H2 H3 (surjective_pairing _)).
Defined.

(** A benchmark whose setup fails: the exception of the runner does not
    leave the command. *)
Lemma run_benchmark_raises_witness :
  Shelf.run_command (T "bench2") [T "p1"] false Shelf.shell
  = (Raise (Exit 1),
     snd (Shelf.run_command (T "bench2") [T "p1"] false Shelf.shell))
  /\ is_BenchmarkRunException (Exit 1) = false
  /\ forall code, Exit 1 = Exit code -> code = 1%Z.
Proof.
  assert (H : run_benchmark Z sh Shelf.str_task Shelf.str_exn
                Shelf.dumps Shelf.tabulate Shelf.listdir
                Shelf.from_definition_file Shelf.search_path (T "bench2")
                [T "p1"] false Shelf.shell
              = (Raise (Exit 1),
                 snd (run_benchmark Z sh Shelf.str_task Shelf.str_exn
                        Shelf.dumps Shelf.tabulate Shelf.listdir
                        Shelf.from_definition_file Shelf.search_path
                        (T "bench2") [T "p1"] false Shelf.shell)))
    by (vm_compute; reflexivity).
  split; [exact H|].
  exact (run_benchmark_raises Z sh Shelf.str_task Shelf.str_exn
           Shelf.dumps Shelf.tabulate Shelf.listdir
           Shelf.from_definition_file Shelf.search_path (T "bench2")
           [T "p1"] false Shelf.shell
           (snd (run_benchmark Z sh Shelf.str_task Shelf.str_exn
                   Shelf.dumps Shelf.tabulate Shelf.listdir
                   Shelf.from_definition_file Shelf.search_path
                   (T "bench2") [T "p1"] false Shelf.shell))
           (Exit 1) H).
Defined.

(** The same benchmark run again within the second: the error of
    [os.mkdir] leaves the command as it is. *)
Lemma run_again_within_the_second :
  Shelf.run_command (T "bench1") [T "p1"] false Shelf.shell_again
  = (Raise (FileExistsError (T "/cwd/logs/bench1/20240309_070559")),
     add_stderr (not_a_directory_message (T "/none/benchmarks"))
       Shelf.shell_again).
Proof. vm_compute. reflexivity. Qed.

Lemma unknown_benchmark_exits_witness :
  let w0 :=
    snd (search_benchmarks Z Shelf.listdir Shelf.from_definition_file
           Shelf.search_path Shelf.shell) in
  list_presets Z Shelf.listdir Shelf.from_definition_file Shelf.search_path
    (T "nosuch") Shelf.shell
  = (Raise (Exit 1), add_stdout (benchmark_not_found (T "nosuch")) w0)
  /\ forall names table,
      Shelf.run_command (T "nosuch") names table Shelf.shell
      = (Raise (Exit 1), add_stdout (benchmark_not_found (T "nosuch")) w0).
Proof.
  assert (H1 : fst (search_benchmarks Z Shelf.listdir
                      Shelf.from_definition_file Shelf.search_path
                      Shelf.shell)
               = Return [Shelf.bench1; Shelf.bench2])
    by (vm_compute; reflexivity).
  assert (H2 : find (has_id Z (T "nosuch")) [Shelf.bench1; Shelf.bench2]
               = None)
    by (vm_compute; reflexivity).
  exact (unknown_benchmark_exits Z sh Shelf.str_task Shelf.str_exn
           Shelf.dumps Shelf.tabulate Shelf.listdir
           Shelf.from_definition_file Shelf.search_path (T "nosuch")
           Shelf.shell _ H1 H2).
Defined.
